(** * TemplateFactory: a shallow embedding of [TemplateFactory.js]

    The development follows the source file: JavaScript strings and the
    regular-expression replacements, the host document as far as the code
    observes it, [ComponentBlock] with its operations, [ComponentVar] with
    the class helpers, and the factory with its index.  The selector engine
    of the host is a parameter of the operations; a small engine for the
    selectors that the source builds serves where a concrete host is run. *)

From Stdlib Require Import NArith String Ascii.
From stdpp Require Import base option list numbers countable gmap fin_maps pretty.

Local Open Scope N_scope.
Local Open Scope list_scope.

(** ** JavaScript strings *)

(** A JavaScript string is a sequence of UTF-16 code units.  Regular
    expressions without the [u] flag work on code units as well. *)
Abbreviation jsstring := (list N).

(** ASCII literals of the source, written as Rocq strings. *)
Definition js (s : string) : jsstring :=
  map N_of_ascii (list_ascii_of_string s).

(** [String(i)] for a non-negative integer counter. *)
Definition dec (i : nat) : jsstring := js (pretty i).

Arguments js : simpl never.
Arguments dec : simpl never.

(** The decimal digits, and the number of digits a string ends with. *)
Definition is_digit (c : N) : bool := (48 <=? c) && (c <=? 57).

Fixpoint leading_digits (s : jsstring) : nat :=
  match s with
  | c :: t => if is_digit c then S (leading_digits t) else 0%nat
  | [] => 0%nat
  end.

Definition trailing_digits (s : jsstring) : nat := leading_digits (rev s).

(** Truthiness of a string value: only [''] is falsy. *)
Definition nonempty (s : jsstring) : bool :=
  match s with [] => false | _ :: _ => true end.

(** [s || ''] on a string is the string itself. *)
Definition or_empty (s : jsstring) : jsstring :=
  if nonempty s then s else [].

(** The class [\s] of ECMAScript: white space and line terminators. *)
Definition is_js_space (c : N) : bool :=
  ((9 <=? c) && (c <=? 13)) || (c =? 32) || (c =? 160) || (c =? 5760)
  || ((8192 <=? c) && (c <=? 8202)) || (c =? 8232) || (c =? 8233)
  || (c =? 8239) || (c =? 8287) || (c =? 12288) || (c =? 65279).

Definition mem_code (c : N) (l : list N) : bool :=
  existsb (N.eqb c) l.

(** [s.replace(/[...]+/g, r)] for a character class: every maximal run of
    characters of the class is replaced by one copy of [r].  [in_run] tells
    whether the previous character already belonged to the current match. *)
Fixpoint replace_runs (cls : N -> bool) (r : jsstring) (in_run : bool)
    (s : jsstring) : jsstring :=
  match s with
  | [] => []
  | c :: t =>
      if cls c
      then (if in_run then [] else r) ++ replace_runs cls r true t
      else c :: replace_runs cls r false t
  end.

Definition replace_class (cls : N -> bool) (r s : jsstring) : jsstring :=
  replace_runs cls r false s.

(** *** The three character classes of the source *)

(** [/[\s_\-]+/g] of the factory constructor. *)
Definition index_class (c : N) : bool :=
  is_js_space c || (c =? 95) || (c =? 45).

(** [/[\s\-]+/g] of the [ComponentBlock] constructor. *)
Definition prefix_class (c : N) : bool :=
  is_js_space c || (c =? 45).

(** The punctuation of the class in [flattenObjectId], as code units in
    source order: every ASCII punctuation mark except the underscore. *)
Definition forbidden_punctuation : list N :=
  [33; 34; 39; 35; 36; 94; 60; 62; 61; 63; 42; 46; 47; 92; 93; 91; 123;
   125; 96; 126; 37; 38; 45; 40; 41; 43; 44; 58; 59; 64; 124].

Definition forbidden (c : N) : bool :=
  mem_code c forbidden_punctuation || is_js_space c.

(** [flattenObjectId] on a string argument. *)
Definition flattenObjectId (objectid : jsstring) : jsstring :=
  replace_class forbidden [] objectid.

(** ** Outcomes of JavaScript code *)

Inductive exn := TypeError | SyntaxError.

(** A call either returns a value and the state it leaves, or throws and
    leaves the state it had reached, or the model ran out of loop fuel. *)
Inductive outcome (S A : Type) :=
  | Ok (a : A) (s : S)
  | Throw (e : exn) (s : S)
  | OutOfFuel.
Arguments Ok {S A} a s.
Arguments Throw {S A} e s.
Arguments OutOfFuel {S A}.

Definition M (S A : Type) : Type := S -> outcome S A.

Definition ret {S A} (a : A) : M S A := fun s => Ok a s.

Definition bind {S A B} (m : M S A) (k : A -> M S B) : M S B :=
  fun s =>
    match m s with
    | Ok a s' => k a s'
    | Throw e s' => Throw e s'
    | OutOfFuel => OutOfFuel
    end.

Definition throw {S A} (e : exn) : M S A := fun s => Throw e s.
Definition get {S} : M S S := fun s => Ok s s.
Definition put {S} (s : S) : M S unit := fun _ => Ok tt s.
Definition modify {S} (f : S -> S) : M S unit := fun s => Ok tt (f s).

Declare Scope js_scope.
Delimit Scope js_scope with js.
Notation "'let*' x ':=' m 'in' k" := (bind m (fun x => k))
  (at level 10, x pattern, m at level 100, k at level 200) : js_scope.
Notation "m ';;' k" := (bind m (fun _ => k))
  (at level 100, k at level 200, right associativity) : js_scope.

(** ** The host document, as far as the code observes it *)

(** A node of the host: its [nodeType], the identity of the node object,
    its nesting depth inside the tree that holds it, the [id] attribute
    (absent or a string), the class list and the two [data-] attributes
    read by [ComponentVar].  A tree is the list of its nodes in tree order,
    so that the children of a node are the nodes of the next depth that
    follow it. *)
Record Node := {
  nodeType : N;
  ref : nat;
  depth : nat;
  id_attr : option jsstring;
  classList : list jsstring;
  trueclass : option jsstring;
  falseclass : option jsstring
}.

Definition ELEMENT_NODE : N := 1.

Definition is_element (n : Node) : bool := nodeType n =? ELEMENT_NODE.

(** The reflected [id] property: [''] when the attribute is absent. *)
Definition node_id (n : Node) : jsstring := default [] (id_attr n).

(** The assignment [e.id = v]. *)
Definition set_node_id (v : jsstring) (n : Node) : Node :=
  {| nodeType := nodeType n; ref := ref n; depth := depth n;
     id_attr := Some v; classList := classList n;
     trueclass := trueclass n; falseclass := falseclass n |}.

Definition set_depth (k : nat) (n : Node) : Node :=
  {| nodeType := nodeType n; ref := ref n; depth := k;
     id_attr := id_attr n; classList := classList n;
     trueclass := trueclass n; falseclass := falseclass n |}.

Definition set_ref (r : nat) (n : Node) : Node :=
  {| nodeType := nodeType n; ref := r; depth := depth n;
     id_attr := id_attr n; classList := classList n;
     trueclass := trueclass n; falseclass := falseclass n |}.

(** The live document: its nodes in tree order and the next unused node
    identity. *)
Record Document := {
  tree : list Node;
  fresh : nat
}.

(** [document.getElementById(v)]: the first element in tree order whose
    [id] attribute is [v]; [null] for the empty string. *)
Definition getElementById (v : jsstring) (d : Document) : option Node :=
  if nonempty v
  then List.find (fun n => is_element n && bool_decide (id_attr n = Some v)) (tree d)
  else None.

(** [frag.cloneNode(true)]: a copy of every node, each a new object. *)
Fixpoint clone_from (r : nat) (frag : list Node) : list Node :=
  match frag with
  | [] => []
  | n :: rest => set_ref r n :: clone_from (S r) rest
  end.

(** The nodes of the subtree below a node of depth [k], and what follows. *)
Fixpoint split_subtree (k : nat) (t : list Node) : list Node * list Node :=
  match t with
  | [] => ([], [])
  | n :: rest =>
      if (k <? depth n)%nat
      then let (sub, after) := split_subtree k rest in (n :: sub, after)
      else ([], t)
  end.

(** [parent.appendChild(df)] for a fragment [df]: the nodes of the fragment
    become the last children of the node whose identity is [parent].  When
    that node is not part of the tree, the tree stays as it is. *)
Fixpoint appendChild (parent : nat) (df : list Node) (t : list Node) : list Node :=
  match t with
  | [] => []
  | n :: rest =>
      if (ref n =? parent)%nat
      then let (sub, after) := split_subtree (depth n) rest in
           n :: sub ++ map (fun c => set_depth (S (depth n) + depth c) c) df ++ after
      else n :: appendChild parent df rest
  end.

(** The ids of the elements of a tree that carry an [id] attribute, in tree
    order. *)
Definition declared_ids (t : list Node) : list jsstring :=
  omap (fun n => if is_element n then id_attr n else None) t.

(** ** ComponentVar: the record *)

(** The object [{ 'true': tcls, 'false': fcls }]; either entry may be
    [undefined]. *)
Record BoolClass := {
  bc_true : option jsstring;
  bc_false : option jsstring
}.

Record ComponentVar := {
  var_id : jsstring;
  boolClass : option BoolClass
}.

(** Truthiness of [s && s.length] for a string or [undefined]. *)
Definition has_length (s : option jsstring) : bool :=
  match s with Some (_ :: _) => true | _ => false end.

(** [new ComponentVar(tag, cBlock)].  The back reference to the block is
    not stored: every operation of a handle runs on the state that holds
    its block.  The pass-through properties [src], [href], [title] and
    [alt] are left out. *)
Definition new_ComponentVar (tag : Node) : ComponentVar :=
  let tcls := trueclass tag in
  let fcls := falseclass tag in
  {| var_id := node_id tag;
     boolClass :=
       if has_length tcls || has_length fcls
       then Some {| bc_true := tcls; bc_false := fcls |}
       else None |}.

(** ** ComponentBlock *)

Module Block.

(** The fields of a block.  [targetElement] is the variable of the
    constructor's closure that [setTargetElement] and [getTargetElement]
    share; [_targetElement] is the property of the same name that [appendTo]
    assigns.  Both hold the identity of a node.  [vars] holds the handles
    that the constructor stored in the block under the variable ids.

    In the source the handles are members of the block like the fields
    are: a handle stored under the name of a field takes the place of its
    value, and a handle stored under the name of a member of the prototype
    hides that member.  The operations below are those of a block in which
    no handle has such a name (see [regular]); the constructor tells the
    other blocks apart (see [Factory.new_ComponentBlock]). *)
Record ComponentBlock := {
  prefixid : jsstring;
  bTemplate : bool;
  currentElementId : jsstring;
  targetElement : option nat;
  _targetElement : option nat;
  targetid : jsstring;
  variables : list jsstring;
  vars : gmap jsstring ComponentVar;
  templateCode : list Node
}.

(** The state the operations of a block run on: the block itself and the
    live document. *)
Record State := {
  this : ComponentBlock;
  document : Document
}.

(** The members that the constructor assigns before it stores the handles,
    in source order. *)
Definition own_members : list jsstring :=
  [js "prefixid"; js "bTemplate"; js "currentElementId"; js "setTargetElement";
   js "getTargetElement"; js "targetid"; js "variables"].

(** The members of [ComponentBlock.prototype]. *)
Definition prototype_members : list jsstring :=
  [js "id"; js "name"; js "target"; js "root"; js "prefix"; js "attach";
   js "appendTo"; js "calculateObjectID"; js "initRootElements";
   js "initVariables"; js "find"].

(** The members of a block that its code uses: those above and, for a
    template, the two that only a template gets, [templateCode] from the
    constructor and [_targetElement] from [appendTo].  What a block inherits
    from [Object.prototype] is not used by its code. *)
Definition members (template : bool) : list jsstring :=
  own_members ++ prototype_members
  ++ (if template then [js "templateCode"; js "_targetElement"] else []).

(** The members of a block that a handle took the place of. *)
Definition shadowed (b : ComponentBlock) : list jsstring :=
  filter (fun m => is_Some (vars b !! m)) (members (bTemplate b)).

(** No handle of the block has the name of a member: every member is what
    its field or the prototype says, and an assignment to a property runs
    its setter. *)
Definition regular (b : ComponentBlock) : Prop := shadowed b = [].

(** What a property of a block can hold where a string is expected. *)
Inductive property :=
  | Str (s : jsstring)
  | Own (h : ComponentVar).

(** Reading [b.name] on a block in which handles may have taken the place
    of members: a handle stored under [name] hides the accessor of the
    prototype, and the accessor returns [this.prefixid], which is a handle
    when one was stored under [prefixid]. *)
Definition read_name (b : ComponentBlock) : property :=
  match vars b !! js "name" with
  | Some h => Own h
  | None =>
      match vars b !! js "prefixid" with
      | Some h => Own h
      | None => Str (prefixid b)
      end
  end.

Definition with_currentElementId (v : jsstring) (b : ComponentBlock) : ComponentBlock :=
  {| prefixid := prefixid b; bTemplate := bTemplate b; currentElementId := v;
     targetElement := targetElement b; _targetElement := _targetElement b;
     targetid := targetid b; variables := variables b; vars := vars b;
     templateCode := templateCode b |}.

Definition with_targetElement (r : option nat) (b : ComponentBlock) : ComponentBlock :=
  {| prefixid := prefixid b; bTemplate := bTemplate b;
     currentElementId := currentElementId b;
     targetElement := r; _targetElement := _targetElement b;
     targetid := targetid b; variables := variables b; vars := vars b;
     templateCode := templateCode b |}.

Definition with__targetElement (r : option nat) (b : ComponentBlock) : ComponentBlock :=
  {| prefixid := prefixid b; bTemplate := bTemplate b;
     currentElementId := currentElementId b;
     targetElement := targetElement b; _targetElement := r;
     targetid := targetid b; variables := variables b; vars := vars b;
     templateCode := templateCode b |}.

Definition on_this (f : ComponentBlock -> ComponentBlock) : M State unit :=
  modify (fun s => {| this := f (this s); document := document s |}).

Definition on_document (f : Document -> Document) : M State unit :=
  modify (fun s => {| this := this s; document := f (document s) |}).

Local Open Scope js_scope.

(** [this.setTargetElement(node)] *)
Definition setTargetElement (node : option Node) : M State unit :=
  match node with
  | Some n =>
      if nodeType n =? ELEMENT_NODE
      then on_this (with_targetElement (Some (ref n)))
      else ret tt
  | None => ret tt
  end.

(** [this.getTargetElement()] *)
Definition getTargetElement : M State (option nat) :=
  let* s := get in ret (targetElement (this s)).

(** The getter of the property [name], on a regular block. *)
Definition name (b : ComponentBlock) : jsstring := prefixid b.

(** The property [target]: getter and setter. *)
Definition target : M State (option nat) := getTargetElement.
Definition set_target (node : option Node) : M State unit := setTargetElement node.

(** [this.prefix()] *)
Definition prefix (b : ComponentBlock) : jsstring :=
  if bTemplate b
  then js "_" ++ prefixid b ++ js "_" ++ currentElementId b
  else [].

(** The call [flattenObjectId(objectid)] on a value that may be
    [undefined] or [null] ([None]): [objectid.replace] then fails. *)
Definition flattenObjectId_call (objectid : option jsstring) : M State jsstring :=
  match objectid with
  | Some o => ret (flattenObjectId o)
  | None => throw TypeError
  end.

(** The value [le && le.length]: [undefined] ([None]) or a number. *)
Definition truthy (r : option nat) : bool :=
  match r with Some (S _) => true | _ => false end.

(** Truthiness of an object id that is a string, [undefined] or [null]. *)
Definition truthy_id (objectid : option jsstring) : bool :=
  match objectid with Some (_ :: _) => true | _ => false end.

(** [m] relates the state it starts in to every state it can end in. *)
Definition preserves {A} (R : State -> State -> Prop) (m : M State A) : Prop :=
  forall s,
    match m s with
    | Ok _ s' => R s s'
    | Throw _ s' => R s s'
    | OutOfFuel => True
    end.

(** The state that an outcome ends in, if it ends, is related to [s]. *)
Definition ends_in {A} (R : State -> State -> Prop) (s : State)
    (r : outcome State A) : Prop :=
  match r with
  | Ok _ s' => R s s'
  | Throw _ s' => R s s'
  | OutOfFuel => True
  end.

(** The two states hold the same definition: the blocks differ at most in
    [currentElementId] and in the property [_targetElement].  In particular
    the closure variable behind the [target] accessor is the same. *)
Definition same_definition (s s' : State) : Prop :=
  targetElement (this s') = targetElement (this s)
  /\ prefixid (this s') = prefixid (this s)
  /\ bTemplate (this s') = bTemplate (this s)
  /\ targetid (this s') = targetid (this s)
  /\ variables (this s') = variables (this s)
  /\ vars (this s') = vars (this s)
  /\ templateCode (this s') = templateCode (this s).

(** The two states hold the same definition, and the block is regular in
    the second. *)
Definition stays_regular (s s' : State) : Prop :=
  same_definition s s' /\ regular (this s').


(** The state in which [find] runs its query: the block with the sanitized
    object id as [currentElementId]. *)
Definition probing (o : jsstring) (s : State) : State :=
  {| this := with_currentElementId (flattenObjectId o) (this s);
     document := document s |}.

Section Engine.

(** The selector engine of the host: the elements of a tree, given in tree
    order, that a selector text selects, or [None] when the engine rejects
    the text with a [SyntaxError]. *)
Variable querySelectorAll : jsstring -> list Node -> option (list Node).

(** [document.querySelectorAll(sel)] *)
Definition document_querySelectorAll (sel : jsstring) : M State (list Node) :=
  let* s := get in
  match querySelectorAll sel (tree (document s)) with
  | Some le => ret le
  | None => throw SyntaxError
  end.

(** [ComponentBlock.prototype.find] *)
Definition find (objectid : option jsstring) : M State (option nat) :=
  let* s := get in
  if truthy_id objectid && (0 <? length (variables (this s)))%nat then
    let oldId := currentElementId (this s) in
    let* o := flattenObjectId_call objectid in
    on_this (with_currentElementId (or_empty o));;
    let* s1 := get in
    let* le := document_querySelectorAll (js "[id$=" ++ prefix (this s1) ++ js "]") in
    (if (length le =? 0)%nat
     then on_this (with_currentElementId oldId)
     else ret tt);;
    ret (Some (length le))
  else ret None.

(** The loop [for (i; this.find(cI + i); i++);] of [calculateObjectID],
    started at [i]; it returns the value of [i] at which it stops. *)
Fixpoint first_unused (fuel : nat) (cI : jsstring) (i : nat) : M State nat :=
  match fuel with
  | O => fun _ => OutOfFuel
  | S fuel' =>
      let* r := find (Some (cI ++ dec i)) in
      if truthy r then first_unused fuel' cI (S i) else ret i
  end.

(** [ComponentBlock.prototype.calculateObjectID] *)
Definition calculateObjectID (fuel : nat) : M State unit :=
  let* s := get in
  let cI := or_empty (currentElementId (this s)) in
  let* taken :=
    (if nonempty cI
     then let* r := find (Some cI) in ret (truthy r)
     else ret true) in
  if taken
  then let* i := first_unused fuel cI 0 in
       on_this (with_currentElementId (cI ++ dec i))
  else ret tt.

(** [ComponentBlock.prototype.initRootElements], with the counter [j]. *)
Fixpoint initRootElements_from (p : jsstring) (j : nat) (frag : list Node) : list Node :=
  match frag with
  | [] => []
  | e :: rest =>
      if (depth e =? 0)%nat && is_element e && negb (nonempty (node_id e))
      then set_node_id (dec j ++ p) e :: initRootElements_from p (S j) rest
      else e :: initRootElements_from p j rest
  end.

Definition initRootElements (frag : list Node) : M State (list Node) :=
  let* s := get in
  ret (initRootElements_from (prefix (this s)) 0 frag).

(** [frag.querySelector('#' + e).id = v]: the first selected node gets the
    id; no node selected is a [TypeError]. *)
Definition rename_first (sel v : jsstring) (frag : list Node) : M State (list Node) :=
  match querySelectorAll sel frag with
  | None => throw SyntaxError
  | Some [] => throw TypeError
  | Some (n :: _) =>
      ret (map (fun m => if (ref m =? ref n)%nat then set_node_id v m else m) frag)
  end.

(** [ComponentBlock.prototype.initVariables] *)
Fixpoint initVariables_each (p : jsstring) (vs : list jsstring) (frag : list Node)
    : M State (list Node) :=
  match vs with
  | [] => ret frag
  | e :: rest =>
      let* frag' := rename_first (js "#" ++ e) (e ++ p) frag in
      initVariables_each p rest frag'
  end.

Definition initVariables (frag : list Node) : M State (list Node) :=
  let* s := get in
  initVariables_each (prefix (this s)) (variables (this s)) frag.

(** [this.templateCode.cloneNode(true)] *)
Definition cloneNode : M State (list Node) :=
  let* s := get in
  let df := clone_from (fresh (document s)) (templateCode (this s)) in
  on_document (fun d => {| tree := tree d; fresh := fresh d + length df |});;
  ret df.

(** [ComponentBlock.prototype.appendTo] *)
Definition appendTo (fuel : nat) (node : option Node) (objectid : option jsstring)
    : M State unit :=
  let* s := get in
  match node with
  | Some n =>
      if bTemplate (this s) && (nodeType n =? ELEMENT_NODE) then
        let* df := cloneNode in
        let* o := flattenObjectId_call objectid in
        on_this (with_currentElementId (or_empty o));;
        calculateObjectID fuel;;
        let* df1 := initRootElements df in
        let* df2 := initVariables df1 in
        on_document (fun d => {| tree := appendChild (ref n) df2 (tree d);
                                 fresh := fresh d |});;
        on_this (with__targetElement (Some (ref n)))
      else ret tt
  | None => ret tt
  end.

(** [ComponentBlock.prototype.attach] *)
Definition attach (fuel : nat) (objectid : option jsstring) : M State unit :=
  let* s := get in
  if bTemplate (this s)
  then appendTo fuel (getElementById (targetid (this s)) (document s)) objectid
  else ret tt.

(** The property [id]: getter and setter.  Reading and assigning [b.id]
    run them on a regular block. *)
Definition id (b : ComponentBlock) : jsstring := currentElementId b.

Definition set_id (fuel : nat) (value : option jsstring) : M State unit :=
  if truthy_id value
  then let* r := find value in
       if truthy r then ret tt else attach fuel value
  else on_this (with_currentElementId []).

End Engine.

End Block.

(** ** The target a caller assigned *)

Module Target.

Import Block.

(** The state after the setter of [target] stored the node identity [r]. *)
Definition assigned (r : option nat) (s : State) : State :=
  {| this := with_targetElement r (this s); document := document s |}.

(** The same outcome, in the state changed by [f]. *)
Definition carried {A} (f : State -> State) (o : outcome State A) : outcome State A :=
  match o with
  | Ok a s => Ok a (f s)
  | Throw e s => Throw e (f s)
  | OutOfFuel => OutOfFuel
  end.

(** [m] does not look at the target: it does the same whatever the target
    is, and leaves the target as it finds it. *)
Definition blind {A} (m : M State A) : Prop :=
  forall r s, m (assigned r s) = carried (assigned r) (m s).

End Target.

(** ** ComponentVar: the class helpers *)

Module Var.

Import Block.
Local Open Scope js_scope.

(** The property [target] of a handle:
    [document.getElementById(this.id + this.block.prefix())]. *)
Definition target (v : ComponentVar) : M State (option Node) :=
  let* s := get in
  ret (getElementById (var_id v ++ prefix (this s)) (document s)).

(** [classname.split(' ')] *)
Fixpoint split_space (s : jsstring) : list jsstring :=
  match s with
  | [] => [[]]
  | c :: t =>
      if c =? 32 then [] :: split_space t
      else match split_space t with
           | w :: ws => (c :: w) :: ws
           | [] => [[c]]
           end
  end.

(** The list [clst] of the class helpers for a class name that is a string
    or [undefined]: for [undefined] the variable stays [undefined] and the
    [for ... in] loop visits nothing. *)
Definition class_names (classname : option jsstring) : list jsstring :=
  match classname with
  | Some s => split_space s
  | None => []
  end.

(** [t.classList.contains(c)] *)
Definition contains (n : Node) (c : jsstring) : bool :=
  bool_decide (c ∈ classList n).

(** The loop of [hasClass] over [clst]; reading [classList] of [null] is a
    [TypeError]. *)
Fixpoint hasClass_loop (t : option Node) (clst : list jsstring) : M State bool :=
  match clst with
  | [] => ret true
  | c :: rest =>
      match t with
      | None => throw TypeError
      | Some n => if negb (contains n c) then ret false else hasClass_loop t rest
      end
  end.

(** [ComponentVar.prototype.hasClass] *)
Definition hasClass (v : ComponentVar) (classname : option jsstring) : M State bool :=
  let* t := target v in
  hasClass_loop t (class_names classname).

(** [ComponentVar.prototype.which]; [None] is the value [undefined] that
    [this.boolClass && ...] yields for a handle without [boolClass]. *)
Definition which (v : ComponentVar) : M State (option bool) :=
  match boolClass v with
  | None => ret None
  | Some bc =>
      let* t := hasClass v (bc_true bc) in
      if t then ret (Some true)
      else let* f := hasClass v (bc_false bc) in
           ret (Some (negb f))
  end.

(** The words of the specification for [which]: a configured class is
    present on an element when the handle has that class configured and
    every name of it is in the class list; it is absent otherwise.  [which]
    is said to return true when the true class is present or the false
    class is absent. *)
Definition class_present (n : Node) (cls : option jsstring) : Prop :=
  exists s, cls = Some s /\ forall c, c ∈ split_space s -> c ∈ classList n.

Definition which_as_specified (bc : BoolClass) (n : Node) : Prop :=
  class_present n (bc_true bc) \/ ~ class_present n (bc_false bc).

End Var.

(** ** ComponentVar: the helpers that change the class list *)

Module Classes.

Import Block.

(** What a class helper can raise: an error that [exn] has, or the
    [InvalidCharacterError] of [DOMTokenList].  The [SyntaxError] that
    [DOMTokenList] raises for an empty token is the [SyntaxError] of
    [exn]. *)
Inductive raised := Js (e : exn) | InvalidCharacterError.

(** How a helper ends: it returns, or it raises; either way with the state
    it reached.  The helpers have no loop that could run on. *)
Inductive completion := Normal (s : State) | Abrupt (e : raised) (s : State).

(** The argument [classname] of the helpers: a string, an array of strings,
    or any other value, [undefined] among them. *)
Inductive classname := Text (s : jsstring) | Array (l : list jsstring) | Other.

(** The variable [clst] after the two tests on [classname]; for a value
    that is neither a string nor an array it stays [undefined] and the
    [for ... in] loop visits nothing. *)
Definition clst (c : classname) : list jsstring :=
  match c with
  | Text s => Var.split_space s
  | Array l => l
  | Other => []
  end.

(** The white space that [DOMTokenList] refuses inside a token. *)
Definition is_ascii_whitespace (c : N) : bool := mem_code c [9; 10; 12; 13; 32].

(** The check that [add], [remove] and [toggle] of [DOMTokenList] make on a
    token before they do anything. *)
Definition validate (token : jsstring) : option raised :=
  if negb (nonempty token) then Some (Js SyntaxError)
  else if existsb is_ascii_whitespace token then Some InvalidCharacterError
  else None.

(** [classList.add], [classList.remove] and [classList.toggle] on the
    tokens of a class list, for a token that passed the check. *)
Definition add (token : jsstring) (l : list jsstring) : list jsstring :=
  if bool_decide (token ∈ l) then l else l ++ [token].

Definition remove (token : jsstring) (l : list jsstring) : list jsstring :=
  filter (fun c => c ≠ token) l.

Definition toggle (token : jsstring) (l : list jsstring) : list jsstring :=
  if bool_decide (token ∈ l) then remove token l else l ++ [token].

Definition set_classList (l : list jsstring) (n : Node) : Node :=
  {| nodeType := nodeType n; ref := ref n; depth := depth n;
     id_attr := id_attr n; classList := l;
     trueclass := trueclass n; falseclass := falseclass n |}.

(** The node with the identity [r] gets its class list changed by [f]; the
    change is seen wherever the document holds that node. *)
Definition update (r : nat) (f : list jsstring -> list jsstring) (s : State) : State :=
  {| this := this s;
     document :=
       {| tree := map (fun m => if (ref m =? r)%nat
                                then set_classList (f (classList m)) m else m)
                    (tree (document s));
          fresh := fresh (document s) |} |}.

(** The property [target] of a handle, as in [Var.target]. *)
Definition target (v : ComponentVar) (s : State) : option Node :=
  getElementById (var_id v ++ prefix (this s)) (document s).

(** The loop [for (var i in clst) { t.classList.op(clst[i]); }]; reading
    [classList] of [null] is a [TypeError]. *)
Fixpoint loop (op : jsstring -> list jsstring -> list jsstring)
    (t : option Node) (clst : list jsstring) (s : State) : completion :=
  match clst with
  | [] => Normal s
  | c :: rest =>
      match t with
      | None => Abrupt (Js TypeError) s
      | Some n =>
          match validate c with
          | Some e => Abrupt e s
          | None => loop op t rest (update (ref n) (op c) s)
          end
      end
  end.

(** [ComponentVar.prototype.setClass], also known as [addClass] *)
Definition setClass (v : ComponentVar) (c : classname) (s : State) : completion :=
  loop add (target v s) (clst c) s.

Definition addClass := setClass.

(** [ComponentVar.prototype.removeClass] *)
Definition removeClass (v : ComponentVar) (c : classname) (s : State) : completion :=
  loop remove (target v s) (clst c) s.

(** [ComponentVar.prototype.toggleClass] *)
Definition toggleClass (v : ComponentVar) (c : classname) (s : State) : completion :=
  loop toggle (target v s) (clst c) s.

(** [ComponentVar.prototype.clearClass]: [this.target.className = ''] *)
Definition clearClass (v : ComponentVar) (s : State) : completion :=
  match target v s with
  | None => Abrupt (Js TypeError) s
  | Some n => Normal (update (ref n) (fun _ => []) s)
  end.

(** A configured class as the argument of a helper. *)
Definition as_classname (cls : option jsstring) : classname :=
  match cls with
  | Some s => Text s
  | None => Other
  end.

(** [ComponentVar.prototype.choose], with the truth value of [bValue]. *)
Definition choose (v : ComponentVar) (bValue : bool) (s : State) : completion :=
  match boolClass v with
  | None => Normal s
  | Some bc =>
      let add := if bValue then bc_true bc else bc_false bc in
      let rem := if bValue then bc_false bc else bc_true bc in
      match (if has_length rem then removeClass v (as_classname rem) s
             else Normal s) with
      | Abrupt e s1 => Abrupt e s1
      | Normal s1 =>
          if has_length add then addClass v (as_classname add) s1 else Normal s1
      end
  end.

(** The state a helper ends in, whether it returned or raised. *)
Definition final (c : completion) : State :=
  match c with
  | Normal s => s
  | Abrupt _ s => s
  end.

(** What the class helpers leave alone: the block, and everything about the
    nodes of the document except their class lists. *)
Definition same_but_classes (s s' : State) : Prop :=
  this s' = this s
  /\ fresh (document s') = fresh (document s)
  /\ map (set_classList []) (tree (document s'))
     = map (set_classList []) (tree (document s)).

End Classes.

(** ** TemplateFactory *)

Module Factory.

Import Block.

(** A [template] or [component] tag found by the constructor: the value of
    [getAttribute('id')] ([None] is [null]), whether [nodeName] is
    [template], the parent node and the child nodes, which become the
    fragment of the block. *)
Record Tag := {
  tag_id : option jsstring;
  is_template : bool;
  parentNode : Node;
  content : list Node
}.

Record TemplateFactory := {
  templates : gmap jsstring ComponentBlock
}.


(** A block that the constructor made and that is not regular.
    [Shadowed b]: handles took the place of members; the members of the
    block are the fields of [b] where [vars b] has no handle of that name,
    and the handle where it has one.  [Reparented]: an element of the
    markup has the id [__proto__], and the assignment of its handle made
    the handle the prototype of the block. *)
Inductive odd :=
  | Shadowed (b : ComponentBlock)
  | Reparented.

(** Why the constructor of a block gives no regular block: it threw, or it
    returned an odd one. *)
Inductive outside :=
  | Threw (e : exn)
  | Odd (o : odd).

(** Why the constructor of the factory gives no factory of regular blocks:
    it threw, or it returned a factory that holds the entries [index], some
    of them odd blocks. *)
Inductive unbuilt :=
  | Raised (e : exn)
  | Irregular (index : gmap jsstring (odd + ComponentBlock)).

(** What [this.templates[name]] can be: [undefined], a block of the
    factory, or a member that every object inherits. *)
Inductive found :=
  | Undefined
  | Found (b : ComponentBlock)
  | Inherited (member : jsstring).

(** The names of the members of [Object.prototype]. *)
Definition Object_prototype : list jsstring :=
  [js "constructor"; js "hasOwnProperty"; js "isPrototypeOf";
   js "propertyIsEnumerable"; js "toLocaleString"; js "toString"; js "valueOf";
   js "__proto__"; js "__defineGetter__"; js "__defineSetter__";
   js "__lookupGetter__"; js "__lookupSetter__"].

Section Engine.

Variable querySelectorAll : jsstring -> list Node -> option (list Node).

(** The loop of the block constructor over [thevars], with [this.variables]
    and the handles stored so far.  Once a handle was stored under
    [variables], the next [this.variables.push] is a [TypeError]: a handle
    has no [push].  The assignment [this['__proto__'] = handle] stores no
    member. *)
Fixpoint add_variables (thevars : list Node)
    (acc : list jsstring * gmap jsstring ComponentVar)
    : exn + (list jsstring * gmap jsstring ComponentVar) :=
  match thevars with
  | [] => inr acc
  | n :: rest =>
      let varid := node_id n in
      if bool_decide (is_Some (acc.2 !! js "variables")) then inl TypeError
      else add_variables rest
             (acc.1 ++ [varid],
              if bool_decide (varid = js "__proto__") then acc.2
              else <[varid := new_ComponentVar n]> acc.2)
  end.

(** [new ComponentBlock(tag)].  Taking the tag out of the flow of the
    document is not followed here: the operations of a block run on the
    document as it is after all blocks were built.  A component has no
    [templateCode]; the field is then empty and never read.  For a template
    the assignments of [bTemplate] and [templateCode] come after the loop
    and replace a handle stored under these names.  The second copy of the
    source differs in one place: below a [tbody] it takes the id of the
    grandparent as [targetid]; this is the constructor of
    [TemplateFactory.js]. *)
Definition new_ComponentBlock (tag : Tag) : outside + ComponentBlock :=
  let tid := node_id (parentNode tag) in
  match querySelectorAll (js "[id]") (content tag) with
  | None => inl (Threw SyntaxError)
  | Some thevars =>
      match add_variables thevars ([], ∅) with
      | inl e => inl (Threw e)
      | inr vs =>
          let b :=
            {| prefixid := replace_class prefix_class [] (default [] (tag_id tag));
               bTemplate := is_template tag;
               currentElementId := [];
               targetElement :=
                 if nonempty tid && (nodeType (parentNode tag) =? ELEMENT_NODE)
                 then Some (ref (parentNode tag)) else None;
               _targetElement := None;
               targetid := tid;
               variables := vs.1;
               vars := if is_template tag
                       then delete (js "templateCode") (delete (js "bTemplate") vs.2)
                       else vs.2;
               templateCode := if is_template tag then content tag else [] |} in
          if bool_decide (js "__proto__" ∈ vs.1) then inl (Odd Reparented)
          else if bool_decide (regular b) then inr b
          else inl (Odd (Shadowed b))
      end
  end.

(** The entry of the index that the constructor of a block gives for a
    tag. *)
Definition entry_of (tag : Tag) (e : odd + ComponentBlock) : Prop :=
  match e with
  | inr b => new_ComponentBlock tag = inr b
  | inl o => new_ComponentBlock tag = inl (Odd o)
  end.

(** The loop of the factory constructor over [nodes]; [index] is
    [this.templates]. *)
Fixpoint index_tags (nodes : list Tag) (index : gmap jsstring (odd + ComponentBlock))
    : exn + gmap jsstring (odd + ComponentBlock) :=
  match nodes with
  | [] => inr index
  | tag :: rest =>
      match tag_id tag with
      | None => inl TypeError
      | Some id0 =>
          let id := replace_class index_class [] id0 in
          if nonempty id
          then match new_ComponentBlock tag with
               | inl (Threw e) => inl e
               | inl (Odd o) => index_tags rest (<[id := inl o]> index)
               | inr b => index_tags rest (<[id := inr b]> index)
               end
          else index_tags rest index
      end
  end.

(** The regular and the odd blocks of an index. *)
Definition regular_blocks (index : gmap jsstring (odd + ComponentBlock))
    : gmap jsstring ComponentBlock :=
  omap (fun e => match e with inr b => Some b | inl _ => None end) index.

Definition odd_blocks (index : gmap jsstring (odd + ComponentBlock))
    : gmap jsstring odd :=
  omap (fun e => match e with inl o => Some o | inr _ => None end) index.

(** [new TemplateFactory()] on the tags that
    [document.querySelectorAll('template, component')] returned. *)
Definition new_TemplateFactory (nodes : list Tag) : unbuilt + TemplateFactory :=
  match index_tags nodes ∅ with
  | inl e => inl (Raised e)
  | inr index =>
      if bool_decide (odd_blocks index = ∅)
      then inr {| templates := regular_blocks index |}
      else inl (Irregular index)
  end.

End Engine.

(** Whether the loop of the block constructor pushes a variable id after it
    stored a handle under [variables]: an element with the id [variables]
    is followed by another element with an id. *)
Fixpoint variables_then_more (ids : list jsstring) : bool :=
  match ids with
  | [] => false
  | v :: rest =>
      if bool_decide (v = js "variables")
      then match rest with [] => false | _ :: _ => true end
      else variables_then_more rest
  end.

(** The tags on which the factory constructor throws, when the engine
    selects for ['[id]'] the elements that have an id: a tag without an
    [id] attribute, and a tag with a key whose markup makes the loop above
    push after [variables]. *)
Definition throws_on (tag : Tag) : bool :=
  match tag_id tag with
  | None => true
  | Some id0 =>
      nonempty (replace_class index_class [] id0)
      && variables_then_more (declared_ids (content tag))
  end.

(** [TemplateFactory.prototype.getTemplate]: [this.templates[name]] on the
    plain object [this.templates], which has the blocks as its own members
    and inherits those of [Object.prototype]. *)
Definition getTemplate (f : TemplateFactory) (name : jsstring) : found :=
  match templates f !! name with
  | Some b => Found b
  | None =>
      if bool_decide (name ∈ Object_prototype) then Inherited name else Undefined
  end.




End Factory.

(** ** A host engine for the selectors the source builds *)

(** The source builds three kinds of selector text: ['[id]'],
    ['[id$=' + suffix + ']'] and ['#' + name].  The engine below understands
    these when the suffix or the name is a CSS identifier written without
    escapes, and rejects every other text.  The operations of a block are
    stated for any engine; this one serves where a concrete host is run. *)

Module Host.

Definition is_letter (c : N) : bool :=
  ((65 <=? c) && (c <=? 90)) || ((97 <=? c) && (c <=? 122)).

Definition name_start (c : N) : bool :=
  is_letter c || (c =? 95) || (128 <=? c).

Definition name_char (c : N) : bool :=
  name_start c || is_digit c || (c =? 45).

Definition is_identifier (v : jsstring) : bool :=
  match v with
  | [] => false
  | c :: t =>
      if c =? 45
      then match t with
           | [] => false
           | c2 :: t2 => (name_start c2 || (c2 =? 45)) && forallb name_char t2
           end
      else name_start c && forallb name_char t
  end.

Fixpoint strip_prefix (p s : jsstring) : option jsstring :=
  match p, s with
  | [], _ => Some s
  | a :: p', b :: s' => if a =? b then strip_prefix p' s' else None
  | _ :: _, [] => None
  end.

Definition strip_suffix (p s : jsstring) : option jsstring :=
  match strip_prefix (rev p) (rev s) with
  | Some r => Some (rev r)
  | None => None
  end.

Definition ends_with (p s : jsstring) : bool :=
  bool_decide (p `suffix_of` s).

Inductive selector :=
  | HasId
  | IdEndsWith (v : jsstring)
  | IdIs (v : jsstring).

Definition parse (sel : jsstring) : option selector :=
  if bool_decide (sel = js "[id]") then Some HasId
  else
    match strip_prefix (js "[id$=") sel with
    | Some r =>
        match strip_suffix (js "]") r with
        | Some v => if is_identifier v then Some (IdEndsWith v) else None
        | None => None
        end
    | None =>
        match strip_prefix (js "#") sel with
        | Some v => if is_identifier v then Some (IdIs v) else None
        | None => None
        end
    end.

Definition selects (q : selector) (n : Node) : bool :=
  is_element n &&
  match q, id_attr n with
  | HasId, Some _ => true
  | IdEndsWith v, Some i => ends_with v i
  | IdIs v, Some i => bool_decide (i = v)
  | _, None => false
  end.

Definition querySelectorAll (sel : jsstring) (t : list Node) : option (list Node) :=
  match parse sel with
  | Some q => Some (filter (fun n => selects q n = true) t)
  | None => None
  end.

End Host.

(** ** Sample markup *)

Module Sample.

Import Block Factory.

Definition element (r k : nat) (i : option jsstring) (cls : list jsstring) : Node :=
  {| nodeType := ELEMENT_NODE; ref := r; depth := k; id_attr := i;
     classList := cls; trueclass := None; falseclass := None |}.

Definition text (r k : nat) : Node :=
  {| nodeType := 3; ref := r; depth := k; id_attr := None;
     classList := []; trueclass := None; falseclass := None |}.

(** The container [<div id="tbl">] and a second element [<div id="side">]
    of the live document. *)
Definition tbl : Node := element 0 0 (Some (js "tbl")) [].
Definition side : Node := element 1 0 (Some (js "side")) [].

Definition page : Document := {| tree := [tbl; side]; fresh := 10 |}.

(** [<template id="row"><div>hi</div></template>] inside [tbl]: no element
    of the markup has an id. *)
Definition plain_tag : Tag :=
  {| tag_id := Some (js "row"); is_template := true; parentNode := tbl;
     content := [element 2 0 None []; text 3 1] |}.

(** [<template id="row"><div id="x">{}</div></template>] inside [tbl]. *)
Definition row_tag : Tag :=
  {| tag_id := Some (js "row"); is_template := true; parentNode := tbl;
     content := [element 4 0 (Some (js "x")) []; text 5 1] |}.

(** [<component id="c1"><span id="y"></span></component>] as a child of the
    [body], which has no id. *)
Definition body : Node := element 9 0 None [].

Definition c1_tag : Tag :=
  {| tag_id := Some (js "c1"); is_template := false; parentNode := body;
     content := [element 6 0 (Some (js "y")) []] |}.

(** [<component id="flags">] inside [<div id="box">], with the children
    [<span id="f" data-falseclass="off" class="off">] and
    [<span id="t" data-trueclass="on">]. *)
Definition box : Node := element 19 0 (Some (js "box")) [].

Definition span_f : Node :=
  {| nodeType := ELEMENT_NODE; ref := 20; depth := 0; id_attr := Some (js "f");
     classList := [js "off"]; trueclass := None; falseclass := Some (js "off") |}.

Definition span_t : Node :=
  {| nodeType := ELEMENT_NODE; ref := 21; depth := 0; id_attr := Some (js "t");
     classList := []; trueclass := Some (js "on"); falseclass := None |}.

Definition flags_tag : Tag :=
  {| tag_id := Some (js "flags"); is_template := false; parentNode := box;
     content := [span_f; span_t] |}.

(** Two templates with underscores in their ids, both inside [tbl]. *)
Definition a_b_tag : Tag :=
  {| tag_id := Some (js "a_b"); is_template := true; parentNode := tbl;
     content := [element 7 0 (Some (js "u")) []] |}.
Definition c_d_tag : Tag :=
  {| tag_id := Some (js "c_d"); is_template := true; parentNode := tbl;
     content := [element 8 0 (Some (js "w")) []] |}.

Definition block_of (t : Tag) : ComponentBlock :=
  match new_ComponentBlock Host.querySelectorAll t with
  | inr b => b
  | inl _ =>
      {| prefixid := []; bTemplate := false; currentElementId := [];
         targetElement := None; _targetElement := None; targetid := [];
         variables := []; vars := ∅; templateCode := [] |}
  end.

Definition plain : ComponentBlock := block_of plain_tag.
Definition row : ComponentBlock := block_of row_tag.
Definition c1 : ComponentBlock := block_of c1_tag.
Definition flags : ComponentBlock := block_of flags_tag.

(** The factory built from the two templates with underscores. *)
Definition underscores : TemplateFactory :=
  match new_TemplateFactory Host.querySelectorAll [a_b_tag; c_d_tag] with
  | inr f => f
  | inl _ => {| templates := ∅ |}
  end.

Definition start (b : ComponentBlock) : State :=
  {| this := b; document := page |}.

(** The state after [row.appendTo(side, 'r1')] on the sample page. *)
Definition row_in_side : State :=
  match appendTo Host.querySelectorAll 2 (Some side) (Some (js "r1")) (start row) with
  | Ok _ s => s
  | _ => start row
  end.


(** The states after [row.attach('')] and after a second [row.attach('')]. *)
Definition row_once : State :=
  match attach Host.querySelectorAll 3 (Some []) (start row) with
  | Ok _ s => s
  | _ => start row
  end.

Definition row_again : State :=
  match attach Host.querySelectorAll 3 (Some []) row_once with
  | Ok _ s => s
  | _ => row_once
  end.

(** The state after [row.id = 'r1'] and then [row.id = 'r2']: two instances
    of [row] are live and the second one is current. *)
Definition row_twice : State :=
  match bind (set_id Host.querySelectorAll 2 (Some (js "r1")))
             (fun _ => set_id Host.querySelectorAll 2 (Some (js "r2")))
             (start row) with
  | Ok _ s => s
  | _ => start row
  end.

(** The ids of the elements of the live document, in tree order. *)
Definition live_ids (s : State) : list jsstring :=
  map node_id (List.filter is_element (tree (document s))).


(** The component [flags] after its children took its place in the
    document, and its two handles: the markup of [only_false] sets only
    [data-falseclass], the markup of [only_true] sets only
    [data-trueclass]. *)
Definition flags_page : State :=
  {| this := flags;
     document := {| tree := [box; set_depth 1 span_f; set_depth 1 span_t];
                    fresh := 30 |} |}.

Definition handle (b : ComponentBlock) (v : jsstring) : ComponentVar :=
  default {| var_id := v; boolClass := None |} (vars b !! v).

Definition only_false : ComponentVar := handle flags (js "f").
Definition only_true : ComponentVar := handle flags (js "t").



(** [<template id="a_b"><div id="name"></div></template>] inside [tbl]: an
    element of the markup has the id [name]. *)
Definition named_tag : Tag :=
  {| tag_id := Some (js "a_b"); is_template := true; parentNode := tbl;
     content := [element 11 0 (Some (js "name")) []] |}.

(** [<template id="row"><div id="variables"></div><div id="x"></div></template>]
    inside [tbl]: an element with the id [variables] is followed by another
    element with an id. *)
Definition variables_tag : Tag :=
  {| tag_id := Some (js "row"); is_template := true; parentNode := tbl;
     content := [element 12 0 (Some (js "variables")) [];
                 element 13 0 (Some (js "x")) []] |}.

(** The page of [flags] after [only_true.choose(true)]. *)
Definition flags_on : State :=
  match Classes.choose only_true true flags_page with
  | Classes.Normal s => s
  | Classes.Abrupt _ _ => flags_page
  end.


End Sample.

(** * Properties *)

(** ** Strings and the regular-expression replacements *)

Lemma or_empty_id (s : jsstring) : or_empty s = s.
Proof. by destruct s. Qed.

Lemma replace_runs_filter (cls : N -> bool) (in_run : bool) (s : jsstring) :
  replace_runs cls [] in_run s = filter (fun c => cls c = false) s.
Proof.
  revert in_run; induction s as [|c t IH]; intros in_run; [done|].
  cbn [replace_runs]. destruct (cls c) eqn:Hc.
  - rewrite filter_cons_False by congruence.
    rewrite IH. by destruct in_run.
  - rewrite filter_cons_True by done. by rewrite IH.
Qed.

Lemma replace_class_filter (cls : N -> bool) (s : jsstring) :
  replace_class cls [] s = filter (fun c => cls c = false) s.
Proof. apply replace_runs_filter. Qed.

Lemma filter_class_idemp (cls : N -> bool) (s : jsstring) :
  filter (fun c => cls c = false) (filter (fun c => cls c = false) s)
  = filter (fun c => cls c = false) s.
Proof.
  induction s as [|c t IH]; [done|].
  destruct (cls c) eqn:Hc.
  - by rewrite filter_cons_False by congruence.
  - rewrite filter_cons_True by done.
    rewrite filter_cons_True by done. by rewrite IH.
Qed.

Lemma mem_code_spec (c : N) (l : list N) : mem_code c l = true <-> c ∈ l.
Proof.
  unfold mem_code. rewrite existsb_exists. split.
  - intros (x & Hx & Heq). apply N.eqb_eq in Heq. subst.
    by apply list_elem_of_In.
  - intros Hc. exists c. split; [by apply list_elem_of_In | apply N.eqb_refl].
Qed.

Lemma js_String (c : ascii) (s : string) : js (String c s) = N_of_ascii c :: js s.
Proof. done. Qed.

Lemma js_inj (s1 s2 : string) : js s1 = js s2 -> s1 = s2.
Proof.
  revert s2; induction s1 as [|c1 s1 IH]; intros [|c2 s2]; try done.
  rewrite !js_String. intros [= Hc Hs].
  f_equal; [|by apply IH].
  by rewrite <- (ascii_N_embedding c1), <- (ascii_N_embedding c2), Hc.
Qed.

Lemma dec_inj (i j : nat) : dec i = dec j -> i = j.
Proof. intros H. apply js_inj in H. by apply (inj pretty). Qed.

Lemma pretty_N_char_digit (x : N) : is_digit (N_of_ascii (pretty_N_char x)) = true.
Proof. unfold pretty_N_char. by repeat case_match. Qed.

Lemma pretty_N_go_digits (x : N) (s : string) :
  Forall (fun c => is_digit c = true) (js s) ->
  Forall (fun c => is_digit c = true) (js (pretty_N_go x s)).
Proof.
  revert s. induction (N.lt_wf_0 x) as [x _ IH]; intros s Hs.
  destruct (decide (0 < x)) as [Hx|Hx].
  - rewrite pretty_N_go_step by done. apply IH.
    + by apply N.div_lt.
    + rewrite js_String. constructor; [apply pretty_N_char_digit | done].
  - assert (x = 0) as -> by lia. by rewrite pretty_N_go_0.
Qed.

Lemma dec_digits (i : nat) : Forall (fun c => is_digit c = true) (dec i).
Proof.
  unfold dec, pretty, pretty_nat, pretty, pretty_N.
  destruct (decide (N.of_nat i = 0)).
  - by repeat constructor.
  - apply pretty_N_go_digits. constructor.
Qed.

Lemma forbidden_digit (c : N) : is_digit c = true -> forbidden c = false.
Proof.
  unfold is_digit. intros [H1 H2]%andb_true_iff.
  apply N.leb_le in H1, H2.
  assert (Hc : c = 48 \/ c = 49 \/ c = 50 \/ c = 51 \/ c = 52 \/ c = 53
               \/ c = 54 \/ c = 55 \/ c = 56 \/ c = 57) by lia.
  repeat (destruct Hc as [->|Hc]; [done|]). by subst.
Qed.

Lemma flattenObjectId_app (s t : jsstring) :
  flattenObjectId (s ++ t) = flattenObjectId s ++ flattenObjectId t.
Proof. unfold flattenObjectId. rewrite !replace_class_filter. apply filter_app. Qed.

Lemma flattenObjectId_digits (s : jsstring) :
  Forall (fun c => is_digit c = true) s -> flattenObjectId s = s.
Proof.
  unfold flattenObjectId. rewrite replace_class_filter.
  induction 1 as [|c t Hc _ IH]; [done|].
  rewrite filter_cons_True by by apply forbidden_digit. by rewrite IH.
Qed.

Lemma leading_digits_app (ds s : jsstring) :
  Forall (fun c => is_digit c = true) ds ->
  leading_digits (ds ++ s) = (length ds + leading_digits s)%nat.
Proof.
  induction 1 as [|c t Hc _ IH]; [done|].
  cbn. by rewrite Hc, IH.
Qed.

Lemma leading_digits_stop (a b : jsstring) (c : N) :
  is_digit c = false ->
  leading_digits (a ++ c :: b) = leading_digits (a ++ [c]).
Proof.
  intros Hc. induction a as [|x a IH]; cbn.
  - by rewrite Hc.
  - destruct (is_digit x); [by rewrite IH | done].
Qed.

(** A string ends with at most one string of the shape [q ++ d], where [q]
    starts with a character that is not a digit and [d] is made of
    digits. *)
Lemma digit_suffix_unique (c : N) (q d1 d2 x : jsstring) :
  is_digit c = false ->
  Forall (fun c => is_digit c = true) d1 ->
  Forall (fun c => is_digit c = true) d2 ->
  (c :: q) ++ d1 `suffix_of` x ->
  (c :: q) ++ d2 `suffix_of` x ->
  d1 = d2.
Proof.
  intros Hc Hd1 Hd2 [u1 H1] [u2 H2].
  assert (Hlen : forall u d, Forall (fun c => is_digit c = true) d ->
            x = u ++ (c :: q) ++ d ->
            trailing_digits x = (length d + leading_digits (rev q ++ [c]))%nat).
  { intros u d Hd ->. unfold trailing_digits.
    rewrite !rev_app_distr. cbn [rev]. rewrite <- !app_assoc.
    rewrite leading_digits_app by by apply Forall_rev.
    rewrite length_rev. cbn [app]. by rewrite leading_digits_stop. }
  pose proof (Hlen u1 d1 Hd1 H1) as L1.
  pose proof (Hlen u2 d2 Hd2 H2) as L2.
  assert (length d1 = length d2) as Hl by lia.
  rewrite H1 in H2. rewrite !app_assoc in H2.
  by apply app_inj_2 in H2 as [_ ?].
Qed.

Lemma flattenObjectId_idemp (s : jsstring) :
  flattenObjectId (flattenObjectId s) = flattenObjectId s.
Proof.
  unfold flattenObjectId. rewrite !replace_class_filter. apply filter_class_idemp.
Qed.

(** C6: the identifier sanitizer [flattenObjectId] never fails on a string,
    is idempotent, returns its argument without the characters of the fixed
    denylist (the forbidden punctuation and the white space of [\s]) and
    with every other character kept in place, and maps the empty string to
    the empty string. *)
Theorem flattenObjectId_sanitizer :
  (forall (s : jsstring) (st : Block.State),
      Block.flattenObjectId_call (Some s) st = Ok (flattenObjectId s) st)
  /\ (forall s : jsstring, flattenObjectId (flattenObjectId s) = flattenObjectId s)
  /\ (forall s : jsstring,
         flattenObjectId s = filter (fun c => forbidden c = false) s)
  /\ (forall c : N,
         forbidden c = true <-> c ∈ forbidden_punctuation \/ is_js_space c = true)
  /\ flattenObjectId [] = [].
Proof.
  split; [done|]. split; [|split; [|split; [|done]]].
  - apply flattenObjectId_idemp.
  - intros s. apply replace_class_filter.
  - intros c. unfold forbidden. rewrite orb_true_iff, mem_code_spec. tauto.
Qed.

(** ** Operations of a block, for any selector engine *)

Ltac unfold_monad :=
  cbv beta iota zeta delta
    [bind ret get put modify throw Block.on_this Block.on_document
     Block.flattenObjectId_call Block.document_querySelectorAll] in *.

Ltac unfold_monad_in H :=
  cbv beta iota zeta delta
    [bind ret get put modify throw Block.on_this Block.on_document
     Block.flattenObjectId_call Block.document_querySelectorAll] in H.

Section BlockProperties.

Import Block.

Variable querySelectorAll : jsstring -> list Node -> option (list Node).

Abbreviation find := (Block.find querySelectorAll).
Abbreviation appendTo := (Block.appendTo querySelectorAll).
Abbreviation attach := (Block.attach querySelectorAll).
Abbreviation calculateObjectID := (Block.calculateObjectID querySelectorAll).
Abbreviation first_unused := (Block.first_unused querySelectorAll).

Lemma probing_probing (o : jsstring) (s : State) :
  probing o (probing o s) = probing o s.
Proof. done. Qed.

(** What [find] does once its guard let it in, in one equation. *)
Lemma find_unfold (o : jsstring) (s : State) :
  truthy_id (Some o) = true ->
  variables (this s) ≠ [] ->
  find (Some o) s =
    match querySelectorAll (js "[id$=" ++ prefix (this (probing o s)) ++ js "]")
            (tree (document s)) with
    | None => Throw SyntaxError (probing o s)
    | Some le =>
        if (length le =? 0)%nat
        then Ok (Some (length le)) s
        else Ok (Some (length le)) (probing o s)
    end.
Proof.
  intros Ho Hv. unfold Block.find, probing. unfold_monad.
  rewrite Ho. destruct (variables (this s)) as [|v vs] eqn:Hvs; [done|].
  cbn [length Nat.ltb Nat.leb andb]. rewrite or_empty_id.
  cbn [this document].
  destruct (querySelectorAll _ _) as [le|]; [|done].
  destruct (length le =? 0)%nat; [|done].
  by destruct s as [[] ?].
Qed.

(** [find] has no loop. *)
Lemma find_total (o : option jsstring) (s : State) :
  find o s ≠ OutOfFuel.
Proof.
  destruct (decide (variables (this s) = [])) as [Hv|Hv].
  { unfold Block.find. unfold_monad. rewrite Hv. by rewrite andb_false_r. }
  destruct (truthy_id o) eqn:Ho.
  - destruct o as [str|]; [|done]. rewrite find_unfold by done.
    destruct (querySelectorAll _ _); [|done]. by destruct (_ =? _)%nat.
  - unfold Block.find. unfold_monad. by rewrite Ho.
Qed.

Lemma find_guard_closed (o : option jsstring) (s : State) :
  variables (this s) = [] \/ truthy_id o = false ->
  find o s = Ok None s.
Proof.
  intros H. unfold Block.find. unfold_monad.
  destruct H as [H|H]; rewrite H; [|done].
  by rewrite andb_false_r.
Qed.


(** The two ways in which [find] returns. *)
Lemma find_cases (o : option jsstring) (r : option nat) (s s' : State) :
  find o s = Ok r s' ->
  (truthy r = false /\ s' = s)
  \/ (truthy r = true
      /\ exists str, o = Some str /\ s' = probing str s /\ find o s' = Ok r s').
Proof.
  intros Hf.
  destruct (decide (variables (this s) = [])) as [Hv|Hv].
  { rewrite find_guard_closed in Hf by auto. left. by inversion Hf; subst. }
  destruct (truthy_id o) eqn:Ho.
  2:{ rewrite find_guard_closed in Hf by auto. left. by inversion Hf; subst. }
  destruct o as [str|]; [|done].
  rewrite find_unfold in Hf by done.
  destruct (querySelectorAll _ _) as [le|] eqn:Hq; [|done].
  destruct (length le =? 0)%nat eqn:Hl.
  - inversion Hf; subst. left. split; [|done].
    apply Nat.eqb_eq in Hl. by rewrite Hl.
  - inversion Hf; subst. right. split.
    + apply Nat.eqb_neq in Hl. by destruct (length le).
    + exists str. split; [done|]. split; [done|].
      rewrite find_unfold by done.
      rewrite probing_probing. change (document (probing str s)) with (document s).
      by rewrite Hq, Hl.
Qed.

(** C2: a call of [find] that reports failure leaves [currentElementId] (and
    the whole state) as it was; a call that reports success leaves
    [currentElementId] set to the sanitized object id; and after a call that
    reported success, the same call again reports the same success and
    changes nothing. *)
Theorem find_read_stability (o : option jsstring) (r : option nat) (s s' : State) :
  find o s = Ok r s' ->
  (truthy r = false -> s' = s)
  /\ (truthy r = true ->
      exists str, o = Some str
        /\ currentElementId (this s') = flattenObjectId str
        /\ find o s' = Ok r s').
Proof.
  intros Hf.
  destruct (find_cases o r s s' Hf) as [[Hr ->]|(Hr & str & -> & -> & Hagain)].
  - split; [done|]. intros Ht. by rewrite Hr in Ht.
  - split; [intros Hn; by rewrite Hr in Hn|].
    intros _. by exists str.
Qed.


(** Without an object id, [appendTo] on a template fails inside
    [flattenObjectId], before the block or the tree of the document
    changes. *)
Lemma appendTo_without_id (fuel : nat) (n : Node) (s : State) :
  bTemplate (this s) = true ->
  nodeType n = ELEMENT_NODE ->
  exists s',
    appendTo fuel (Some n) None s = Throw TypeError s'
    /\ this s' = this s
    /\ tree (document s') = tree (document s).
Proof.
  intros Hb Hn. eexists. unfold Block.appendTo, cloneNode. unfold_monad.
  rewrite Hb, Hn, N.eqb_refl. cbn [andb]. done.
Qed.

(** For a block without variables [find] never reports an instance, so
    [calculateObjectID] keeps a nonempty id and turns the empty id into
    ['0'], whatever the document holds. *)
Lemma calculateObjectID_no_variables (fuel : nat) (s : State) :
  variables (this s) = [] ->
  calculateObjectID (S fuel) s
  = Ok tt {| this := with_currentElementId
                       (if nonempty (currentElementId (this s))
                        then currentElementId (this s) else dec 0) (this s);
             document := document s |}.
Proof.
  intros Hv. unfold Block.calculateObjectID. unfold bind at 1. unfold get at 1.
  rewrite or_empty_id.
  destruct (nonempty (currentElementId (this s))) eqn:Hc.
  - unfold bind. rewrite find_guard_closed by auto. cbn.
    by destruct s as [[] ?].
  - unfold bind. cbn [Block.first_unused ret]. unfold bind.
    rewrite find_guard_closed by auto. cbn.
    by destruct (currentElementId (this s)).
Qed.

(** What [appendTo] does on a template without variables. *)
Lemma appendTo_no_variables (fuel : nat) (n : Node) (o : jsstring) (s : State) :
  bTemplate (this s) = true ->
  nodeType n = ELEMENT_NODE ->
  variables (this s) = [] ->
  let a := if nonempty (flattenObjectId o) then flattenObjectId o else dec 0 in
  let b := with_currentElementId a (this s) in
  let df := clone_from (fresh (document s)) (templateCode (this s)) in
  appendTo (S fuel) (Some n) (Some o) s
  = Ok tt {| this := with__targetElement (Some (ref n)) b;
             document :=
               {| tree := appendChild (ref n)
                            (initRootElements_from (prefix b) 0 df)
                            (tree (document s));
                  fresh := fresh (document s) + length df |} |}.
Proof.
  intros Hb Hn Hv a b df. unfold Block.appendTo. unfold bind at 1. unfold get at 1.
  rewrite Hb, Hn, N.eqb_refl. cbn [andb].
  unfold bind at 1. unfold cloneNode. unfold_monad.
  rewrite or_empty_id. rewrite calculateObjectID_no_variables by done.
  unfold initRootElements, initVariables. unfold_monad.
  cbn [this variables with_currentElementId]. rewrite Hv.
  cbn [Block.initVariables_each]. unfold_monad. done.
Qed.

End BlockProperties.

(** ** What the operations of a block leave alone *)

Section Frame.

Import Block.

Variable querySelectorAll : jsstring -> list Node -> option (list Node).

Section Relation.

Context (R : State -> State -> Prop) `{!PreOrder R}.

Lemma preserves_ret {A} (a : A) : preserves R (ret a).
Proof. intros s. cbn. reflexivity. Qed.

Lemma preserves_throw {A} (e : exn) : preserves R (throw (A := A) e).
Proof. intros s. cbn. reflexivity. Qed.

Lemma preserves_get : preserves R get.
Proof. intros s. cbn. reflexivity. Qed.

Lemma preserves_bind {A B} (m : M State A) (k : A -> M State B) :
  preserves R m -> (forall a, preserves R (k a)) -> preserves R (bind m k).
Proof.
  intros Hm Hk s. unfold bind. specialize (Hm s).
  destruct (m s) as [a s1|e s1|]; [|done..].
  specialize (Hk a s1). destruct (k a s1); [etrans; eauto..|done].
Qed.

End Relation.

#[local] Instance same_definition_preorder : PreOrder same_definition.
Proof.
  split; [done|]. intros x y z Hxy Hyz. unfold same_definition in *.
  destruct Hxy as (?&?&?&?&?&?&?), Hyz as (?&?&?&?&?&?&?).
  repeat split; congruence.
Qed.

Lemma on_this_same_definition (f : ComponentBlock -> ComponentBlock) :
  (forall b, f b = with_currentElementId (currentElementId (f b))
                     (with__targetElement (_targetElement (f b)) b)) ->
  preserves same_definition (on_this f).
Proof. intros Hf s. cbn. by rewrite Hf. Qed.

Lemma on_document_same_definition (f : Document -> Document) :
  preserves same_definition (on_document f).
Proof. by intros s. Qed.

Ltac frame_step :=
  first
    [ apply (preserves_ret same_definition)
    | apply (preserves_throw same_definition)
    | apply (preserves_get same_definition)
    | apply on_document_same_definition
    | apply on_this_same_definition; by intros []
    | apply (preserves_bind same_definition); [|intros ?] ].

Lemma find_same_definition (o : option jsstring) :
  preserves same_definition (find querySelectorAll o).
Proof.
  unfold find. frame_step; [frame_step|].
  destruct (_ && _); [|frame_step].
  frame_step; [destruct o; frame_step|].
  frame_step; [frame_step|].
  frame_step; [frame_step|].
  frame_step.
  { unfold document_querySelectorAll. frame_step; [frame_step|].
    destruct (querySelectorAll _ _); frame_step. }
  frame_step; [|frame_step].
  destruct (_ =? _)%nat; frame_step.
Qed.

Lemma first_unused_same_definition (fuel : nat) (cI : jsstring) (i : nat) :
  preserves same_definition (first_unused querySelectorAll fuel cI i).
Proof.
  revert i; induction fuel as [|fuel IH]; intros i; [by intros s|].
  cbn [first_unused]. frame_step; [apply find_same_definition|].
  destruct (truthy _); [apply IH | frame_step].
Qed.

Lemma calculateObjectID_same_definition (fuel : nat) :
  preserves same_definition (calculateObjectID querySelectorAll fuel).
Proof.
  unfold calculateObjectID. frame_step; [frame_step|].
  frame_step.
  { destruct (nonempty _); [|frame_step].
    frame_step; [apply find_same_definition | frame_step]. }
  destruct a0; [|frame_step].
  frame_step; [apply first_unused_same_definition | frame_step].
Qed.

Lemma initVariables_each_same_definition (p : jsstring) (vs : list jsstring)
    (frag : list Node) :
  preserves same_definition (initVariables_each querySelectorAll p vs frag).
Proof.
  revert frag; induction vs as [|e rest IH]; intros frag; [frame_step|].
  cbn [initVariables_each]. frame_step; [|apply IH].
  unfold rename_first. destruct (querySelectorAll _ _) as [[|n l]|]; frame_step.
Qed.

Lemma appendTo_same_definition (fuel : nat) (node : option Node)
    (o : option jsstring) :
  preserves same_definition (appendTo querySelectorAll fuel node o).
Proof.
  unfold appendTo. frame_step; [frame_step|].
  destruct node as [n|]; [|frame_step].
  destruct (_ && _); [|frame_step].
  frame_step.
  { unfold cloneNode. repeat frame_step. }
  frame_step; [destruct o; frame_step|].
  frame_step; [frame_step|].
  frame_step; [apply calculateObjectID_same_definition|].
  frame_step; [unfold initRootElements; repeat frame_step|].
  frame_step.
  { unfold initVariables. frame_step; [frame_step|].
    apply initVariables_each_same_definition. }
  repeat frame_step.
Qed.

(** C4 (the code differs): [appendTo] never changes what the [target]
    accessor returns.  After a call that returned, the accessor returns what
    it returned before the call, so it returns [node] only when it already
    did. *)
Theorem appendTo_keeps_target
    (fuel : nat) (node : option Node) (o : option jsstring) (s s' : State) :
  appendTo querySelectorAll fuel node o s = Ok tt s' ->
  target s' = Ok (targetElement (this s)) s'.
Proof.
  intros H. pose proof (appendTo_same_definition fuel node o s) as Hp.
  rewrite H in Hp. destruct Hp as [Hp _].
  unfold target, getTargetElement. unfold_monad. by rewrite Hp.
Qed.

End Frame.

(** ** The sample page *)

Section SampleRuns.

Import Block Sample.

Variable querySelectorAll : jsstring -> list Node -> option (list Node).

(** C4, at a concrete input: after [row.appendTo(side, 'r1')] the accessor
    [target] still returns the parent of the template tag. *)
Lemma appendTo_keeps_target_witness :
  target row_in_side
  = Ok (targetElement (this (start row))) row_in_side.
Proof.
  apply (appendTo_keeps_target Host.querySelectorAll 2 (Some side)
           (Some (js "r1")) (start row) row_in_side).
  vm_compute. reflexivity.
Defined.

(** The node went to the property [_targetElement], which no accessor
    reads. *)
Example appendTo_side_target :
  target row_in_side = Ok (Some (ref tbl)) row_in_side
  /\ _targetElement (this row_in_side) = Some (ref side)
  /\ ref side ≠ ref tbl
  /\ live_ids row_in_side = [js "tbl"; js "side"; js "x_row_r1"].
Proof. vm_compute. repeat split; done. Qed.

(** C1 (the code differs): the template [plain] has no variables, so [find]
    never sees its instances.  Instantiated with [''] and then with ['0'],
    two object ids that differ after sanitization, both instances get the
    root element id [0_row_0]. *)
Theorem plain_instances_share_ids (fuel : nat) :
  exists s1 s2,
    attach querySelectorAll (S fuel) (Some []) (start plain) = Ok tt s1
    /\ attach querySelectorAll (S fuel) (Some (js "0")) s1 = Ok tt s2
    /\ flattenObjectId [] ≠ flattenObjectId (js "0")
    /\ live_ids (start plain) = [js "tbl"; js "side"]
    /\ live_ids s1 = [js "tbl"; js "0_row_0"; js "side"]
    /\ live_ids s2 = [js "tbl"; js "0_row_0"; js "0_row_0"; js "side"].
Proof.
  eexists; eexists.
  split; [vm_compute; reflexivity|].
  split; [vm_compute; reflexivity|].
  vm_compute. repeat split; done.
Qed.

(** C3 (the code differs): without an object id the call fails with a
    [TypeError] before anything is inserted, and on the template [plain],
    which has no variables, the empty object id is turned into ['0'] the
    first time and into ['0'] again the second time. *)
Theorem auto_numbering_failures (fuel : nat) :
  (exists s', attach querySelectorAll fuel None (start row) = Throw TypeError s'
              /\ live_ids s' = live_ids (start row)
              /\ id (this s') = id (this (start row)))
  /\ (exists s1 s2,
        attach querySelectorAll (S fuel) (Some []) (start plain) = Ok tt s1
        /\ id (this s1) = js "0"
        /\ attach querySelectorAll (S fuel) (Some []) s1 = Ok tt s2
        /\ id (this s2) = js "0").
Proof.
  split.
  - eexists. split; [vm_compute; reflexivity|]. vm_compute. done.
  - eexists; eexists.
    split; [vm_compute; reflexivity|].
    split; [vm_compute; reflexivity|].
    split; [vm_compute; reflexivity|].
    vm_compute; reflexivity.
Qed.

(** On the template [row], which has the variable [x], the sibling path
    works: two instantiations with the empty object id get ['0'] and ['1'],
    and the scenario of the specification yields the element [x_row_r1]. *)
Example row_auto_numbering :
  exists s1 s2,
    attach Host.querySelectorAll 3 (Some []) (start row) = Ok tt s1
    /\ id (this s1) = js "0"
    /\ attach Host.querySelectorAll 3 (Some []) s1 = Ok tt s2
    /\ id (this s2) = js "1"
    /\ live_ids s2 = [js "tbl"; js "x_row_0"; js "x_row_1"; js "side"].
Proof.
  eexists; eexists.
  split; [vm_compute; reflexivity|].
  split; [vm_compute; reflexivity|].
  split; [vm_compute; reflexivity|].
  vm_compute. done.
Qed.

Example row_scenario :
  exists s1,
    set_id Host.querySelectorAll 3 (Some (js "r1")) (start row) = Ok tt s1
    /\ id (this s1) = js "r1"
    /\ live_ids s1 = [js "tbl"; js "x_row_r1"; js "side"]
    /\ set_id Host.querySelectorAll 3 (Some (js "r1")) s1 = Ok tt s1.
Proof.
  eexists.
  split; [vm_compute; reflexivity|].
  vm_compute. done.
Qed.

End SampleRuns.

(** ** ComponentVar: [hasClass] and [which] *)

Section VarProperties.

Import Block Var.

Lemma hasClass_loop_all (n : Node) (clst : list jsstring) (s : State) :
  hasClass_loop (Some n) clst s
  = Ok (bool_decide (Forall (fun c => c ∈ classList n) clst)) s.
Proof.
  induction clst as [|c rest IH]; cbn [hasClass_loop].
  - by rewrite bool_decide_eq_true_2.
  - unfold contains. destruct (bool_decide (c ∈ classList n)) eqn:Hc; cbn [negb].
    + rewrite IH. apply bool_decide_eq_true in Hc. f_equal.
      apply bool_decide_ext. rewrite Forall_cons. tauto.
    + apply bool_decide_eq_false in Hc. unfold ret. f_equal.
      symmetry. apply bool_decide_eq_false. rewrite Forall_cons. tauto.
Qed.

Lemma hasClass_resolved (v : ComponentVar) (cls : option jsstring)
    (n : Node) (s : State) :
  target v s = Ok (Some n) s ->
  hasClass v cls s
  = Ok (bool_decide (Forall (fun c => c ∈ classList n) (class_names cls))) s.
Proof.
  intros Ht. unfold hasClass, bind. rewrite Ht. apply hasClass_loop_all.
Qed.

(** What [which] returns: for a handle with a [boolClass] whose element
    resolves, [which] returns a boolean, and it is [true] exactly when every
    name of the true class is on the element (which holds when no true class
    is configured) or some name of the false class is missing from it (which
    fails when no false class is configured).  When both classes are
    configured this is the specified reading.  For a handle without
    [boolClass], [which] returns [undefined] and cannot fail. *)
Theorem which_result (v : ComponentVar) (s : State) :
  (forall bc n,
      boolClass v = Some bc ->
      target v s = Ok (Some n) s ->
      exists b : bool,
        which v s = Ok (Some b) s
        /\ (b = true <->
            (forall c, c ∈ class_names (bc_true bc) -> c ∈ classList n)
            \/ ~ (forall c, c ∈ class_names (bc_false bc) -> c ∈ classList n))
        /\ (is_Some (bc_true bc) -> is_Some (bc_false bc) ->
            (b = true <-> which_as_specified bc n)))
  /\ (boolClass v = None -> which v s = Ok None s).
Proof.
  split.
  - intros bc n Hbc Ht. unfold which. rewrite Hbc.
    set (T := Forall (fun c => c ∈ classList n) (class_names (bc_true bc))).
    set (F := Forall (fun c => c ∈ classList n) (class_names (bc_false bc))).
    assert (HT : T <-> forall c, c ∈ class_names (bc_true bc) -> c ∈ classList n)
      by apply Forall_forall.
    assert (HF : F <-> forall c, c ∈ class_names (bc_false bc) -> c ∈ classList n)
      by apply Forall_forall.
    assert (Hb : exists b : bool,
      bind (hasClass v (bc_true bc))
        (fun t => if t then ret (Some true)
                  else bind (hasClass v (bc_false bc))
                         (fun f => ret (Some (negb f)))) s = Ok (Some b) s
      /\ (b = true <-> T \/ ~ F)).
    { unfold bind at 1. rewrite (hasClass_resolved _ _ n) by done. fold T.
      destruct (bool_decide T) eqn:HdT.
      - exists true. apply bool_decide_eq_true in HdT. split; [done|tauto].
      - apply bool_decide_eq_false in HdT.
        unfold bind. rewrite (hasClass_resolved _ _ n) by done. fold F.
        destruct (bool_decide F) eqn:HdF.
        + exists false. apply bool_decide_eq_true in HdF.
          split; [done|]. split; [done|tauto].
        + exists true. apply bool_decide_eq_false in HdF.
          split; [done|tauto]. }
    destruct Hb as (b & Hw & Hiff). exists b. split; [exact Hw|].
    split; [rewrite <- HT, <- HF; exact Hiff|].
    intros [t Htc] [f Hfc]. rewrite Hiff, HT, HF.
    unfold which_as_specified, class_present. rewrite Htc, Hfc. cbn [class_names].
    split.
    + intros [H|H]; [left; eauto|].
      right. intros (x & Hx & Hall). inversion Hx; subst. auto.
    + intros [(x & Hx & Hall)|H].
      * inversion Hx; subst. by left.
      * right. intros Hall. apply H. eauto.
  - intros Hbc. unfold which. by rewrite Hbc.
Qed.

(** The result of [which] for the handle [only_true] on the sample page. *)
Lemma which_result_witness :
  exists b : bool,
    which Sample.only_true Sample.flags_page = Ok (Some b) Sample.flags_page
    /\ (b = true <->
        (forall c, c ∈ class_names (Some (js "on")) ->
                   c ∈ classList (set_depth 1 Sample.span_t))
        \/ ~ (forall c, c ∈ class_names None ->
                        c ∈ classList (set_depth 1 Sample.span_t))).
Proof.
  destruct (which_result Sample.only_true Sample.flags_page) as [H _].
  destruct (H {| bc_true := Some (js "on"); bc_false := None |}
              (set_depth 1 Sample.span_t)) as (b & Hw & Hiff & _).
  - vm_compute. reflexivity.
  - vm_compute. reflexivity.
  - exists b. split; [exact Hw | exact Hiff].
Defined.

(** C7 (the code differs): the markup of [only_false] sets only
    [data-falseclass="off"] and its element carries [off], so no true class
    is present and the false class is not absent, yet [which] returns
    [true]: [hasClass(undefined)], asked about the true class that is not
    configured, is true. *)
Lemma which_only_false_class :
  exists bc n,
    boolClass Sample.only_false = Some bc
    /\ Var.target Sample.only_false Sample.flags_page
       = Ok (Some n) Sample.flags_page
    /\ which Sample.only_false Sample.flags_page
       = Ok (Some true) Sample.flags_page
    /\ ~ which_as_specified bc n.
Proof.
  eexists; eexists.
  split; [vm_compute; reflexivity|].
  split; [vm_compute; reflexivity|].
  split; [vm_compute; reflexivity|].
  unfold which_as_specified, class_present. cbn [bc_true bc_false].
  intros [(x & Hx & _)|H]; [done|].
  apply H. eexists. split; [reflexivity|].
  intros c Hc. vm_compute in Hc. vm_compute.
  apply list_elem_of_singleton in Hc. subst. apply list_elem_of_singleton. done.
Qed.

End VarProperties.

(** ** The factory: index keys and [getTargetTemplate] *)

Section FactoryProperties.

Import Block Factory.

Variable querySelectorAll : jsstring -> list Node -> option (list Node).





Lemma index_class_filter (s : jsstring) :
  replace_class index_class [] s
  = filter (fun c => ~ (is_js_space c = true \/ c = 95 \/ c = 45)) s.
Proof.
  rewrite replace_class_filter. apply list_filter_iff. intros c.
  unfold index_class. rewrite <- not_true_iff_false, !orb_true_iff, !N.eqb_eq.
  tauto.
Qed.

Lemma prefix_class_filter (s : jsstring) :
  replace_class prefix_class [] s
  = filter (fun c => ~ (is_js_space c = true \/ c = 45)) s.
Proof.
  rewrite replace_class_filter. apply list_filter_iff. intros c.
  unfold prefix_class. rewrite <- not_true_iff_false, !orb_true_iff, !N.eqb_eq.
  tauto.
Qed.

(** What the constructor of a block returns when it returns a regular
    block. *)
Lemma new_ComponentBlock_inr (tag : Tag) (b : ComponentBlock) :
  new_ComponentBlock querySelectorAll tag = inr b ->
  exists thevars vs,
    querySelectorAll (js "[id]") (content tag) = Some thevars
    /\ add_variables thevars ([], ∅) = inr vs
    /\ (js "__proto__" ∉ vs.1)
    /\ regular b
    /\ prefixid b = replace_class prefix_class [] (default [] (tag_id tag))
    /\ bTemplate b = is_template tag
    /\ variables b = vs.1
    /\ vars b = (if is_template tag
                 then delete (js "templateCode") (delete (js "bTemplate") vs.2)
                 else vs.2)
    /\ templateCode b = (if is_template tag then content tag else []).
Proof.
  unfold new_ComponentBlock.
  destruct (querySelectorAll _ _) as [thevars|]; [|done].
  destruct (add_variables thevars ([], ∅)) as [e|vs] eqn:Hvs; [done|].
  case_bool_decide as Hproto; [done|].
  case_bool_decide as Hreg; [|done].
  intros [= <-]. exists thevars, vs. by repeat split.
Qed.

Lemma new_ComponentBlock_name (tag : Tag) (b : ComponentBlock) :
  new_ComponentBlock querySelectorAll tag = inr b ->
  name b = replace_class prefix_class [] (default [] (tag_id tag))
  /\ bTemplate b = is_template tag.
Proof.
  intros (thevars & vs & _ & _ & _ & _ & Hp & Hb & _)%new_ComponentBlock_inr.
  done.
Qed.

(** On a regular block the property [name] is the string that its getter
    returns. *)
Lemma read_name_regular (b : ComponentBlock) :
  regular b -> read_name b = Str (name b).
Proof.
  unfold regular, shadowed, read_name, name. intros Hreg.
  assert (Hno : forall m, m ∈ members (bTemplate b) -> vars b !! m = None).
  { intros m Hm. destruct (vars b !! m) as [h|] eqn:Hh; [|done].
    assert (Hin : m ∈ filter (fun m => is_Some (vars b !! m)) (members (bTemplate b)))
      by (apply list_elem_of_filter; split; [by rewrite Hh | done]).
    rewrite Hreg in Hin. by apply elem_of_nil in Hin. }
  rewrite !Hno; [done|..]; unfold members; apply elem_of_app.
  - left. apply list_elem_of_here.
  - right. apply elem_of_app. left. apply list_elem_of_further, list_elem_of_here.
Qed.

Lemma index_tags_sound (nodes : list Tag)
    (acc m : gmap jsstring (odd + ComponentBlock)) :
  index_tags querySelectorAll nodes acc = inr m ->
  forall k e, m !! k = Some e ->
    acc !! k = Some e
    \/ exists tag id0,
         tag ∈ nodes /\ tag_id tag = Some id0
         /\ k = replace_class index_class [] id0 /\ k ≠ []
         /\ entry_of querySelectorAll tag e.
Proof.
  revert acc; induction nodes as [|tag rest IH]; intros acc Hm k e Hk.
  - cbn in Hm. inversion Hm; subst. by left.
  - cbn [index_tags] in Hm.
    destruct (tag_id tag) as [id0|] eqn:Hid; [|done].
    assert (Hstep : forall e0,
      entry_of querySelectorAll tag e0 ->
      index_tags querySelectorAll rest
        (<[replace_class index_class [] id0 := e0]> acc) = inr m ->
      nonempty (replace_class index_class [] id0) = true ->
      acc !! k = Some e
      \/ exists tag' id',
           tag' ∈ tag :: rest /\ tag_id tag' = Some id'
           /\ k = replace_class index_class [] id' /\ k ≠ []
           /\ entry_of querySelectorAll tag' e).
    { intros e0 He0 Hrest Hne.
      destruct (IH _ Hrest k e Hk) as [Hacc|(tag' & id' & Hin & H)].
      - apply lookup_insert_Some in Hacc as [[<- <-]|[_ Hacc]]; [|by left].
        right. exists tag, id0. split; [apply list_elem_of_here|].
        split; [done|]. split; [done|]. split; [|done].
        by destruct (replace_class index_class [] id0).
      - right. exists tag', id'. split; [by apply list_elem_of_further|done]. }
    destruct (nonempty (replace_class index_class [] id0)) eqn:Hne.
    + destruct (new_ComponentBlock querySelectorAll tag) as [[e0|o]|b0] eqn:Hb0;
        [done| |].
      * by apply (Hstep (inl o)).
      * by apply (Hstep (inr b0)).
    + destruct (IH _ Hm k e Hk) as [Hacc|(tag' & id' & Hin & H)]; [by left|].
      right. exists tag', id'. split; [by apply list_elem_of_further|done].
Qed.

Lemma index_tags_complete (nodes : list Tag)
    (acc m : gmap jsstring (odd + ComponentBlock)) :
  index_tags querySelectorAll nodes acc = inr m ->
  (forall k, is_Some (acc !! k) -> is_Some (m !! k))
  /\ (forall tag id0,
        tag ∈ nodes -> tag_id tag = Some id0 ->
        replace_class index_class [] id0 ≠ [] ->
        is_Some (m !! replace_class index_class [] id0)).
Proof.
  revert acc; induction nodes as [|tag rest IH]; intros acc Hm.
  - cbn in Hm. inversion Hm; subst. split; [done|].
    intros tag id0 Hin. by apply elem_of_nil in Hin.
  - cbn [index_tags] in Hm.
    destruct (tag_id tag) as [id0|] eqn:Hid; [|done].
    assert (Hstep : forall e0,
      index_tags querySelectorAll rest
        (<[replace_class index_class [] id0 := e0]> acc) = inr m ->
      (forall k, is_Some (acc !! k) -> is_Some (m !! k))
      /\ (forall tag' id',
            tag' ∈ tag :: rest -> tag_id tag' = Some id' ->
            replace_class index_class [] id' ≠ [] ->
            is_Some (m !! replace_class index_class [] id'))).
    { intros e0 Hrest. destruct (IH _ Hrest) as [Hacc Hrest']. split.
      - intros k Hk. apply Hacc. rewrite lookup_insert.
        by destruct (decide _).
      - intros tag' id' Hin Hid' Hk. apply elem_of_cons in Hin as [->|Hin].
        + rewrite Hid in Hid'. inversion Hid'; subst.
          apply Hacc. by rewrite lookup_insert_eq.
        + by apply (Hrest' tag'). }
    destruct (nonempty (replace_class index_class [] id0)) eqn:Hne.
    + destruct (new_ComponentBlock querySelectorAll tag) as [[e0|o]|b0] eqn:Hb0;
        [done|by apply (Hstep (inl o))|by apply (Hstep (inr b0))].
    + destruct (IH _ Hm) as [Hacc Hrest]. split; [done|].
      intros tag' id' Hin Hid' Hk. apply elem_of_cons in Hin as [->|Hin].
      * rewrite Hid in Hid'. inversion Hid'; subst.
        by destruct (replace_class index_class [] id').
      * by apply (Hrest tag').
Qed.

(** A factory that the constructor returned holds the regular blocks of
    its index, and the index holds no other. *)
Lemma new_TemplateFactory_inr (nodes : list Tag) (f : TemplateFactory) :
  new_TemplateFactory querySelectorAll nodes = inr f ->
  exists m,
    index_tags querySelectorAll nodes ∅ = inr m
    /\ (forall k b, templates f !! k = Some b <-> m !! k = Some (inr b))
    /\ (forall k, is_Some (m !! k) -> is_Some (templates f !! k)).
Proof.
  unfold new_TemplateFactory.
  destruct (index_tags querySelectorAll nodes ∅) as [e|m] eqn:Hm; [done|].
  case_bool_decide as Hodd; [|done]. intros [= <-]. cbn [templates].
  assert (Hlook : forall k b,
    regular_blocks m !! k = Some b <-> m !! k = Some (inr b)).
  { intros k b. unfold regular_blocks. rewrite lookup_omap.
    destruct (m !! k) as [[o|b0]|]; cbn; split; intros H; by simplify_eq. }
  exists m. split; [done|]. split; [done|].
  intros k [[o|b] Hk].
  - assert (Ho : odd_blocks m !! k = Some o).
    { unfold odd_blocks. by rewrite lookup_omap, Hk. }
    rewrite Hodd in Ho. by rewrite lookup_empty in Ho.
  - exists b. by apply Hlook.
Qed.

Lemma getTemplate_Found (f : TemplateFactory) (k : jsstring) (b : ComponentBlock) :
  getTemplate f k = Found b <-> templates f !! k = Some b.
Proof.
  unfold getTemplate. destruct (templates f !! k) as [b0|].
  - split; by intros [= ->].
  - split; [|done]. by case_bool_decide.
Qed.

(** The factory built from any list of tags: every tag whose id keeps some
    character after white space, underscores and hyphens are removed is
    indexed under that key; a block found under a key comes from a tag of
    the document, the key is the declared id without white space,
    underscores and hyphens, the block is regular, and its name is the
    declared id without white space and hyphens.  When the declared id
    holds an underscore, the key differs from the name and from the suffix
    of the generated ids, whatever the current object id. *)
Theorem index_key_and_name (nodes : list Tag) (f : TemplateFactory) :
  new_TemplateFactory querySelectorAll nodes = inr f ->
  (forall tag id0,
      tag ∈ nodes -> tag_id tag = Some id0 ->
      filter (fun c => ~ (is_js_space c = true \/ c = 95 \/ c = 45)) id0 ≠ [] ->
      exists b,
        getTemplate f
          (filter (fun c => ~ (is_js_space c = true \/ c = 95 \/ c = 45)) id0)
        = Found b)
  /\ (forall k b,
        getTemplate f k = Found b ->
        exists tag id0,
          tag ∈ nodes /\ tag_id tag = Some id0
          /\ k = filter (fun c => ~ (is_js_space c = true \/ c = 95 \/ c = 45)) id0
          /\ regular b
          /\ read_name b = Str (name b)
          /\ name b = filter (fun c => ~ (is_js_space c = true \/ c = 45)) id0
          /\ (95 ∈ id0 ->
              k ≠ name b
              /\ forall cur, k ≠ prefix (with_currentElementId cur b))).
Proof.
  intros (m & Hm & Hlook & Hall)%new_TemplateFactory_inr. split.
  - intros tag id0 Hin Hid Hk. rewrite <- index_class_filter in *.
    destruct (index_tags_complete nodes ∅ m Hm) as [_ Hc].
    destruct (Hall _ (Hc tag id0 Hin Hid Hk)) as [b Hb].
    exists b. by apply getTemplate_Found.
  - intros k b Hk. apply getTemplate_Found, Hlook in Hk.
    destruct (index_tags_sound nodes ∅ m Hm k _ Hk)
      as [Hacc|(tag & id0 & Hin & Hid & -> & Hne & Hb)]; [done|].
    cbn [entry_of] in Hb.
    pose proof (new_ComponentBlock_inr _ _ Hb)
      as (_ & _ & _ & _ & _ & Hreg & _).
    apply new_ComponentBlock_name in Hb as [Hname Htpl].
    rewrite Hid in Hname. cbn [default] in Hname.
    exists tag, id0. split; [done|]. split; [done|].
    split; [apply index_class_filter|]. split; [done|].
    split; [by apply read_name_regular|].
    split; [by rewrite <- prefix_class_filter|].
    intros Hu.
    assert (Hk95 : 95 ∉ replace_class index_class [] id0).
    { rewrite index_class_filter, list_elem_of_filter. intros [Hc _].
      apply Hc. right. by left. }
    split.
    + intros Heq. apply Hk95. rewrite Heq, Hname, prefix_class_filter.
      apply list_elem_of_filter. split; [|done].
      intros [Hc|Hc]; [by vm_compute in Hc|done].
    + intros cur Heq. unfold prefix in Heq. cbn [bTemplate with_currentElementId] in Heq.
      destruct (bTemplate b); [|done].
      apply Hk95. rewrite Heq. change (js "_") with [95]. apply list_elem_of_here.
Qed.

End FactoryProperties.

(** The factory built from the two sample tags whose ids hold an
    underscore. *)
Lemma index_key_and_name_underscores :
  Factory.getTemplate Sample.underscores (js "ab")
  = Factory.Found (Sample.block_of Sample.a_b_tag)
  /\ exists tag id0,
       tag ∈ [Sample.a_b_tag; Sample.c_d_tag] /\ Factory.tag_id tag = Some id0
       /\ js "ab" = filter (fun c => ~ (is_js_space c = true \/ c = 95 \/ c = 45)) id0
       /\ Block.regular (Sample.block_of Sample.a_b_tag)
       /\ Block.read_name (Sample.block_of Sample.a_b_tag)
          = Block.Str (Block.name (Sample.block_of Sample.a_b_tag))
       /\ Block.name (Sample.block_of Sample.a_b_tag)
          = filter (fun c => ~ (is_js_space c = true \/ c = 45)) id0
       /\ (95 ∈ id0 ->
           js "ab" ≠ Block.name (Sample.block_of Sample.a_b_tag)
           /\ forall cur,
                js "ab" ≠ Block.prefix
                            (Block.with_currentElementId cur
                               (Sample.block_of Sample.a_b_tag))).
Proof.
  assert (Hk : Factory.getTemplate Sample.underscores (js "ab")
               = Factory.Found (Sample.block_of Sample.a_b_tag))
    by (vm_compute; reflexivity).
  split; [exact Hk|].
  apply (index_key_and_name Host.querySelectorAll
           [Sample.a_b_tag; Sample.c_d_tag] Sample.underscores).
  - vm_compute. reflexivity.
  - exact Hk.
Qed.

(** C9 (the code differs): the markup of the template [a_b] holds an
    element with the id [name].  The constructor stores the handle of that
    element in the block under [name], where it hides the accessor of the
    prototype: the property [name] of the block is the handle, not the id of
    the template without white space and hyphens, which [prefixid] still
    holds.  The factory keeps the block under the key [ab]. *)
Lemma name_property_is_a_handle :
  exists b h index,
    Factory.new_ComponentBlock Host.querySelectorAll Sample.named_tag
    = inl (Factory.Odd (Factory.Shadowed b))
    /\ Block.shadowed b = [js "name"]
    /\ Block.read_name b = Block.Own h
    /\ h = new_ComponentVar (Sample.element 11 0 (Some (js "name")) [])
    /\ Block.prefixid b = js "a_b"
    /\ Factory.new_TemplateFactory Host.querySelectorAll [Sample.named_tag]
       = inl (Factory.Irregular index)
    /\ index !! js "ab" = Some (inl (Factory.Shadowed b)).
Proof.
  eexists; eexists; eexists.
  split; [vm_compute; reflexivity|].
  split; [vm_compute; reflexivity|].
  split; [vm_compute; reflexivity|].
  split; [vm_compute; reflexivity|].
  split; [vm_compute; reflexivity|].
  split; [vm_compute; reflexivity|].
  vm_compute. reflexivity.
Qed.


(** C2, at a concrete input: with the instances [r1] and [r2] of [row] live
    and [r2] current, [find('r1')] succeeds, makes [r1] current, and a second
    [find('r1')] returns the same and changes nothing. *)
Lemma find_read_stability_witness :
  Block.currentElementId (Block.this Sample.row_twice) = js "r2"
  /\ (Block.truthy (Some 1%nat) = false ->
      Block.probing (js "r1") Sample.row_twice = Sample.row_twice)
  /\ (Block.truthy (Some 1%nat) = true ->
      exists str,
        Some (js "r1") = Some str
        /\ Block.currentElementId
             (Block.this (Block.probing (js "r1") Sample.row_twice))
           = flattenObjectId str
        /\ Block.find Host.querySelectorAll (Some (js "r1"))
             (Block.probing (js "r1") Sample.row_twice)
           = Ok (Some 1%nat) (Block.probing (js "r1") Sample.row_twice)).
Proof.
  split; [vm_compute; reflexivity|].
  apply (find_read_stability Host.querySelectorAll (Some (js "r1")) (Some 1%nat)
           Sample.row_twice (Block.probing (js "r1") Sample.row_twice)).
  vm_compute. reflexivity.
Defined.


(** ** The sample engine: suffix queries and the numbering loop *)

Section HostProperties.

Import Block.

Lemma strip_prefix_app (p s : jsstring) : Host.strip_prefix p (p ++ s) = Some s.
Proof. induction p as [|c p IH]; [by destruct s|]. cbn. by rewrite N.eqb_refl. Qed.

Lemma strip_suffix_app (p s : jsstring) : Host.strip_suffix p (s ++ p) = Some s.
Proof.
  unfold Host.strip_suffix. rewrite rev_app_distr, strip_prefix_app.
  by rewrite rev_involutive.
Qed.

Lemma parse_id_suffix (v : jsstring) :
  Host.parse (js "[id$=" ++ v ++ js "]")
  = if Host.is_identifier v then Some (Host.IdEndsWith v) else None.
Proof.
  unfold Host.parse.
  rewrite bool_decide_eq_false_2.
  - by rewrite strip_prefix_app, strip_suffix_app.
  - change (js "[id$=") with [91; 105; 100; 36; 61].
    change (js "[id]") with [91; 105; 100; 93]. by intros [=].
Qed.

Lemma querySelectorAll_id_suffix (v : jsstring) (t : list Node) :
  Host.querySelectorAll (js "[id$=" ++ v ++ js "]") t
  = if Host.is_identifier v
    then Some (filter (fun n => Host.selects (Host.IdEndsWith v) n = true) t)
    else None.
Proof.
  unfold Host.querySelectorAll. rewrite parse_id_suffix.
  by destruct (Host.is_identifier v).
Qed.

Lemma selects_id_suffix (v : jsstring) (n : Node) :
  Host.selects (Host.IdEndsWith v) n = true
  <-> is_element n = true /\ exists x, id_attr n = Some x /\ v `suffix_of` x.
Proof.
  unfold Host.selects, Host.ends_with. rewrite andb_true_iff.
  destruct (id_attr n) as [x|].
  - rewrite bool_decide_eq_true. split.
    + intros [? ?]. eauto.
    + intros [? (y & [= <-] & ?)]. done.
  - split; [by intros [_ ?]|]. by intros [_ (y & ? & _)].
Qed.

(** The suffix that [find] looks for when asked for the object id [o]. *)
Lemma prefix_probing (o : jsstring) (s : State) :
  bTemplate (this s) = true ->
  prefix (this (probing o s))
  = 95 :: prefixid (this s) ++ 95 :: flattenObjectId o.
Proof. intros Hb. unfold prefix, probing. cbn. by rewrite Hb. Qed.

Lemma dec_nonempty (i : nat) : dec i ≠ [].
Proof.
  unfold dec, pretty, pretty_nat, pretty, pretty_N.
  destruct (decide (N.of_nat i = 0)) as [|Hi]; [done|].
  assert (0 < N.of_nat i) by lia.
  rewrite pretty_N_go_step by done.
  intros Hnil. apply (f_equal length) in Hnil.
  assert (Hlen : forall x s, (String.length s <= String.length (pretty_N_go x s))%nat).
  { clear. intros x. induction (N.lt_wf_0 x) as [x _ IH]; intros s.
    destruct (decide (0 < x)) as [Hx|Hx].
    - rewrite pretty_N_go_step by done.
      etrans; [|apply IH; by apply N.div_lt]. cbn. lia.
    - assert (x = 0) as -> by lia. by rewrite pretty_N_go_0. }
  specialize (Hlen (N.of_nat i `div` 10)
                (String (pretty_N_char (N.of_nat i `mod` 10)) "")).
  unfold js in Hnil. rewrite length_map in Hnil.
  assert (Hl : forall s, length (list_ascii_of_string s) = String.length s).
  { clear. induction s; cbn; congruence. }
  rewrite Hl in Hnil. cbn in Hlen, Hnil. lia.
Qed.

(** What [find] does on the sample engine once its guard let it in. *)
Lemma find_host (o : jsstring) (s : State) :
  o ≠ [] ->
  variables (this s) ≠ [] ->
  find Host.querySelectorAll (Some o) s =
    let v := prefix (this (probing o s)) in
    if Host.is_identifier v then
      let le := filter (fun n => Host.selects (Host.IdEndsWith v) n = true)
                  (tree (document s)) in
      if (length le =? 0)%nat
      then Ok (Some (length le)) s
      else Ok (Some (length le)) (probing o s)
    else Throw SyntaxError (probing o s).
Proof.
  intros Ho Hv. rewrite find_unfold; [|by destruct o|done].
  rewrite querySelectorAll_id_suffix. cbn zeta.
  by destruct (Host.is_identifier _).
Qed.

Lemma first_unused_host_fuel (pid cI : jsstring) (t : list Node) (fuel : nat) :
  forall (i : nat) (s : State) (avail : list Node),
    prefixid (this s) = pid ->
    bTemplate (this s) = true ->
    variables (this s) ≠ [] ->
    tree (document s) = t ->
    (forall y j, y ∈ t -> (i <= j)%nat ->
       Host.selects
         (Host.IdEndsWith (95 :: pid ++ 95 :: flattenObjectId cI ++ dec j)) y = true ->
       y ∈ avail) ->
    (length avail < fuel)%nat ->
    first_unused Host.querySelectorAll fuel cI i s ≠ OutOfFuel.
Proof.
  induction fuel as [|fuel IH]; intros i s avail Hpid Hb Hv Ht Havail Hlen; [lia|].
  cbn [first_unused]. unfold bind.
  rewrite find_host; [|by destruct cI; [apply dec_nonempty|] | done].
  cbn zeta. rewrite prefix_probing by done.
  rewrite flattenObjectId_app, (flattenObjectId_digits (dec i)) by apply dec_digits.
  rewrite Hpid, Ht.
  destruct (Host.is_identifier _); [|done].
  set (v := 95 :: pid ++ 95 :: flattenObjectId cI ++ dec i).
  destruct (filter _ t) as [|y le] eqn:Hle; [done|].
  cbn [length Nat.eqb truthy].
  assert (Hy : y ∈ t /\ Host.selects (Host.IdEndsWith v) y = true).
  { assert (Hin : y ∈ filter (fun n => Host.selects (Host.IdEndsWith v) n = true) t)
      by (rewrite Hle; apply list_elem_of_here).
    apply list_elem_of_filter in Hin. tauto. }
  destruct Hy as [Hyt Hysel].
  apply (IH (S i) _
           (filter (fun n => Host.selects (Host.IdEndsWith v) n ≠ true) avail));
    try done.
  - intros z j Hz Hj Hzsel. apply list_elem_of_filter. split.
    + intros Hzi.
      apply selects_id_suffix in Hzsel as (_ & x & Hx & Hsuf).
      apply selects_id_suffix in Hzi as (_ & x' & Hx' & Hsuf').
      rewrite Hx in Hx'. inversion Hx'; subst x'.
      assert (Hd : dec j = dec i); [|apply dec_inj in Hd; lia].
      apply (digit_suffix_unique 95 (pid ++ 95 :: flattenObjectId cI) _ _ x);
        [done|apply dec_digits|apply dec_digits|..].
      * by rewrite <- app_comm_cons, <- app_assoc.
      * unfold v in Hsuf'. by rewrite <- app_comm_cons, <- app_assoc.
    + apply (Havail z j); [done|lia|done].
  - assert (Hya : y ∈ avail) by (apply (Havail y i); [done|lia|done]).
    pose proof (length_filter_lt
                  (fun n => Host.selects (Host.IdEndsWith v) n ≠ true) avail y Hya).
    assert (~ Host.selects (Host.IdEndsWith v) y ≠ true) by (intros Hn; by apply Hn).
    specialize (H H0). lia.
Qed.

Lemma first_unused_host_total (fuel : nat) (cI : jsstring) (s : State) :
  (length (tree (document s)) < fuel)%nat ->
  first_unused Host.querySelectorAll fuel cI 0 s ≠ OutOfFuel.
Proof.
  intros Hlen.
  destruct (decide (variables (this s) = [])) as [Hv|Hv].
  { destruct fuel as [|fuel]; [lia|]. cbn [first_unused]. unfold bind.
    by rewrite find_guard_closed by auto. }
  destruct (bTemplate (this s)) eqn:Hb.
  - by apply (first_unused_host_fuel (prefixid (this s)) cI (tree (document s))
                fuel 0 s (tree (document s))).
  - destruct fuel as [|fuel]; [lia|]. cbn [first_unused]. unfold bind.
    rewrite find_host; [|by destruct cI; [apply dec_nonempty|] | done].
    cbn zeta. unfold prefix, probing. cbn. by rewrite Hb.
Qed.

Lemma bind_fuel {S A B} (m : M S A) (k : A -> M S B) (s : S) :
  m s ≠ OutOfFuel ->
  (forall a s', m s = Ok a s' -> k a s' ≠ OutOfFuel) ->
  bind m k s ≠ OutOfFuel.
Proof.
  intros Hm Hk. unfold bind. destruct (m s) as [a s'| |]; [by apply Hk|done..].
Qed.

Lemma find_keeps_tree (o : option jsstring) (r : option nat) (s s' : State) :
  find Host.querySelectorAll o s = Ok r s' ->
  tree (document s') = tree (document s).
Proof.
  intros Hf.
  by destruct (find_cases _ _ _ _ _ Hf) as [[_ ->]|(_ & str & _ & -> & _)].
Qed.

Lemma calculateObjectID_host_total (fuel : nat) (s : State) :
  (length (tree (document s)) < fuel)%nat ->
  calculateObjectID Host.querySelectorAll fuel s ≠ OutOfFuel.
Proof.
  intros Hlen. unfold calculateObjectID.
  apply bind_fuel; [done|]. intros s0 s1 Hget.
  unfold get in Hget. injection Hget as <- <-.
  apply bind_fuel.
  - destruct (nonempty _); [|done].
    apply bind_fuel; [|done].
    apply find_total.
  - intros taken s1 Htaken. destruct taken; [|done].
    assert (Htree : tree (document s1) = tree (document s)).
    { destruct (nonempty _); [|by inversion Htaken].
      unfold bind in Htaken.
      destruct (find _ _ s) as [r s2| |] eqn:Hf; [|done..].
      inversion Htaken; subst. by apply find_keeps_tree in Hf. }
    apply bind_fuel; [|done].
    apply first_unused_host_total. by rewrite Htree.
Qed.

Lemma initVariables_each_total (p : jsstring) (vs : list jsstring)
    (frag : list Node) (s : State) :
  initVariables_each Host.querySelectorAll p vs frag s ≠ OutOfFuel.
Proof.
  revert frag s; induction vs as [|e rest IH]; intros frag s; [done|].
  cbn [initVariables_each]. apply bind_fuel; [|intros; apply IH].
  unfold rename_first. by destruct (Host.querySelectorAll _ _) as [[|]|].
Qed.

(** X8: on the sample engine the numbering loop needs no more rounds than
    the live document has nodes: with that much fuel [appendTo] returns or
    throws. *)
Theorem appendTo_host_total
    (fuel : nat) (node : option Node) (o : option jsstring) (s : State) :
  (length (tree (document s)) < fuel)%nat ->
  appendTo Host.querySelectorAll fuel node o s ≠ OutOfFuel.
Proof.
  intros Hlen. unfold appendTo.
  apply bind_fuel; [done|]. intros s0 s1 Hget.
  unfold get in Hget. injection Hget as <- <-.
  destruct node as [n|]; [|done].
  destruct (_ && _); [|done].
  apply bind_fuel; [done|]. intros df s1 Hclone.
  assert (Ht1 : tree (document s1) = tree (document s)).
  { unfold cloneNode in Hclone. unfold_monad. by inversion Hclone; subst. }
  apply bind_fuel; [by destruct o|]. intros fo s2 Hfo.
  assert (Ht2 : tree (document s2) = tree (document s)).
  { destruct o; unfold_monad; by inversion Hfo; subst. }
  apply bind_fuel; [done|]. intros [] s3 Hset.
  assert (Ht3 : tree (document s3) = tree (document s)).
  { unfold_monad. by inversion Hset; subst. }
  apply bind_fuel; [apply calculateObjectID_host_total; by rewrite Ht3|].
  intros [] s4 _.
  apply bind_fuel; [done|]. intros df1 s5 _.
  apply bind_fuel; [|done].
  unfold initVariables. apply bind_fuel; [done|]. intros s6 s7 _.
  apply initVariables_each_total.
Qed.

(** *** The ids of a new instance *)

Lemma declared_ids_cons (n : Node) (t : list Node) :
  declared_ids (n :: t)
  = match (if is_element n then id_attr n else None) with
    | Some i => i :: declared_ids t
    | None => declared_ids t
    end.
Proof. done. Qed.

Lemma declared_ids_renamed (v : jsstring) (n : Node) (t : list Node) :
  is_element n = true ->
  declared_ids (set_node_id v n :: t) = v :: declared_ids t.
Proof.
  intros Hel. rewrite declared_ids_cons.
  change (is_element (set_node_id v n)) with (is_element n). by rewrite Hel.
Qed.

Lemma declared_ids_app (t1 t2 : list Node) :
  declared_ids (t1 ++ t2) = declared_ids t1 ++ declared_ids t2.
Proof. apply omap_app. Qed.

Lemma declared_ids_clone (r : nat) (frag : list Node) :
  declared_ids (clone_from r frag) = declared_ids frag.
Proof.
  revert r; induction frag as [|n frag IH]; intros r; [done|].
  cbn [clone_from]. rewrite !declared_ids_cons, IH. done.
Qed.

Lemma refs_clone (r : nat) (frag : list Node) :
  map ref (clone_from r frag) = seq r (length frag).
Proof.
  revert r; induction frag as [|n frag IH]; intros r; [done|].
  cbn. by rewrite IH.
Qed.

Lemma length_clone (r : nat) (frag : list Node) :
  length (clone_from r frag) = length frag.
Proof. revert r; induction frag as [|n frag IH]; intros r; cbn; by rewrite ?IH. Qed.

Lemma refs_initRootElements (p : jsstring) (j : nat) (frag : list Node) :
  map ref (initRootElements_from p j frag) = map ref frag.
Proof.
  revert j; induction frag as [|n frag IH]; intros j; [done|].
  cbn [initRootElements_from]. destruct (_ && _); cbn; by rewrite IH.
Qed.

(** The root elements without an id get ids that end with the suffix; the
    other ids stay. *)
Lemma declared_ids_initRootElements (p : jsstring) (j : nat) (frag : list Node) :
  [] ∉ declared_ids frag ->
  exists new,
    Forall (fun i => p `suffix_of` i) new
    /\ declared_ids (initRootElements_from p j frag) ≡ₚ new ++ declared_ids frag.
Proof.
  revert j; induction frag as [|n frag IH]; intros j Hne.
  { exists []. by split. }
  cbn [initRootElements_from]. rewrite declared_ids_cons in Hne.
  destruct ((depth n =? 0)%nat && is_element n && negb (nonempty (node_id n)))
    eqn:Hcond.
  - apply andb_true_iff in Hcond as [[_ Hel]%andb_true_iff Hid].
    assert (Hnone : id_attr n = None).
    { rewrite Hel in Hne. unfold node_id in Hid.
      destruct (id_attr n) as [[|c i]|]; [|done..].
      exfalso. apply Hne. apply list_elem_of_here. }
    rewrite Hel, Hnone in Hne.
    destruct (IH (S j) Hne) as (new & Hnew & Hperm).
    exists ((dec j ++ p) :: new). split.
    + constructor; [by apply suffix_app_r | done].
    + rewrite declared_ids_renamed by done.
      rewrite declared_ids_cons, Hel, Hnone. cbn. by rewrite Hperm.
  - rewrite !declared_ids_cons.
    destruct (if is_element n then id_attr n else None) as [i|].
    + assert (Hne' : [] ∉ declared_ids frag)
        by (intros H; apply Hne; by apply list_elem_of_further).
      destruct (IH j Hne') as (new & Hnew & Hperm).
      exists new. split; [done|]. rewrite Hperm. by rewrite Permutation_middle.
    + destruct (IH j Hne) as (new & Hnew & Hperm). by exists new.
Qed.

Lemma parse_id (e : jsstring) :
  Host.parse (js "#" ++ e)
  = if Host.is_identifier e then Some (Host.IdIs e) else None.
Proof.
  unfold Host.parse. change (js "#") with [35].
  change (js "[id]") with [91; 105; 100; 93].
  change (js "[id$=") with [91; 105; 100; 36; 61].
  rewrite bool_decide_eq_false_2 by by intros [=].
  cbn [app Host.strip_prefix]. change (91 =? 35) with false. cbv iota.
  by rewrite N.eqb_refl.
Qed.

Lemma selects_id (e : jsstring) (n : Node) :
  Host.selects (Host.IdIs e) n = true
  <-> is_element n = true /\ id_attr n = Some e.
Proof.
  unfold Host.selects. rewrite andb_true_iff.
  destruct (id_attr n) as [i|].
  - rewrite bool_decide_eq_true. split; [by intros [? ->]|by intros [? [= ->]]].
  - split; by intros [_ ?].
Qed.

(** The first node a query selects splits the tree. *)
Lemma filter_first {A} (P : A -> Prop) `{!forall x, Decision (P x)}
    (l : list A) (x : A) (rest : list A) :
  filter P l = x :: rest ->
  exists l1 l2, l = l1 ++ x :: l2 /\ P x /\ Forall (fun y => ~ P y) l1.
Proof.
  induction l as [|y l IH]; [done|].
  rewrite filter_cons. destruct (decide (P y)) as [Hy|Hy].
  - intros [= -> _]. by exists [], l.
  - intros Hf. destruct (IH Hf) as (l1 & l2 & -> & Hx & Hl1).
    exists (y :: l1), l2. split; [done|]. split; [done|]. by constructor.
Qed.

Lemma rename_by_ref (v : jsstring) (n : Node) (l : list Node) :
  ref n ∉ map ref l ->
  map (fun m => if (ref m =? ref n)%nat then set_node_id v m else m) l = l.
Proof.
  induction l as [|m l IH]; [done|]. cbn. intros Hn.
  apply not_elem_of_cons in Hn as [Hm Hl].
  destruct (ref m =? ref n)%nat eqn:Heq.
  - apply Nat.eqb_eq in Heq. congruence.
  - by rewrite IH.
Qed.

(** One step of [initVariables] on the sample engine: one element with the
    id [e] gets the id [v], and nothing else changes. *)
Lemma rename_first_host (e v : jsstring) (frag frag' : list Node) (s s' : State) :
  NoDup (map ref frag) ->
  rename_first Host.querySelectorAll (js "#" ++ e) v frag s = Ok frag' s' ->
  s' = s
  /\ Host.is_identifier e = true
  /\ map ref frag' = map ref frag
  /\ exists l, declared_ids frag ≡ₚ e :: l /\ declared_ids frag' ≡ₚ v :: l.
Proof.
  intros Hnd. unfold rename_first, Host.querySelectorAll. rewrite parse_id.
  destruct (Host.is_identifier e); [|done].
  destruct (filter _ frag) as [|n rest] eqn:Hf; [done|].
  intros [= <- <-]. split; [done|]. split; [done|].
  apply filter_first in Hf as (l1 & l2 & -> & Hn & _).
  apply selects_id in Hn as [Hel Hid].
  rewrite map_app in Hnd. cbn [map] in Hnd.
  apply NoDup_app in Hnd as (_ & Hl1 & [Hl2 _]%NoDup_cons).
  rewrite map_app. cbn [map]. rewrite Nat.eqb_refl.
  rewrite !rename_by_ref; [|done|].
  2:{ intros Hin. apply (Hl1 _ Hin). apply list_elem_of_here. }
  split; [by rewrite !map_app|].
  exists (declared_ids l1 ++ declared_ids l2).
  rewrite !declared_ids_app, declared_ids_renamed by done.
  rewrite declared_ids_cons, Hel, Hid. split; by rewrite Permutation_middle.
Qed.

Lemma initVariables_each_host (p : jsstring) (vs : list jsstring) :
  forall (frag frag' : list Node) (done_ids : list jsstring) (s s' : State),
    NoDup (map ref frag) ->
    declared_ids frag ≡ₚ done_ids ++ vs ->
    Forall (fun i => p `suffix_of` i) done_ids ->
    initVariables_each Host.querySelectorAll p vs frag s = Ok frag' s' ->
    s' = s
    /\ length frag' = length frag
    /\ Forall (fun i => p `suffix_of` i) (declared_ids frag').
Proof.
  induction vs as [|e rest IH]; intros frag frag' done_ids s s' Hnd Hperm Hdone Hrun.
  - cbn in Hrun. injection Hrun as <- <-. split; [done|]. split; [done|].
    rewrite app_nil_r in Hperm. by rewrite Hperm.
  - cbn [initVariables_each] in Hrun. unfold bind in Hrun.
    destruct (rename_first _ _ _ frag s) as [frag1 s1| |] eqn:Hstep; [|done..].
    apply rename_first_host in Hstep as (-> & _ & Hrefs & l & Hl & Hl1); [|done].
    assert (Hlen : length frag1 = length frag)
      by (rewrite <- (length_map ref frag1), Hrefs; apply length_map).
    destruct (IH frag1 frag' ((e ++ p) :: done_ids) s s') as (-> & Hlen' & Hall);
      try done.
    + by rewrite Hrefs.
    + rewrite Hl1. cbn. constructor.
      rewrite Hl in Hperm. rewrite <- Permutation_middle in Hperm.
      by apply Permutation_cons_inv in Hperm.
    + constructor; [by apply suffix_app_r | done].
    + split; [done|]. split; [congruence|done].
Qed.

Lemma prefix_template (b : ComponentBlock) :
  bTemplate b = true ->
  prefix b = 95 :: prefixid b ++ 95 :: currentElementId b.
Proof. intros Hb. unfold prefix. by rewrite Hb. Qed.

Lemma same_definition_probing (o : jsstring) (s : State) :
  same_definition s (probing o s).
Proof. by repeat split. Qed.

(** Where the numbering loop stops, no element of the live document has an
    id that ends with the suffix of the number reached. *)
Lemma first_unused_host_free (pid cI : jsstring) (t : list Node) (fuel : nat) :
  forall (i j : nat) (s s' : State),
    prefixid (this s) = pid ->
    bTemplate (this s) = true ->
    variables (this s) ≠ [] ->
    tree (document s) = t ->
    first_unused Host.querySelectorAll fuel cI i s = Ok j s' ->
    same_definition s s'
    /\ document s' = document s
    /\ Host.is_identifier (95 :: pid ++ 95 :: flattenObjectId cI ++ dec j) = true
    /\ filter (fun n => Host.selects
                          (Host.IdEndsWith
                             (95 :: pid ++ 95 :: flattenObjectId cI ++ dec j)) n
                        = true) t = [].
Proof.
  induction fuel as [|fuel IH]; intros i j s s' Hpid Hb Hv Ht Hrun; [done|].
  cbn [first_unused] in Hrun. unfold bind in Hrun.
  rewrite find_host in Hrun; [|by destruct cI; [apply dec_nonempty|] | done].
  cbn zeta in Hrun. rewrite prefix_probing in Hrun by done.
  rewrite flattenObjectId_app, (flattenObjectId_digits (dec i)) in Hrun
    by apply dec_digits.
  rewrite Hpid, Ht in Hrun.
  destruct (Host.is_identifier _) eqn:Hident; [|done].
  destruct (filter _ t) as [|y le] eqn:Hle.
  - cbn in Hrun. injection Hrun as <- <-. by repeat split.
  - cbn [length Nat.eqb truthy] in Hrun.
    by apply IH in Hrun as (Hsame & Hdoc & Hj).
Qed.

Lemma calculateObjectID_host_free (fuel : nat) (s s' : State) :
  bTemplate (this s) = true ->
  variables (this s) ≠ [] ->
  flattenObjectId (currentElementId (this s)) = currentElementId (this s) ->
  calculateObjectID Host.querySelectorAll fuel s = Ok tt s' ->
  same_definition s s'
  /\ document s' = document s
  /\ Host.is_identifier (prefix (this s')) = true
  /\ filter (fun n => Host.selects (Host.IdEndsWith (prefix (this s'))) n = true)
       (tree (document s)) = [].
Proof.
  intros Hb Hv Hflat Hrun. unfold calculateObjectID in Hrun.
  unfold bind at 1 in Hrun. unfold get at 1 in Hrun.
  rewrite or_empty_id in Hrun.
  set (c := currentElementId (this s)) in *.
  assert (Hloop : forall s1 j s2,
    same_definition s s1 -> document s1 = document s ->
    first_unused Host.querySelectorAll fuel c 0 s1 = Ok j s2 ->
    let s3 := {| this := with_currentElementId (c ++ dec j) (this s2);
                 document := document s2 |} in
    same_definition s s3
    /\ document s3 = document s
    /\ Host.is_identifier (prefix (this s3)) = true
    /\ filter (fun n => Host.selects (Host.IdEndsWith (prefix (this s3))) n = true)
         (tree (document s)) = []).
  { intros s1 j s2 Hsame Hdoc Hfirst.
    destruct Hsame as (Ht & Hpid & Hbt & Htid & Hvs & Hvars & Hcode).
    apply (first_unused_host_free (prefixid (this s)) c (tree (document s)))
      in Hfirst as (Hsame2 & Hdoc2 & Hident & Hfree);
      [|done|congruence|congruence|by rewrite Hdoc].
    destruct Hsame2 as (Ht2 & Hpid2 & Hbt2 & Htid2 & Hvs2 & Hvars2 & Hcode2).
    cbn zeta. split; [repeat split; cbn; congruence|].
    split; [cbn; congruence|].
    rewrite prefix_template by (cbn; congruence). cbn.
    rewrite Hpid2, Hpid. rewrite Hflat in Hident, Hfree. done. }
  destruct (nonempty c) eqn:Hc.
  - unfold bind at 1 in Hrun. unfold bind at 1 in Hrun.
    rewrite find_host in Hrun; [|by destruct c|done].
    cbn zeta in Hrun. rewrite prefix_probing in Hrun by done.
    rewrite Hflat in Hrun.
    destruct (Host.is_identifier _) eqn:Hident; [|done].
    destruct (filter _ (tree (document s))) as [|y le] eqn:Hle.
    + cbn in Hrun. injection Hrun as <-.
      split; [done|]. split; [done|].
      rewrite prefix_template by done. by fold c.
    + cbn [length Nat.eqb truthy ret] in Hrun.
      unfold bind in Hrun.
      destruct (first_unused _ _ _ _ _) as [j s2| |] eqn:Hfirst; [|done..].
      cbn in Hrun. injection Hrun as <-.
      by apply (Hloop (probing c s) j s2); [apply same_definition_probing|..].
  - unfold bind at 1 in Hrun. unfold ret at 1 in Hrun.
    unfold bind in Hrun.
    destruct (first_unused _ _ _ _ _) as [j s2| |] eqn:Hfirst; [|done..].
    cbn in Hrun. injection Hrun as <-.
    by apply (Hloop s j s2).
Qed.

Lemma bind_Ok {S A B} (m : M S A) (k : A -> M S B) (s s' : S) (b : B) :
  bind m k s = Ok b s' ->
  exists a s1, m s = Ok a s1 /\ k a s1 = Ok b s'.
Proof.
  unfold bind. destruct (m s) as [a s1| |]; [|done..]. intros H. by exists a, s1.
Qed.

Lemma initVariables_each_identifiers (p : jsstring) (vs : list jsstring) :
  forall (frag frag' : list Node) (s s' : State),
    initVariables_each Host.querySelectorAll p vs frag s = Ok frag' s' ->
    Forall (fun e => Host.is_identifier e = true) vs.
Proof.
  induction vs as [|e rest IH]; intros frag frag' s s' Hrun; [done|].
  cbn [initVariables_each] in Hrun.
  apply bind_Ok in Hrun as (frag1 & s1 & Hstep & Hrun).
  constructor; [|by eapply IH].
  unfold rename_first, Host.querySelectorAll in Hstep. rewrite parse_id in Hstep.
  by destruct (Host.is_identifier e).
Qed.

(** On the sample engine, for a template that has variables and whose
    variables are the ids declared in its markup: when [appendTo] returns,
    every id of the new instance ends with the suffix of the block, and no
    id of an element that was in the live document before the call does.
    The ids of the new instance are new to the document. *)
Theorem appendTo_host_fresh_ids
    (fuel : nat) (n : Node) (o : option jsstring) (s s' : State) :
  bTemplate (this s) = true ->
  nodeType n = ELEMENT_NODE ->
  variables (this s) ≠ [] ->
  variables (this s) = declared_ids (templateCode (this s)) ->
  appendTo Host.querySelectorAll fuel (Some n) o s = Ok tt s' ->
  exists df,
    tree (document s') = appendChild (ref n) df (tree (document s))
    /\ length df = length (templateCode (this s))
    /\ Forall (fun i => prefix (this s') `suffix_of` i) (declared_ids df)
    /\ Forall (fun i => ~ prefix (this s') `suffix_of` i)
         (declared_ids (tree (document s)))
    /\ same_definition s s'.
Proof.
  intros Hb Hn Hv Hwf Hrun. unfold appendTo in Hrun.
  apply bind_Ok in Hrun as (s0 & s0' & Hget & Hrun).
  unfold get in Hget. injection Hget as <- <-.
  rewrite Hb, Hn, N.eqb_refl in Hrun. cbn [andb] in Hrun.
  apply bind_Ok in Hrun as (df & s1 & Hclone & Hrun).
  unfold cloneNode in Hclone. unfold_monad_in Hclone. injection Hclone as <- <-.
  apply bind_Ok in Hrun as (fo & s2 & Hfo & Hrun).
  destruct o as [str|]; [|done]. unfold_monad_in Hfo. injection Hfo as <- <-.
  apply bind_Ok in Hrun as ([] & s2 & Hset & Hrun).
  unfold_monad_in Hset. injection Hset as <-. rewrite or_empty_id in Hrun.
  apply bind_Ok in Hrun as ([] & s3 & Hcalc & Hrun).
  apply calculateObjectID_host_free in Hcalc
    as (Hsame & Hdoc & Hident & Hfree); [|done|done|].
  2:{ cbn. apply flattenObjectId_idemp. }
  cbn [this document tree] in Hfree, Hdoc.
  destruct Hsame as (Ht & Hpid & Hbt & Htid & Hvs & Hvars & Hcode).
  cbn [this with_currentElementId targetElement prefixid bTemplate targetid
       variables vars templateCode] in Ht, Hpid, Hbt, Htid, Hvs, Hvars, Hcode.
  apply bind_Ok in Hrun as (df1 & s4 & Hroot & Hrun).
  unfold initRootElements in Hroot. unfold_monad_in Hroot. injection Hroot as <- <-.
  apply bind_Ok in Hrun as (df2 & s5 & Hinit & Hrun).
  unfold initVariables in Hinit. unfold_monad_in Hinit.
  pose proof (initVariables_each_identifiers _ _ _ _ _ _ Hinit) as Hids.
  set (p := prefix (this s3)) in *.
  set (df := clone_from (fresh (document s)) (templateCode (this s))) in *.
  assert (Hne : [] ∉ declared_ids df).
  { unfold df. rewrite declared_ids_clone, <- Hwf, <- Hvs. intros Hin.
    rewrite Forall_forall in Hids. by apply Hids in Hin. }
  destruct (declared_ids_initRootElements p 0 df Hne) as (new & Hnew & Hperm).
  apply (initVariables_each_host p _ _ _ new) in Hinit as (-> & Hlen & Hall).
  2:{ rewrite refs_initRootElements. unfold df. rewrite refs_clone.
      apply NoDup_seq. }
  2:{ rewrite Hperm. unfold df. by rewrite declared_ids_clone, <- Hwf, Hvs. }
  2:{ done. }
  unfold_monad_in Hrun. injection Hrun as <-.
  exists df2. cbn [this document tree with__targetElement].
  rewrite Hdoc. cbn [tree].
  split; [done|]. split.
  { rewrite Hlen. rewrite <- (length_map ref), refs_initRootElements, length_map.
    apply length_clone. }
  assert (Hp : prefix (with__targetElement (Some (ref n)) (this s3)) = p) by done.
  rewrite Hp. split; [done|]. split.
  - apply Forall_forall. intros i Hi Hsuf.
    apply list_elem_of_omap in Hi as (y & Hy & Hyi).
    assert (Hin : y ∈ filter (fun n => Host.selects (Host.IdEndsWith p) n = true)
                    (tree (document s))).
    { apply list_elem_of_filter. split; [|done].
      apply selects_id_suffix. destruct (is_element y); [|done]. eauto. }
    rewrite Hfree in Hin. by apply elem_of_nil in Hin.
  - repeat split; cbn; done.
Qed.

Lemma split_subtree_app (k : nat) (t : list Node) :
  (split_subtree k t).1 ++ (split_subtree k t).2 = t.
Proof.
  induction t as [|n t IH]; [done|]. cbn [split_subtree].
  destruct (k <? depth n)%nat; [|done].
  destruct (split_subtree k t) as [sub after]. cbn in *. by rewrite IH.
Qed.

Lemma declared_ids_set_depth (f : Node -> nat) (df : list Node) :
  declared_ids (map (fun c => set_depth (f c) c) df) = declared_ids df.
Proof.
  induction df as [|c df IH]; [done|].
  cbn [map]. rewrite !declared_ids_cons, IH. done.
Qed.

(** Appending below a node of the tree adds the ids of the fragment to the
    ids of the tree. *)
Lemma declared_ids_appendChild (r : nat) (df t : list Node) :
  r ∈ map ref t ->
  declared_ids (appendChild r df t) ≡ₚ declared_ids t ++ declared_ids df.
Proof.
  induction t as [|n t IH]; intros Hr; [by apply elem_of_nil in Hr|].
  cbn [appendChild]. destruct (ref n =? r)%nat eqn:Hn.
  - pose proof (split_subtree_app (depth n) t) as Hsplit.
    destruct (split_subtree (depth n) t) as [sub after]. cbn in Hsplit.
    rewrite <- Hsplit. rewrite !declared_ids_cons.
    assert (Hp : declared_ids (sub ++ map (fun c => set_depth (S (depth n) + depth c) c) df
                                 ++ after)
                 ≡ₚ declared_ids (sub ++ after) ++ declared_ids df).
    { rewrite !declared_ids_app, declared_ids_set_depth.
      rewrite <- !app_assoc. f_equiv. apply Permutation_app_comm. }
    destruct (if is_element n then id_attr n else None); by rewrite Hp.
  - cbn [map] in Hr. apply elem_of_cons in Hr as [->|Hr].
    { by rewrite Nat.eqb_refl in Hn. }
    rewrite !declared_ids_cons.
    destruct (if is_element n then id_attr n else None); by rewrite (IH Hr).
Qed.

(** X10: on the sample engine two instances of a template that has
    variables never share an id, whatever the two object ids are, when the
    first instance was put below a node of the live document. *)
Theorem host_instances_are_disjoint
    (fuel : nat) (n1 n2 : Node) (o1 o2 : option jsstring) (s0 s1 s2 : State) :
  bTemplate (this s0) = true ->
  nodeType n1 = ELEMENT_NODE ->
  nodeType n2 = ELEMENT_NODE ->
  variables (this s0) ≠ [] ->
  variables (this s0) = declared_ids (templateCode (this s0)) ->
  ref n1 ∈ map ref (tree (document s0)) ->
  appendTo Host.querySelectorAll fuel (Some n1) o1 s0 = Ok tt s1 ->
  appendTo Host.querySelectorAll fuel (Some n2) o2 s1 = Ok tt s2 ->
  exists df1 df2,
    tree (document s1) = appendChild (ref n1) df1 (tree (document s0))
    /\ tree (document s2) = appendChild (ref n2) df2 (tree (document s1))
    /\ forall i, i ∈ declared_ids df1 -> i ∉ declared_ids df2.
Proof.
  intros Hb Hn1 Hn2 Hv Hwf Hlive H1 H2.
  apply appendTo_host_fresh_ids in H1
    as (df1 & Ht1 & _ & _ & _ & Hsame); try done.
  destruct Hsame as (_ & _ & Hbt & _ & Hvs & _ & Hcode).
  apply appendTo_host_fresh_ids in H2
    as (df2 & Ht2 & _ & Hnew & Hold & _); try congruence.
  exists df1, df2. split; [done|]. split; [done|].
  intros i Hi1 Hi2.
  rewrite Forall_forall in Hnew, Hold.
  apply (Hold i); [|by apply Hnew].
  rewrite Ht1, declared_ids_appendChild by done.
  apply elem_of_app. by right.
Qed.

(** The two instances of the sample template [row] that [attach('')] makes,
    one after the other. *)
Example row_instances_are_disjoint :
  exists df1 df2,
    tree (document Sample.row_once)
    = appendChild (ref Sample.tbl) df1 (tree (document (Sample.start Sample.row)))
    /\ tree (document Sample.row_again)
       = appendChild (ref Sample.tbl) df2 (tree (document Sample.row_once))
    /\ forall i, i ∈ declared_ids df1 -> i ∉ declared_ids df2.
Proof.
  apply (host_instances_are_disjoint 3 Sample.tbl Sample.tbl (Some []) (Some [])
           (Sample.start Sample.row) Sample.row_once Sample.row_again);
    try (vm_compute; reflexivity).
  - vm_compute. discriminate.
  - vm_compute. apply list_elem_of_here.
Defined.

Lemma add_variables_names (thevars : list Node)
    (acc vs : list jsstring * gmap jsstring ComponentVar) :
  Factory.add_variables thevars acc = inr vs ->
  vs.1 = acc.1 ++ map node_id thevars.
Proof.
  revert acc; induction thevars as [|n l IH]; intros acc; cbn.
  - intros [= <-]. by rewrite app_nil_r.
  - case_bool_decide; [done|]. intros Hrun. apply IH in Hrun.
    rewrite Hrun. cbn. by rewrite <- app_assoc.
Qed.

(** The blocks that the constructor builds on the sample engine have the
    ids declared in their markup as variables. *)
Lemma new_ComponentBlock_host_variables (tag : Factory.Tag) (b : ComponentBlock) :
  Factory.new_ComponentBlock Host.querySelectorAll tag = inr b ->
  Factory.is_template tag = true ->
  variables b = declared_ids (templateCode b).
Proof.
  intros (thevars & vs & Hq & Hvs & _ & _ & _ & _ & Hvars & _ & Hcode)
    %new_ComponentBlock_inr Ht.
  rewrite Hvars, Hcode, Ht. apply add_variables_names in Hvs. rewrite Hvs.
  cbn [fst app].
  unfold Host.querySelectorAll, Host.parse in Hq.
  rewrite bool_decide_eq_true_2 in Hq by done. injection Hq as <-.
  clear. induction (Factory.content tag) as [|n l IH]; [done|].
  rewrite declared_ids_cons.
  destruct (Host.selects Host.HasId n) eqn:Hsel.
  - rewrite filter_cons_True by done. cbn [map]. rewrite IH.
    unfold Host.selects in Hsel. apply andb_true_iff in Hsel as [-> Hid].
    unfold node_id. by destruct (id_attr n).
  - rewrite filter_cons_False by by rewrite Hsel. rewrite IH.
    unfold Host.selects in Hsel.
    by destruct (is_element n), (id_attr n).
Qed.

(** *** The numbering rule *)




End HostProperties.

(** ** Templates without variables *)

Section NoVariables.

Import Block.

Variable querySelectorAll : jsstring -> list Node -> option (list Node).

(** The ids that [initRootElements] gives do not depend on the identities
    of the cloned nodes. *)
Lemma declared_ids_initRootElements_clone (p : jsstring) (j r : nat) (frag : list Node) :
  declared_ids (initRootElements_from p j (clone_from r frag))
  = declared_ids (initRootElements_from p j frag).
Proof.
  revert j r; induction frag as [|n frag IH]; intros j r; [done|].
  cbn [clone_from initRootElements_from].
  change (depth (set_ref r n)) with (depth n).
  change (is_element (set_ref r n)) with (is_element n).
  change (node_id (set_ref r n)) with (node_id n).
  destruct ((depth n =? 0)%nat && is_element n && negb (nonempty (node_id n))) eqn:Hc.
  - apply andb_true_iff in Hc as [[_ Hel]%andb_true_iff _].
    rewrite !declared_ids_renamed by done. by rewrite IH.
  - rewrite !declared_ids_cons, IH. done.
Qed.

(** For every template without variables the defect shows: instantiated
    with [''] and then with ['0'], the two instances get the same ids. *)
Theorem no_variables_instances_share_ids
    (fuel : nat) (n1 n2 : Node) (s : State) :
  bTemplate (this s) = true ->
  variables (this s) = [] ->
  nodeType n1 = ELEMENT_NODE ->
  nodeType n2 = ELEMENT_NODE ->
  exists s1 s2 df1 df2,
    appendTo querySelectorAll (S fuel) (Some n1) (Some []) s = Ok tt s1
    /\ appendTo querySelectorAll (S fuel) (Some n2) (Some (js "0")) s1 = Ok tt s2
    /\ tree (document s1) = appendChild (ref n1) df1 (tree (document s))
    /\ tree (document s2) = appendChild (ref n2) df2 (tree (document s1))
    /\ declared_ids df1 = declared_ids df2.
Proof.
  intros Hb Hv Hn1 Hn2.
  eexists. eexists. eexists. eexists.
  split; [by apply appendTo_no_variables|].
  split; [by apply appendTo_no_variables|].
  split; [done|]. split; [done|].
  cbn [this document tree fresh templateCode with__targetElement
       with_currentElementId].
  rewrite !declared_ids_initRootElements_clone. done.
Qed.
End NoVariables.

(** * Further properties of the code *)

(** ** Block operations: what stays and what grows *)

Section BlockCoverage.

Import Block.

Variable querySelectorAll : jsstring -> list Node -> option (list Node).

#[local] Instance same_definition_order : PreOrder same_definition.
Proof.
  split; [done|]. intros x y z Hxy Hyz. unfold same_definition in *.
  destruct Hxy as (?&?&?&?&?&?&?), Hyz as (?&?&?&?&?&?&?).
  repeat split; congruence.
Qed.

Lemma attach_same_definition (fuel : nat) (o : option jsstring) :
  preserves same_definition (attach querySelectorAll fuel o).
Proof.
  unfold attach. apply (preserves_bind same_definition).
  - apply (preserves_get same_definition).
  - intros s. destruct (bTemplate (this s)).
    + apply appendTo_same_definition.
    + apply (preserves_ret same_definition).
Qed.

Lemma set_id_same_definition (fuel : nat) (value : option jsstring) :
  preserves same_definition (set_id querySelectorAll fuel value).
Proof.
  unfold set_id. destruct (truthy_id value).
  - apply (preserves_bind same_definition); [apply find_same_definition|].
    intros r. destruct (truthy r).
    + apply (preserves_ret same_definition).
    + apply attach_same_definition.
  - apply on_this_same_definition. by intros [].
Qed.

Lemma regular_same_definition (s s' : State) :
  same_definition s s' -> regular (this s) -> regular (this s').
Proof.
  intros (_ & _ & Hb & _ & _ & Hv & _). unfold regular, shadowed.
  by rewrite Hb, Hv.
Qed.

(** X1: on a regular block, one in which no handle has the name of a
    member, whatever [find], [calculateObjectID], [appendTo], [attach] and
    the setter of [id] do, and whether they return or throw, the block keeps
    its name, its kind, its target element, its target id, its variables
    with their handles and its markup, and it stays regular: these
    operations change at most [currentElementId] and [_targetElement]. *)
Theorem block_operations_keep_definition
    (fuel : nat) (node : option Node) (o : option jsstring) (s : State) :
  regular (this s) ->
  ends_in stays_regular s (find querySelectorAll o s)
  /\ ends_in stays_regular s (calculateObjectID querySelectorAll fuel s)
  /\ ends_in stays_regular s (appendTo querySelectorAll fuel node o s)
  /\ ends_in stays_regular s (attach querySelectorAll fuel o s)
  /\ ends_in stays_regular s (set_id querySelectorAll fuel o s).
Proof.
  intros Hreg.
  assert (H : forall A (m : M State A),
    preserves same_definition m -> ends_in stays_regular s (m s)).
  { intros A m Hm. specialize (Hm s). unfold ends_in, stays_regular.
    destruct (m s); [split| split|done]; try done;
      by apply (regular_same_definition s). }
  split; [apply H, find_same_definition|].
  split; [apply H, calculateObjectID_same_definition|].
  split; [apply H, appendTo_same_definition|].
  split; apply H; [apply attach_same_definition | apply set_id_same_definition].
Qed.

(** The document is the same in both states. *)
#[local] Instance same_document_order :
  PreOrder (fun s s' : State => document s' = document s).
Proof. split; [done|]. intros x y z Hxy Hyz. congruence. Qed.

Ltac doc_step :=
  first
    [ apply (preserves_ret (fun s s' : State => document s' = document s))
    | apply (preserves_throw (fun s s' : State => document s' = document s))
    | apply (preserves_get (fun s s' : State => document s' = document s))
    | (by intros ?)
    | apply (preserves_bind (fun s s' : State => document s' = document s));
      [|intros ?] ].

Lemma find_same_document (o : option jsstring) :
  preserves (fun s s' => document s' = document s) (find querySelectorAll o).
Proof.
  unfold find. doc_step; [doc_step|].
  destruct (_ && _); [|doc_step].
  doc_step; [destruct o; doc_step|].
  doc_step; [doc_step|].
  doc_step; [doc_step|].
  doc_step.
  { unfold document_querySelectorAll. doc_step; [doc_step|].
    destruct (querySelectorAll _ _); doc_step. }
  doc_step; [|doc_step].
  destruct (_ =? _)%nat; doc_step.
Qed.

Lemma first_unused_same_document (fuel : nat) (cI : jsstring) (i : nat) :
  preserves (fun s s' => document s' = document s)
    (first_unused querySelectorAll fuel cI i).
Proof.
  revert i; induction fuel as [|fuel IH]; intros i; [by intros s|].
  cbn [first_unused]. doc_step; [apply find_same_document|].
  destruct (truthy _); [apply IH | doc_step].
Qed.

Lemma calculateObjectID_same_document (fuel : nat) :
  preserves (fun s s' => document s' = document s)
    (calculateObjectID querySelectorAll fuel).
Proof.
  unfold calculateObjectID. doc_step; [doc_step|].
  doc_step.
  { destruct (nonempty _); [|doc_step].
    doc_step; [apply find_same_document | doc_step]. }
  match goal with b : bool |- _ => destruct b end; [|doc_step].
  doc_step; [apply first_unused_same_document | doc_step].
Qed.

Lemma initVariables_each_outcome (p : jsstring) (vs : list jsstring) :
  forall (frag : list Node) (s : State),
    match initVariables_each querySelectorAll p vs frag s with
    | Ok frag' s' => s' = s /\ length frag' = length frag
    | Throw _ s' => s' = s
    | OutOfFuel => False
    end.
Proof.
  induction vs as [|e rest IH]; intros frag s; [done|].
  cbn [initVariables_each]. unfold bind, rename_first.
  destruct (querySelectorAll _ frag) as [[|n l]|]; try done.
  cbn. specialize (IH (map (fun m => if (ref m =? ref n)%nat
                                     then set_node_id (e ++ p) m else m) frag) s).
  destruct (initVariables_each _ _ _ _ _); [|done..].
  destruct IH as [-> Hlen]. split; [done|]. by rewrite Hlen, length_map.
Qed.

Lemma length_initRootElements (p : jsstring) (j : nat) (frag : list Node) :
  length (initRootElements_from p j frag) = length frag.
Proof.
  revert j; induction frag as [|n frag IH]; intros j; [done|].
  cbn [initRootElements_from]. destruct (_ && _); cbn; by rewrite IH.
Qed.

Lemma sublist_appendChild (r : nat) (df t : list Node) :
  t `sublist_of` appendChild r df t
  /\ (length (appendChild r df t) <= length t + length df)%nat.
Proof.
  induction t as [|n t [IH1 IH2]]; [split; [done | cbn; lia]|].
  cbn [appendChild]. destruct (ref n =? r)%nat.
  - pose proof (split_subtree_app (depth n) t) as Hsplit.
    destruct (split_subtree (depth n) t) as [sub after]. cbn in Hsplit.
    rewrite <- Hsplit. split.
    + apply sublist_skip. apply sublist_app; [done|].
      by apply sublist_inserts_l.
    + cbn. rewrite !length_app, length_map. lia.
  - split; [by apply sublist_skip | cbn; lia].
Qed.

(** X2: [appendTo] never removes or reorders a node of the live document.
    When it returns, the nodes that were there are still there, in their
    order, and at most one copy of the markup of the block was added; when
    it throws, the tree of the document is the one it started with. *)
Theorem appendTo_only_adds
    (fuel : nat) (node : option Node) (o : option jsstring) (s : State) :
  match appendTo querySelectorAll fuel node o s with
  | Ok _ s' =>
      tree (document s) `sublist_of` tree (document s')
      /\ (length (tree (document s'))
          <= length (tree (document s)) + length (templateCode (this s)))%nat
  | Throw _ s' => tree (document s') = tree (document s)
  | OutOfFuel => True
  end.
Proof.
  unfold appendTo. unfold bind at 1. unfold get at 1.
  destruct node as [n|]; [|cbn; split; [done|lia]].
  destruct (_ && _); [|cbn; split; [done|lia]].
  unfold bind at 1. unfold cloneNode. unfold bind at 1. unfold get at 1.
  unfold bind at 1. unfold on_document at 1, modify at 1. unfold ret at 1.
  cbn [this document].
  unfold bind at 1.
  destruct o as [str|]; [|done]. cbn [flattenObjectId_call ret].
  unfold bind at 1. unfold on_this at 1, modify at 1. cbn [this document].
  unfold bind at 1.
  match goal with |- context [calculateObjectID _ _ ?s0] =>
    pose proof (calculateObjectID_same_document fuel s0) as Hcalc;
    pose proof (calculateObjectID_same_definition querySelectorAll fuel s0) as Hdef;
    destruct (calculateObjectID querySelectorAll fuel s0) as [[] s3|e s3|]
  end; [|by rewrite Hcalc|done].
  cbn [document this] in Hcalc.
  destruct Hdef as (_ & _ & _ & _ & _ & _ & Hcode). cbn in Hcode.
  unfold bind at 1. unfold initRootElements. unfold bind at 1. unfold get at 1.
  unfold ret at 1. unfold bind at 1. unfold initVariables.
  unfold bind at 1. unfold get at 1.
  match goal with |- context [initVariables_each _ ?p ?vs ?frag s3] =>
    pose proof (initVariables_each_outcome p vs frag s3) as Hinit;
    destruct (initVariables_each querySelectorAll p vs frag s3) as [df2 s4|e s4|]
  end; [|by rewrite Hinit, Hcalc|done].
  destruct Hinit as [-> Hlen].
  rewrite length_initRootElements, length_clone in Hlen.
  cbn. rewrite Hcalc. cbn.
  destruct (sublist_appendChild (ref n) df2 (tree (document s))) as [Hsub Hle].
  split; [done|]. lia.
Qed.


End BlockCoverage.

Lemma block_operations_keep_definition_witness :
  Block.ends_in Block.stays_regular (Sample.start Sample.row)
    (Block.find Host.querySelectorAll (Some (js "r1")) (Sample.start Sample.row))
  /\ Block.ends_in Block.stays_regular (Sample.start Sample.row)
       (Block.calculateObjectID Host.querySelectorAll 2 (Sample.start Sample.row))
  /\ Block.ends_in Block.stays_regular (Sample.start Sample.row)
       (Block.appendTo Host.querySelectorAll 2 (Some Sample.side) (Some (js "r1"))
          (Sample.start Sample.row))
  /\ Block.ends_in Block.stays_regular (Sample.start Sample.row)
       (Block.attach Host.querySelectorAll 2 (Some (js "r1"))
          (Sample.start Sample.row))
  /\ Block.ends_in Block.stays_regular (Sample.start Sample.row)
       (Block.set_id Host.querySelectorAll 2 (Some (js "r1"))
          (Sample.start Sample.row)).
Proof.
  apply (block_operations_keep_definition Host.querySelectorAll 2
           (Some Sample.side) (Some (js "r1")) (Sample.start Sample.row)).
  vm_compute. reflexivity.
Defined.


(** ** Operations and the assigned target *)

Section TargetCoverage.

Import Block Target.

Variable querySelectorAll : jsstring -> list Node -> option (list Node).

Lemma blind_ret {A} (a : A) : blind (ret a).
Proof. done. Qed.

Lemma blind_throw {A} (e : exn) : blind (@throw State A e).
Proof. done. Qed.

Lemma blind_bind {A B} (m : M State A) (k : A -> M State B) :
  blind m -> (forall a, blind (k a)) -> blind (bind m k).
Proof.
  intros Hm Hk r s. unfold bind. rewrite Hm.
  destruct (m s) as [a s1|e s1|]; cbn; [apply Hk|done..].
Qed.

(** A reading of the state that is followed by code that does not use the
    target. *)
Lemma blind_get {B} (k : State -> M State B) :
  (forall r s, k (assigned r s) = k s) ->
  (forall s, blind (k s)) ->
  blind (bind get k).
Proof.
  intros Hsame Hk r s. unfold bind, get. rewrite Hsame. apply Hk.
Qed.

Lemma blind_on_this (f : ComponentBlock -> ComponentBlock) :
  (forall r b, f (with_targetElement r b) = with_targetElement r (f b)) ->
  blind (on_this f).
Proof. intros Hf r s. unfold on_this, modify, assigned. cbn. by rewrite Hf. Qed.

Lemma blind_on_document (f : Document -> Document) : blind (on_document f).
Proof. done. Qed.

Lemma blind_flattenObjectId_call (o : option jsstring) :
  blind (flattenObjectId_call o).
Proof. by destruct o. Qed.

Lemma blind_document_querySelectorAll (sel : jsstring) :
  blind (document_querySelectorAll querySelectorAll sel).
Proof.
  intros r s. unfold document_querySelectorAll, bind, get. cbn.
  by destruct (querySelectorAll _ _).
Qed.

Lemma blind_find (o : option jsstring) : blind (find querySelectorAll o).
Proof.
  unfold find. apply blind_get; [done|]. intros s.
  destruct (_ && _); [|apply blind_ret].
  apply blind_bind; [apply blind_flattenObjectId_call|]. intros fo.
  apply blind_bind; [by apply blind_on_this|]. intros _.
  apply blind_get; [done|]. intros s1.
  apply blind_bind; [apply blind_document_querySelectorAll|]. intros le.
  apply blind_bind; [|intros; apply blind_ret].
  destruct (_ =? _)%nat; [by apply blind_on_this | apply blind_ret].
Qed.

Lemma blind_first_unused (fuel : nat) (cI : jsstring) (i : nat) :
  blind (first_unused querySelectorAll fuel cI i).
Proof.
  revert i; induction fuel as [|fuel IH]; intros i; [done|].
  cbn [first_unused]. apply blind_bind; [apply blind_find|]. intros le.
  destruct (truthy le); [apply IH | apply blind_ret].
Qed.

Lemma blind_calculateObjectID (fuel : nat) :
  blind (calculateObjectID querySelectorAll fuel).
Proof.
  unfold calculateObjectID. apply blind_get; [done|]. intros s.
  apply blind_bind.
  { destruct (nonempty _); [|apply blind_ret].
    apply blind_bind; [apply blind_find | intros; apply blind_ret]. }
  intros [|]; [|apply blind_ret].
  apply blind_bind; [apply blind_first_unused|]. intros j.
  by apply blind_on_this.
Qed.

Lemma blind_initVariables_each (p : jsstring) (vs : list jsstring) (frag : list Node) :
  blind (initVariables_each querySelectorAll p vs frag).
Proof.
  revert frag; induction vs as [|e rest IH]; intros frag; [apply blind_ret|].
  cbn [initVariables_each]. apply blind_bind; [|intros; apply IH].
  unfold rename_first. destruct (querySelectorAll _ _) as [[|n l]|]; done.
Qed.

Lemma blind_appendTo (fuel : nat) (node : option Node) (o : option jsstring) :
  blind (appendTo querySelectorAll fuel node o).
Proof.
  unfold appendTo. apply blind_get; [done|]. intros s.
  destruct node as [n|]; [|apply blind_ret].
  destruct (_ && _); [|apply blind_ret].
  apply blind_bind.
  { unfold cloneNode. apply blind_get; [done|]. intros s1.
    apply blind_bind; [apply blind_on_document | intros; apply blind_ret]. }
  intros df.
  apply blind_bind; [apply blind_flattenObjectId_call|]. intros fo.
  apply blind_bind; [by apply blind_on_this|]. intros _.
  apply blind_bind; [apply blind_calculateObjectID|]. intros _.
  apply blind_bind.
  { unfold initRootElements. apply blind_get; [done|]. intros; apply blind_ret. }
  intros df1.
  apply blind_bind.
  { unfold initVariables. apply blind_get; [done|].
    intros; apply blind_initVariables_each. }
  intros df2.
  apply blind_bind; [apply blind_on_document|]. intros _.
  by apply blind_on_this.
Qed.

Lemma blind_attach (fuel : nat) (o : option jsstring) :
  blind (attach querySelectorAll fuel o).
Proof.
  unfold attach. apply blind_get; [done|]. intros s.
  destruct (bTemplate (this s)); [apply blind_appendTo | apply blind_ret].
Qed.

(** X22: no operation of a block looks at the target that a caller assigned
    through the [target] accessor.  [find], [calculateObjectID], [appendTo],
    [attach] and the setter of [id] do the same to the document and to the
    block whatever node was assigned, and leave the assignment in place; in
    particular [attach] goes by [targetid] alone. *)
Theorem operations_ignore_assigned_target
    (fuel : nat) (node : option Node) (o : option jsstring) :
  blind (find querySelectorAll o)
  /\ blind (calculateObjectID querySelectorAll fuel)
  /\ blind (appendTo querySelectorAll fuel node o)
  /\ blind (attach querySelectorAll fuel o)
  /\ blind (set_id querySelectorAll fuel o).
Proof.
  split; [apply blind_find|]. split; [apply blind_calculateObjectID|].
  split; [apply blind_appendTo|]. split; [apply blind_attach|].
  unfold set_id. destruct (truthy_id o); [|by apply blind_on_this].
  apply blind_bind; [apply blind_find|]. intros r.
  destruct (truthy r); [apply blind_ret | apply blind_attach].
Qed.

End TargetCoverage.

(** ** Instances on the sample engine *)

Section HostCoverage.

Import Block.

(** The id that [calculateObjectID] leaves is the id it found, or that id
    followed by a number. *)
Lemma calculateObjectID_id
    (querySelectorAll : jsstring -> list Node -> option (list Node))
    (fuel : nat) (s s' : State) :
  calculateObjectID querySelectorAll fuel s = Ok tt s' ->
  let c := currentElementId (this s) in
  (c ≠ [] /\ currentElementId (this s') = c)
  \/ exists j, currentElementId (this s') = c ++ dec j.
Proof.
  intros Hrun. unfold calculateObjectID in Hrun.
  unfold bind at 1 in Hrun. unfold get at 1 in Hrun.
  rewrite or_empty_id in Hrun. cbn zeta.
  set (c := currentElementId (this s)) in *.
  apply bind_Ok in Hrun as (taken & s1 & Htaken & Hrun).
  destruct taken.
  - apply bind_Ok in Hrun as (j & s2 & _ & Hset).
    unfold on_this, modify in Hset. injection Hset as <-. right. by exists j.
  - unfold ret in Hrun. injection Hrun as <-.
    destruct (nonempty c) eqn:Hc; [|done].
    apply bind_Ok in Htaken as (r & s2 & Hfind & Hret).
    unfold ret in Hret. injection Hret as Hr <-.
    apply find_cases in Hfind as [[_ ->]|[Ht _]]; [|congruence].
    left. split; [|done]. intros Hnil. by rewrite Hnil in Hc.
Qed.

Lemma initVariables_each_host_ids (p : jsstring) (vs : list jsstring) :
  forall (frag frag' : list Node) (done_ids : list jsstring) (s s' : State),
    NoDup (map ref frag) ->
    declared_ids frag ≡ₚ done_ids ++ vs ->
    initVariables_each Host.querySelectorAll p vs frag s = Ok frag' s' ->
    map ref frag' = map ref frag
    /\ declared_ids frag' ≡ₚ done_ids ++ map (fun e => e ++ p) vs.
Proof.
  induction vs as [|e rest IH]; intros frag frag' done_ids s s' Hnd Hperm Hrun.
  - cbn in Hrun. injection Hrun as <- <-. done.
  - cbn [initVariables_each] in Hrun.
    apply bind_Ok in Hrun as (frag1 & s1 & Hstep & Hrun).
    apply rename_first_host in Hstep as (-> & _ & Hrefs & l & Hl & Hl1); [|done].
    destruct (IH frag1 frag' ((e ++ p) :: done_ids) s s') as (Hrefs' & Hids).
    + by rewrite Hrefs.
    + rewrite Hl1. cbn. constructor.
      rewrite Hl in Hperm. rewrite <- Permutation_middle in Hperm.
      by apply Permutation_cons_inv in Hperm.
    + done.
    + split; [congruence|]. rewrite Hids. cbn [map].
      by rewrite <- Permutation_middle.
Qed.

(** What [appendTo] puts into the document on the sample engine. *)
Lemma appendTo_host_instance
    (fuel : nat) (n : Node) (o : option jsstring) (s s' : State) :
  bTemplate (this s) = true ->
  nodeType n = ELEMENT_NODE ->
  variables (this s) ≠ [] ->
  variables (this s) = declared_ids (templateCode (this s)) ->
  appendTo Host.querySelectorAll fuel (Some n) o s = Ok tt s' ->
  exists df,
    tree (document s') = appendChild (ref n) df (tree (document s))
    /\ map ref df = seq (fresh (document s)) (length (templateCode (this s)))
    /\ (forall e, e ∈ variables (this s) -> e ++ prefix (this s') ∈ declared_ids df)
    /\ Forall (fun i => ~ prefix (this s') `suffix_of` i)
         (declared_ids (tree (document s)))
    /\ Host.is_identifier (prefix (this s')) = true
    /\ same_definition s s'
    /\ currentElementId (this s') ≠ []
    /\ flattenObjectId (currentElementId (this s')) = currentElementId (this s').
Proof.
  intros Hb Hn Hv Hwf Hrun. unfold appendTo in Hrun.
  apply bind_Ok in Hrun as (s0 & s0' & Hget & Hrun).
  unfold get in Hget. injection Hget as <- <-.
  rewrite Hb, Hn, N.eqb_refl in Hrun. cbn [andb] in Hrun.
  apply bind_Ok in Hrun as (df & s1 & Hclone & Hrun).
  unfold cloneNode in Hclone. unfold_monad_in Hclone. injection Hclone as <- <-.
  apply bind_Ok in Hrun as (fo & s2 & Hfo & Hrun).
  destruct o as [str|]; [|done]. unfold_monad_in Hfo. injection Hfo as <- <-.
  apply bind_Ok in Hrun as ([] & s2 & Hset & Hrun).
  unfold_monad_in Hset. injection Hset as <-. rewrite or_empty_id in Hrun.
  apply bind_Ok in Hrun as ([] & s3 & Hcalc & Hrun).
  pose proof (calculateObjectID_id _ _ _ _ Hcalc) as Hid. cbn in Hid.
  apply calculateObjectID_host_free in Hcalc
    as (Hsame & Hdoc & Hident & Hfree); [|done|done|].
  2:{ cbn. apply flattenObjectId_idemp. }
  cbn [this document tree] in Hfree, Hdoc.
  destruct Hsame as (Ht & Hpid & Hbt & Htid & Hvs & Hvars & Hcode).
  cbn [this with_currentElementId targetElement prefixid bTemplate targetid
       variables vars templateCode] in Ht, Hpid, Hbt, Htid, Hvs, Hvars, Hcode.
  apply bind_Ok in Hrun as (df1 & s4 & Hroot & Hrun).
  unfold initRootElements in Hroot. unfold_monad_in Hroot. injection Hroot as <- <-.
  apply bind_Ok in Hrun as (df2 & s5 & Hinit & Hrun).
  unfold initVariables in Hinit. unfold_monad_in Hinit.
  pose proof (initVariables_each_identifiers _ _ _ _ _ _ Hinit) as Hids.
  set (p := prefix (this s3)) in *.
  set (df := clone_from (fresh (document s)) (templateCode (this s))) in *.
  assert (Hne : [] ∉ declared_ids df).
  { unfold df. rewrite declared_ids_clone, <- Hwf, <- Hvs. intros Hin.
    rewrite Forall_forall in Hids. by apply Hids in Hin. }
  destruct (declared_ids_initRootElements p 0 df Hne) as (new & Hnew & Hperm).
  pose proof Hinit as Hinit'.
  apply (initVariables_each_host_ids p _ _ _ new) in Hinit' as (Hrefs & Hnames).
  2:{ rewrite refs_initRootElements. unfold df. rewrite refs_clone.
      apply NoDup_seq. }
  2:{ rewrite Hperm. unfold df. by rewrite declared_ids_clone, <- Hwf, Hvs. }
  pose proof (initVariables_each_outcome Host.querySelectorAll p
                (variables (this s3)) (initRootElements_from p 0 df) s3) as Hout.
  rewrite Hinit in Hout. destruct Hout as [-> _].
  unfold_monad_in Hrun. injection Hrun as <-.
  exists df2. cbn [this document tree with__targetElement].
  rewrite Hdoc. cbn [tree].
  split; [done|]. split.
  { rewrite Hrefs, refs_initRootElements. unfold df. by rewrite refs_clone. }
  assert (Hp : prefix (with__targetElement (Some (ref n)) (this s3)) = p) by done.
  rewrite Hp. split.
  { intros e He. rewrite Hnames. apply elem_of_app. right.
    apply list_elem_of_fmap. exists e. split; [done|]. by rewrite Hvs. }
  split.
  { apply Forall_forall. intros i Hi Hsuf.
    apply list_elem_of_omap in Hi as (y & Hy & Hyi).
    assert (Hin : y ∈ filter (fun n => Host.selects (Host.IdEndsWith p) n = true)
                    (tree (document s))).
    { apply list_elem_of_filter. split; [|done].
      apply selects_id_suffix. destruct (is_element y); [|done]. eauto. }
    rewrite Hfree in Hin. by apply elem_of_nil in Hin. }
  split; [done|]. split; [repeat split; cbn; done|].
  cbn [currentElementId with__targetElement this].
  destruct Hid as [[Hc ->]|[j ->]].
  - split; [done|]. apply flattenObjectId_idemp.
  - split.
    + intros Hnil. apply app_eq_nil in Hnil as [_ Hnil]. by apply dec_nonempty in Hnil.
    + rewrite flattenObjectId_app, flattenObjectId_idemp.
      by rewrite (flattenObjectId_digits (dec j)) by apply dec_digits.
Qed.

Lemma elem_of_appendChild (r : nat) (df t : list Node) (x : Node) :
  x ∈ appendChild r df t ->
  x ∈ t \/ exists c k, c ∈ df /\ x = set_depth k c.
Proof.
  induction t as [|n t IH]; [by left|].
  cbn [appendChild]. destruct (ref n =? r)%nat.
  - pose proof (split_subtree_app (depth n) t) as Hsplit.
    destruct (split_subtree (depth n) t) as [sub after]. cbn in Hsplit.
    rewrite <- Hsplit.
    intros [->|[Hx|[Hx|Hx]%elem_of_app]%elem_of_app]%elem_of_cons.
    + left. apply list_elem_of_here.
    + left. apply list_elem_of_further, elem_of_app. by left.
    + right. apply list_elem_of_fmap in Hx as (c & -> & Hc).
      by exists c, (S (depth n) + depth c)%nat.
    + left. apply list_elem_of_further, elem_of_app. by right.
  - intros [->|Hx]%elem_of_cons; [left; apply list_elem_of_here|].
    destruct (IH Hx) as [?|?]; [left; by apply list_elem_of_further | by right].
Qed.

Lemma appendChild_inserts (r : nat) (df t : list Node) (c : Node) :
  r ∈ map ref t -> c ∈ df ->
  exists k, set_depth k c ∈ appendChild r df t.
Proof.
  induction t as [|n t IH]; intros Hr Hc; [by apply elem_of_nil in Hr|].
  cbn [appendChild]. destruct (ref n =? r)%nat eqn:Hn.
  - destruct (split_subtree (depth n) t) as [sub after].
    exists (S (depth n) + depth c)%nat.
    apply list_elem_of_further, elem_of_app. right. apply elem_of_app. left.
    apply list_elem_of_fmap. by exists c.
  - cbn [map] in Hr. apply elem_of_cons in Hr as [->|Hr].
    { by rewrite Nat.eqb_refl in Hn. }
    destruct (IH Hr Hc) as [k Hk]. exists k. by apply list_elem_of_further.
Qed.

Lemma probing_current (s : State) :
  flattenObjectId (currentElementId (this s)) = currentElementId (this s) ->
  probing (currentElementId (this s)) s = s.
Proof. intros H. unfold probing. rewrite H. by destruct s as [[] ?]. Qed.


(** X5: on the sample engine, for a template that has variables and whose
    variables are the ids declared in its markup: no id of the instance that
    [appendTo] adds is the id of an element that was in the document before
    the call, whichever block that element came from. *)
Theorem host_instance_ids_are_new
    (fuel : nat) (n : Node) (o : option jsstring) (s s' : State) :
  bTemplate (this s) = true ->
  nodeType n = ELEMENT_NODE ->
  variables (this s) ≠ [] ->
  variables (this s) = declared_ids (templateCode (this s)) ->
  appendTo Host.querySelectorAll fuel (Some n) o s = Ok tt s' ->
  exists df,
    tree (document s') = appendChild (ref n) df (tree (document s))
    /\ forall i, i ∈ declared_ids df -> i ∉ declared_ids (tree (document s)).
Proof.
  intros Hb Hn Hv Hwf Hrun.
  apply appendTo_host_fresh_ids in Hrun as (df & Ht & _ & Hnew & Hold & _);
    try done.
  exists df. split; [done|]. intros i Hi Hi'.
  rewrite Forall_forall in Hnew, Hold. by apply (Hold i); [|apply Hnew].
Qed.

(** X6: on the sample engine, after [appendTo] put an instance of a template
    with variables below a node of the document, every handle of the block
    resolves: the [target] of the handle of a variable is an element of the
    copy just made, with the id of the variable followed by the suffix of
    the block. *)
Theorem handles_resolve_in_new_instance
    (fuel : nat) (n : Node) (o : option jsstring) (s s' : State)
    (h : ComponentVar) :
  bTemplate (this s) = true ->
  nodeType n = ELEMENT_NODE ->
  variables (this s) = declared_ids (templateCode (this s)) ->
  ref n ∈ map ref (tree (document s)) ->
  var_id h ∈ variables (this s) ->
  appendTo Host.querySelectorAll fuel (Some n) o s = Ok tt s' ->
  exists m,
    Var.target h s' = Ok (Some m) s'
    /\ id_attr m = Some (var_id h ++ prefix (this s'))
    /\ (fresh (document s) <= ref m
        < fresh (document s) + length (templateCode (this s)))%nat.
Proof.
  intros Hb Hn Hwf Hlive Hh Hrun.
  assert (Hv : variables (this s) ≠ []).
  { intros Hnil. rewrite Hnil in Hh. by apply elem_of_nil in Hh. }
  apply appendTo_host_instance in Hrun
    as (df & Ht & Hrefs & Hnames & Hold & _ & Hsame & _ & _); try done.
  destruct Hsame as (_ & _ & Hbt & _).
  set (p := prefix (this s')) in *.
  set (v := var_id h ++ p).
  assert (Hp : p = 95 :: prefixid (this s') ++ 95 :: currentElementId (this s')).
  { unfold p. apply prefix_template. congruence. }
  assert (Hnonempty : nonempty v = true).
  { unfold v. rewrite Hp. by destruct (var_id h). }
  apply Hnames in Hh. apply list_elem_of_omap in Hh as (c & Hc & Hcid).
  destruct (appendChild_inserts (ref n) df (tree (document s)) c Hlive Hc)
    as [k Hk].
  unfold Var.target, bind, get, ret, getElementById. fold p. fold v.
  rewrite Hnonempty, Ht.
  destruct (List.find _ _) as [m|] eqn:Hfind.
  - apply find_some in Hfind as [Hm Hpm]. apply list_elem_of_In in Hm.
    apply andb_true_iff in Hpm as [Hel Hid]. apply bool_decide_eq_true in Hid.
    exists m. split; [done|]. split; [done|].
    apply elem_of_appendChild in Hm as [Hm|(c' & k' & Hc' & ->)].
    + exfalso. rewrite Forall_forall in Hold. apply (Hold v).
      * apply list_elem_of_omap. exists m. split; [done|]. by rewrite Hel.
      * by apply suffix_app_r.
    + change (ref (set_depth k' c')) with (ref c').
      assert (Hin : ref c' ∈ map ref df) by (apply list_elem_of_fmap; by exists c').
      rewrite Hrefs in Hin. apply elem_of_seq in Hin. lia.
  - exfalso. apply find_none with (x := set_depth k c) in Hfind.
    + apply andb_false_iff in Hfind.
      change (is_element (set_depth k c)) with (is_element c) in Hfind.
      change (id_attr (set_depth k c)) with (id_attr c) in Hfind.
      destruct (is_element c); [|done].
      destruct Hfind as [?|Hfind]; [done|].
      by apply bool_decide_eq_false in Hfind.
    + by apply list_elem_of_In.
Qed.

(** X7: on the sample engine an instance can be found again under the id it
    was given.  After [appendTo] put an instance of a regular template with
    variables below a node of the document, [find] with the [id] of the
    block returns a count above zero and leaves the block as it is, so
    assigning that id again, which runs the setter on a regular block,
    changes nothing. *)
Theorem appendTo_instance_is_found
    (fuel : nat) (n : Node) (o : option jsstring) (s s' : State) :
  regular (this s) ->
  bTemplate (this s) = true ->
  nodeType n = ELEMENT_NODE ->
  variables (this s) ≠ [] ->
  variables (this s) = declared_ids (templateCode (this s)) ->
  ref n ∈ map ref (tree (document s)) ->
  appendTo Host.querySelectorAll fuel (Some n) o s = Ok tt s' ->
  regular (this s')
  /\ (exists k,
        find Host.querySelectorAll (Some (id (this s'))) s' = Ok (Some (S k)) s')
  /\ set_id Host.querySelectorAll fuel (Some (id (this s'))) s' = Ok tt s'.
Proof.
  intros Hreg Hb Hn Hv Hwf Hlive Hrun.
  apply appendTo_host_instance in Hrun
    as (df & Ht & _ & Hnames & _ & Hident & Hsame & Hne & Hflat); try done.
  split; [by apply (regular_same_definition s)|].
  destruct Hsame as (_ & _ & Hbt & _ & Hvs & _).
  assert (Hfind : exists k,
    find Host.querySelectorAll (Some (id (this s'))) s' = Ok (Some (S k)) s').
  { unfold id. rewrite find_host; [|done|congruence]. cbn zeta.
    rewrite probing_current by done. rewrite Hident.
    destruct (variables (this s)) as [|e vs] eqn:Hvars; [done|].
    assert (He : e ++ prefix (this s') ∈ declared_ids df)
      by (apply Hnames, list_elem_of_here).
    apply list_elem_of_omap in He as (c & Hc & Hcid).
    destruct (appendChild_inserts (ref n) df (tree (document s)) c Hlive Hc)
      as [k Hk].
    rewrite <- Ht in Hk.
    assert (Hin : set_depth k c
                  ∈ filter (fun n => Host.selects
                                       (Host.IdEndsWith (prefix (this s'))) n = true)
                      (tree (document s'))).
    { apply list_elem_of_filter. split; [|done]. apply selects_id_suffix.
      change (is_element (set_depth k c)) with (is_element c).
      change (id_attr (set_depth k c)) with (id_attr c).
      destruct (is_element c); [|done]. split; [done|].
      exists (e ++ prefix (this s')). split; [done|]. by apply suffix_app_r. }
    destruct (filter _ (tree (document s'))) as [|y le]; [by apply elem_of_nil in Hin|].
    cbn. by exists (length le). }
  split; [done|]. destruct Hfind as [k Hfind].
  unfold set_id. assert (Htr : truthy_id (Some (id (this s'))) = true).
  { unfold id. by destruct (currentElementId (this s')). }
  rewrite Htr. unfold bind. by rewrite Hfind.
Qed.

End HostCoverage.


Lemma host_instance_ids_are_new_witness :
  exists df,
    tree (Block.document Sample.row_in_side)
    = appendChild (ref Sample.side) df
        (tree (Block.document (Sample.start Sample.row)))
    /\ forall i, i ∈ declared_ids df
         -> i ∉ declared_ids (tree (Block.document (Sample.start Sample.row))).
Proof.
  apply (host_instance_ids_are_new 2 Sample.side (Some (js "r1"))
           (Sample.start Sample.row) Sample.row_in_side).
  - vm_compute. reflexivity.
  - vm_compute. reflexivity.
  - vm_compute. discriminate.
  - vm_compute. reflexivity.
  - vm_compute. reflexivity.
Defined.

Lemma handles_resolve_in_new_instance_witness :
  exists m,
    Var.target (Sample.handle Sample.row (js "x")) Sample.row_in_side
    = Ok (Some m) Sample.row_in_side
    /\ id_attr m
       = Some (var_id (Sample.handle Sample.row (js "x"))
               ++ Block.prefix (Block.this Sample.row_in_side))
    /\ (fresh (Block.document (Sample.start Sample.row)) <= ref m
        < fresh (Block.document (Sample.start Sample.row))
          + length (Block.templateCode (Block.this (Sample.start Sample.row))))%nat.
Proof.
  apply (handles_resolve_in_new_instance 2 Sample.side (Some (js "r1"))
           (Sample.start Sample.row) Sample.row_in_side
           (Sample.handle Sample.row (js "x"))).
  - vm_compute. reflexivity.
  - vm_compute. reflexivity.
  - vm_compute. reflexivity.
  - vm_compute. apply list_elem_of_further, list_elem_of_here.
  - vm_compute. apply list_elem_of_here.
  - vm_compute. reflexivity.
Defined.

Lemma appendTo_instance_is_found_witness :
  Block.regular (Block.this Sample.row_in_side)
  /\ (exists k,
     Block.find Host.querySelectorAll
       (Some (Block.id (Block.this Sample.row_in_side))) Sample.row_in_side
     = Ok (Some (S k)) Sample.row_in_side)
  /\ Block.set_id Host.querySelectorAll 2
       (Some (Block.id (Block.this Sample.row_in_side))) Sample.row_in_side
     = Ok tt Sample.row_in_side.
Proof.
  apply (appendTo_instance_is_found 2 Sample.side (Some (js "r1"))
           (Sample.start Sample.row) Sample.row_in_side).
  - vm_compute. reflexivity.
  - vm_compute. reflexivity.
  - vm_compute. reflexivity.
  - vm_compute. discriminate.
  - vm_compute. reflexivity.
  - vm_compute. apply list_elem_of_further, list_elem_of_here.
  - vm_compute. reflexivity.
Defined.

(** ** The factory and the constructor of a block *)

Section FactoryCoverage.

Import Block Factory.

Variable querySelectorAll : jsstring -> list Node -> option (list Node).




Lemma add_variables_handles (thevars : list Node)
    (acc vs : list jsstring * gmap jsstring ComponentVar) :
  (forall v, is_Some (acc.2 !! v) <-> v ∈ acc.1 /\ v ≠ js "__proto__") ->
  (forall v h, acc.2 !! v = Some h -> var_id h = v) ->
  add_variables thevars acc = inr vs ->
  (forall v, is_Some (vs.2 !! v) <-> v ∈ vs.1 /\ v ≠ js "__proto__")
  /\ (forall v h, vs.2 !! v = Some h -> var_id h = v).
Proof.
  revert acc; induction thevars as [|n rest IH]; intros acc Hdom Hid.
  { by intros [= <-]. }
  cbn [add_variables]. case_bool_decide as Hvars; [done|].
  apply IH; cbn [fst snd].
  - intros v. rewrite elem_of_app, list_elem_of_singleton.
    case_bool_decide as Hproto.
    + rewrite Hdom. split; [intros [? ?]; split; [by left|done]|].
      intros [[?| ->] ?]; [done|]. by rewrite Hproto in *.
    + destruct (decide (v = node_id n)) as [->|Hv].
      * rewrite lookup_insert_eq. split; [|by eexists].
        intros _. split; [by right | done].
      * rewrite lookup_insert_ne by done. rewrite Hdom.
        split; [intros [? ?]; split; [by left|done]|].
        by intros [[?|?] ?].
  - intros v h. case_bool_decide as Hproto; [apply Hid|].
    destruct (decide (v = node_id n)) as [->|Hv].
    + rewrite lookup_insert_eq. by intros [= <-].
    + rewrite lookup_insert_ne by done. apply Hid.
Qed.

(** X13: a regular block that the constructor returns holds its handles
    under names that are no members of the block, one for every name in
    [variables], except that in a template the handles of elements with
    the ids [bTemplate] and [templateCode] are gone, replaced by the later
    assignments of these members.  The handle stored under a name has that
    name as its [id], and [variables] has one entry, in order, for every
    element that the query ['[id]'] selected in the markup. *)
Theorem new_ComponentBlock_handles (tag : Tag) (b : ComponentBlock) :
  new_ComponentBlock querySelectorAll tag = inr b ->
  regular b
  /\ (forall v,
        is_Some (vars b !! v)
        <-> v ∈ variables b
            /\ ~ (is_template tag = true
                  /\ (v = js "bTemplate" \/ v = js "templateCode")))
  /\ (forall v h, vars b !! v = Some h -> var_id h = v)
  /\ (exists thevars,
        querySelectorAll (js "[id]") (content tag) = Some thevars
        /\ variables b = map node_id thevars).
Proof.
  intros (thevars & vs & Hq & Hvs & Hproto & Hreg & _ & _ & Hvars & Hhandles & _)
    %new_ComponentBlock_inr.
  destruct (add_variables_handles thevars ([], ∅) vs) as [Hdom Hid]; [| |done|].
  { intros v. cbn. rewrite lookup_empty. split; [by intros [? ?]|].
    by intros [?%elem_of_nil _]. }
  { intros v h. cbn. by rewrite lookup_empty. }
  split; [done|]. rewrite Hvars, Hhandles. split; [|split].
  - intros v. destruct (is_template tag).
    + destruct (decide (v = js "templateCode")) as [->|Hc].
      { rewrite lookup_delete_eq. split; [by intros [? ?]|].
        intros [_ Hn]. exfalso. apply Hn. split; [done | by right]. }
      rewrite lookup_delete_ne by done.
      destruct (decide (v = js "bTemplate")) as [->|Hb].
      { rewrite lookup_delete_eq. split; [by intros [? ?]|].
        intros [_ Hn]. exfalso. apply Hn. split; [done | by left]. }
      rewrite lookup_delete_ne by done. rewrite Hdom. split.
      * intros [Hin _]. split; [done|]. by intros [_ [?|?]].
      * intros [Hin _]. split; [done|]. by intros ->.
    + rewrite Hdom. split.
      * intros [Hin _]. split; [done|]. by intros [? _].
      * intros [Hin _]. split; [done|]. by intros ->.
  - intros v h Hh. apply Hid. destruct (is_template tag); [|done].
    apply lookup_delete_Some in Hh as [_ Hh].
    by apply lookup_delete_Some in Hh as [_ Hh].
  - exists thevars. split; [done|].
    by rewrite (add_variables_names _ _ _ Hvs).
Qed.

End FactoryCoverage.

(** What the loop of the block constructor does with the ids it meets. *)
Lemma add_variables_throws (thevars : list Node)
    (acc : list jsstring * gmap jsstring ComponentVar) :
  acc.2 !! js "variables" = None ->
  match Factory.add_variables thevars acc with
  | inl e => e = TypeError
             /\ Factory.variables_then_more (map node_id thevars) = true
  | inr _ => Factory.variables_then_more (map node_id thevars) = false
  end.
Proof.
  revert acc; induction thevars as [|n rest IH]; intros acc Hacc; [done|].
  cbn [Factory.add_variables map Factory.variables_then_more]. cbv zeta.
  rewrite bool_decide_eq_false_2 by (rewrite Hacc; by intros [? ?]).
  destruct (decide (node_id n = js "variables")) as [Hn|Hn].
  - rewrite Hn.
    rewrite (bool_decide_eq_false_2 (js "variables" = js "__proto__"))
      by (vm_compute; discriminate).
    rewrite (bool_decide_eq_true_2 (js "variables" = js "variables")) by done.
    destruct rest as [|n' rest']; [done|].
    cbn [Factory.add_variables map snd].
    rewrite bool_decide_eq_true_2; [done|]. rewrite lookup_insert_eq. by eexists.
  - rewrite (bool_decide_eq_false_2 (node_id n = js "variables")) by done.
    apply IH. cbn [snd]. case_bool_decide; [done|].
    by rewrite lookup_insert_ne.
Qed.

(** The ids of the elements that the sample engine selects for ['[id]']. *)
Lemma host_variable_ids (l : list Node) :
  map node_id (filter (fun n => Host.selects Host.HasId n = true) l)
  = declared_ids l.
Proof.
  induction l as [|n l IH]; [done|].
  rewrite declared_ids_cons.
  destruct (Host.selects Host.HasId n) eqn:Hsel.
  - rewrite filter_cons_True by done. cbn [map]. rewrite IH.
    unfold Host.selects in Hsel. apply andb_true_iff in Hsel as [-> Hid].
    unfold node_id. by destruct (id_attr n).
  - rewrite filter_cons_False by by rewrite Hsel. rewrite IH.
    unfold Host.selects in Hsel.
    by destruct (is_element n), (id_attr n).
Qed.

Lemma new_ComponentBlock_host_throws (tag : Factory.Tag) :
  match Factory.new_ComponentBlock Host.querySelectorAll tag with
  | inl (Factory.Threw e) =>
      e = TypeError
      /\ Factory.variables_then_more (declared_ids (Factory.content tag)) = true
  | inl (Factory.Odd _) =>
      Factory.variables_then_more (declared_ids (Factory.content tag)) = false
  | inr b =>
      Factory.variables_then_more (declared_ids (Factory.content tag)) = false
      /\ Block.regular b
  end.
Proof.
  unfold Factory.new_ComponentBlock.
  change (Host.querySelectorAll (js "[id]") (Factory.content tag))
    with (Some (filter (fun n => Host.selects Host.HasId n = true)
                  (Factory.content tag))).
  cbv beta iota.
  match goal with
  | |- context [Factory.add_variables ?t ?a] =>
      pose proof (add_variables_throws t a (lookup_empty _)) as Hthrow;
      rewrite host_variable_ids in Hthrow;
      destruct (Factory.add_variables t a) as [e|vs]
  end; [done|].
  case_bool_decide; [done|]. by case_bool_decide.
Qed.

(** X14: on the sample engine the factory constructor throws exactly when
    some tag has no [id] attribute, or has a key and holds in its markup an
    element with the id [variables] that is followed by another element
    with an id; what it throws is a [TypeError].  When it returns a factory
    of regular blocks, no handle in any block has the name of a member. *)
Theorem new_TemplateFactory_throws (nodes : list Factory.Tag) :
  match Factory.new_TemplateFactory Host.querySelectorAll nodes with
  | inl (Factory.Raised e) =>
      e = TypeError /\ Exists (fun tag => Factory.throws_on tag = true) nodes
  | inl (Factory.Irregular index) =>
      Forall (fun tag => Factory.throws_on tag = false) nodes
      /\ exists k o, index !! k = Some (inl o)
  | inr f =>
      Forall (fun tag => Factory.throws_on tag = false) nodes
      /\ forall k b, Factory.templates f !! k = Some b -> Block.regular b
  end.
Proof.
  assert (H : forall acc,
    match Factory.index_tags Host.querySelectorAll nodes acc with
    | inl e => e = TypeError /\ Exists (fun tag => Factory.throws_on tag = true) nodes
    | inr m =>
        Forall (fun tag => Factory.throws_on tag = false) nodes
        /\ forall k b, m !! k = Some (inr b) ->
             acc !! k = Some (inr b) \/ Block.regular b
    end).
  { induction nodes as [|tag rest IH]; intros acc.
    { cbn. split; [done|]. intros k b Hk. by left. }
    cbn [Factory.index_tags].
    destruct (Factory.tag_id tag) as [id0|] eqn:Hid.
    2:{ split; [done|]. apply Exists_cons_hd. unfold Factory.throws_on.
        by rewrite Hid. }
    assert (Hskip : forall acc' (P : Block.ComponentBlock -> Prop),
      Factory.throws_on tag = false ->
      (forall k b, acc' !! k = Some (inr b) -> acc !! k = Some (inr b) \/ P b) ->
      (forall b, P b -> Block.regular b) ->
      match Factory.index_tags Host.querySelectorAll rest acc' with
      | inl e => e = TypeError
                 /\ Exists (fun tag => Factory.throws_on tag = true) (tag :: rest)
      | inr m =>
          Forall (fun tag => Factory.throws_on tag = false) (tag :: rest)
          /\ forall k b, m !! k = Some (inr b) ->
               acc !! k = Some (inr b) \/ Block.regular b
      end).
    { intros acc' P Htag Hacc' HP. specialize (IH acc').
      destruct (Factory.index_tags Host.querySelectorAll rest acc') as [e|m].
      - destruct IH as [-> Hex]. split; [done | by apply Exists_cons_tl].
      - destruct IH as [Hall Hreg]. split; [by constructor|].
        intros k b Hk. destruct (Hreg k b Hk) as [Hk'|?]; [|by right].
        destruct (Hacc' k b Hk') as [?|?]; [by left | right; by apply HP]. }
    destruct (nonempty (replace_class index_class [] id0)) eqn:Hne.
    - pose proof (new_ComponentBlock_host_throws tag) as Hnew.
      destruct (Factory.new_ComponentBlock Host.querySelectorAll tag)
        as [[e|o]|b].
      + destruct Hnew as [-> Hmore]. split; [done|]. apply Exists_cons_hd.
        unfold Factory.throws_on. by rewrite Hid, Hne, Hmore.
      + apply (Hskip _ (fun _ => False)); [| |done].
        * unfold Factory.throws_on. by rewrite Hid, Hne, Hnew.
        * intros k b0 Hk. left.
          apply lookup_insert_Some in Hk as [[_ ?]|[_ ?]]; done.
      + destruct Hnew as [Hmore Hreg].
        apply (Hskip _ (fun b0 => b0 = b)); [| |by intros ? ->].
        * unfold Factory.throws_on. by rewrite Hid, Hne, Hmore.
        * intros k b0 Hk.
          apply lookup_insert_Some in Hk as [[_ [= <-]]|[_ ?]]; [by right | by left].
    - apply (Hskip _ (fun _ => False)); [| |done].
      + unfold Factory.throws_on. by rewrite Hid, Hne.
      + intros k b0 Hk. by left. }
  unfold Factory.new_TemplateFactory. specialize (H ∅).
  destruct (Factory.index_tags Host.querySelectorAll nodes ∅) as [e|m] eqn:Hm;
    [done|].
  destruct H as [Hall Hreg].
  case_bool_decide as Hodd.
  - split; [done|]. cbn [Factory.templates]. intros k b Hk.
    unfold Factory.regular_blocks in Hk. rewrite lookup_omap in Hk.
    destruct (m !! k) as [[o|b0]|] eqn:Hmk; cbn in Hk; simplify_eq.
    destruct (Hreg k b Hmk) as [Habs|?]; [|done].
    by rewrite lookup_empty in Habs.
  - split; [done|].
    destruct (map_choose _ Hodd) as (k & o & Hk). exists k, o.
    unfold Factory.odd_blocks in Hk. rewrite lookup_omap in Hk.
    destruct (m !! k) as [[o0|b0]|]; cbn in Hk; by simplify_eq.
Qed.

(** The constructor on the markup of [variables_tag]: the handle of the
    first element takes the place of the array [this.variables], and the
    push for the second element throws. *)
Example variables_markup_throws :
  Factory.new_TemplateFactory Host.querySelectorAll
    [Sample.row_tag; Sample.variables_tag]
  = inl (Factory.Raised TypeError)
  /\ Factory.throws_on Sample.row_tag = false
  /\ Factory.throws_on Sample.variables_tag = true.
Proof. vm_compute. by repeat split. Qed.



Lemma new_ComponentBlock_handles_witness :
  Block.regular Sample.row
  /\ (forall v,
        is_Some (Block.vars Sample.row !! v)
        <-> v ∈ Block.variables Sample.row
            /\ ~ (Factory.is_template Sample.row_tag = true
                  /\ (v = js "bTemplate" \/ v = js "templateCode")))
  /\ (forall v h, Block.vars Sample.row !! v = Some h -> var_id h = v)
  /\ (exists thevars,
        Host.querySelectorAll (js "[id]") (Factory.content Sample.row_tag)
        = Some thevars
        /\ Block.variables Sample.row = map node_id thevars).
Proof.
  apply (new_ComponentBlock_handles Host.querySelectorAll Sample.row_tag Sample.row).
  vm_compute. reflexivity.
Defined.

(** ** The class helpers of a handle *)

Section ClassCoverage.

Import Block Classes.

Lemma find_map_stable {A} (P : A -> bool) (g : A -> A) (l : list A) :
  (forall x, P (g x) = P x) ->
  List.find P (map g l) = option_map g (List.find P l).
Proof.
  intros HP. induction l as [|x l IH]; [done|].
  cbn. rewrite HP. by destruct (P x).
Qed.

Lemma target_update (v : ComponentVar) (r : nat)
    (f : list jsstring -> list jsstring) (s : State) :
  target v (update r f s)
  = option_map (fun m => if (ref m =? r)%nat
                         then set_classList (f (classList m)) m else m)
      (target v s).
Proof.
  unfold target, getElementById, update. cbn [this document tree].
  destruct (nonempty _); [|done].
  apply find_map_stable. intros x. by destruct (ref x =? r)%nat.
Qed.

Lemma target_updated (v : ComponentVar) (n : Node)
    (f : list jsstring -> list jsstring) (s : State) :
  target v s = Some n ->
  target v (update (ref n) f s) = Some (set_classList (f (classList n)) n).
Proof. intros Ht. rewrite target_update, Ht. cbn. by rewrite Nat.eqb_refl. Qed.

Lemma update_update (r : nat) (f g : list jsstring -> list jsstring) (s : State) :
  update r g (update r f s) = update r (fun l => g (f l)) s.
Proof.
  unfold update. cbn [this document tree fresh]. f_equal. f_equal.
  rewrite map_map. apply map_ext. intros m.
  destruct (ref m =? r)%nat eqn:Hr; [|by rewrite Hr].
  cbn [ref set_classList]. by rewrite Hr.
Qed.

Lemma update_same (r : nat) (f : list jsstring -> list jsstring) (s : State) :
  (forall m, m ∈ tree (document s) -> ref m = r -> f (classList m) = classList m) ->
  update r f s = s.
Proof.
  intros Hf. destruct s as [b [t k]]. unfold update. cbn in *. f_equal. f_equal.
  induction t as [|m t IH]; [done|]. cbn. f_equal.
  - destruct (ref m =? r)%nat eqn:Hr; [|done].
    apply Nat.eqb_eq in Hr. rewrite Hf; [by destruct m | apply list_elem_of_here | done].
  - apply IH. intros m' Hm'. apply Hf. by apply list_elem_of_further.
Qed.

Lemma update_same_but_classes (r : nat) (f : list jsstring -> list jsstring)
    (s : State) :
  same_but_classes s (update r f s).
Proof.
  split; [done|]. split; [done|]. unfold update. cbn [document tree].
  rewrite map_map. apply map_ext. intros m. by destruct (ref m =? r)%nat.
Qed.

Lemma same_but_classes_trans (s1 s2 s3 : State) :
  same_but_classes s1 s2 -> same_but_classes s2 s3 -> same_but_classes s1 s3.
Proof. intros (?&?&?) (?&?&?). repeat split; congruence. Qed.

Lemma loop_same_but_classes (op : jsstring -> list jsstring -> list jsstring)
    (t : option Node) (cl : list jsstring) (s : State) :
  same_but_classes s (final (loop op t cl s)).
Proof.
  revert s; induction cl as [|c rest IH]; intros s; [done|].
  cbn [loop]. destruct t as [n|]; [|done].
  destruct (validate c); [done|].
  eapply same_but_classes_trans; [apply update_same_but_classes | apply IH].
Qed.

(** The loop of a helper that returns has seen valid tokens only, and has
    applied them one after the other to the class list of the target. *)
Lemma loop_Normal (op : jsstring -> list jsstring -> list jsstring)
    (n : Node) (cl : list jsstring) :
  forall s s',
    loop op (Some n) cl s = Normal s' ->
    Forall (fun c => validate c = None) cl
    /\ s' = update (ref n) (fun l => foldl (fun l c => op c l) l cl) s.
Proof.
  induction cl as [|c rest IH]; intros s s' Hrun.
  - injection Hrun as <-. split; [done|]. symmetry. by apply update_same.
  - cbn [loop] in Hrun. destruct (validate c) eqn:Hc; [done|].
    apply IH in Hrun as [Hrest ->]. split; [by constructor|].
    by rewrite update_update.
Qed.

Lemma loop_valid (op : jsstring -> list jsstring -> list jsstring)
    (n : Node) (cl : list jsstring) :
  forall s,
    Forall (fun c => validate c = None) cl ->
    loop op (Some n) cl s
    = Normal (update (ref n) (fun l => foldl (fun l c => op c l) l cl) s).
Proof.
  induction cl as [|c rest IH]; intros s Hall.
  - cbn. f_equal. symmetry. by apply update_same.
  - apply Forall_cons in Hall as [Hc Hrest]. cbn [loop]. rewrite Hc.
    rewrite IH by done. by rewrite update_update.
Qed.

(** A helper that returns after at least one round had a target. *)
Lemma loop_target (op : jsstring -> list jsstring -> list jsstring)
    (t : option Node) (cl : list jsstring) (s s' : State) :
  loop op t cl s = Normal s' -> cl ≠ [] -> is_Some t.
Proof. destruct cl as [|c rest]; [done|]. by destruct t. Qed.

Lemma elem_of_add (c token : jsstring) (l : list jsstring) :
  c ∈ add token l <-> c ∈ l \/ c = token.
Proof.
  unfold add. case_bool_decide as Hin.
  - split; [by left|]. by intros [?| ->].
  - by rewrite elem_of_app, list_elem_of_singleton.
Qed.

Lemma elem_of_remove (c token : jsstring) (l : list jsstring) :
  c ∈ remove token l <-> c ∈ l /\ c ≠ token.
Proof. unfold remove. rewrite list_elem_of_filter. tauto. Qed.

Lemma elem_of_toggle (c token : jsstring) (l : list jsstring) :
  c ∈ toggle token l
  <-> (c ∈ l /\ c ≠ token) \/ ((token ∉ l) /\ c = token).
Proof.
  unfold toggle. case_bool_decide as Hin.
  - rewrite elem_of_remove. split; [by left|]. by intros [?|[? _]].
  - rewrite elem_of_app, list_elem_of_singleton. split.
    + intros [Hc| ->]; [|by right]. left. split; [done|]. by intros ->.
    + intros [[? _]|[_ ?]]; [by left | by right].
Qed.

Lemma elem_of_foldl_add (c : jsstring) (cl l : list jsstring) :
  c ∈ foldl (fun l c => add c l) l cl <-> c ∈ l \/ c ∈ cl.
Proof.
  revert l; induction cl as [|t cl IH]; intros l; cbn.
  - split; [by left|]. by intros [?|?%elem_of_nil].
  - rewrite IH, elem_of_add, elem_of_cons. tauto.
Qed.

Lemma elem_of_foldl_remove (c : jsstring) (cl l : list jsstring) :
  c ∈ foldl (fun l c => remove c l) l cl <-> c ∈ l /\ c ∉ cl.
Proof.
  revert l; induction cl as [|t cl IH]; intros l; cbn.
  - split; [|by intros [? _]]. intros ?. split; [done|]. by intros ?%elem_of_nil.
  - rewrite IH, elem_of_remove, not_elem_of_cons. tauto.
Qed.

Lemma elem_of_foldl_toggle (c : jsstring) (cl l : list jsstring) :
  NoDup cl ->
  c ∈ foldl (fun l c => toggle c l) l cl
  <-> (c ∈ l /\ c ∉ cl) \/ ((c ∉ l) /\ c ∈ cl).
Proof.
  intros Hnd. revert l; induction Hnd as [|t cl Ht Hnd IH]; intros l; cbn.
  - split.
    + intros ?. left. split; [done|]. by intros ?%elem_of_nil.
    + by intros [[? _]|[_ ?%elem_of_nil]].
  - rewrite IH, elem_of_toggle, not_elem_of_cons, elem_of_cons.
    destruct (decide (c = t)) as [->|Hct]; [|tauto].
    destruct (decide (t ∈ l)); tauto.
Qed.

Lemma foldl_add_present (cl l : list jsstring) :
  (forall c, c ∈ cl -> c ∈ l) ->
  foldl (fun l c => add c l) l cl = l.
Proof.
  induction cl as [|t cl IH]; intros Hall; [done|]. cbn.
  unfold add at 2. rewrite bool_decide_eq_true_2 by apply Hall, list_elem_of_here.
  apply IH. intros c Hc. by apply Hall, list_elem_of_further.
Qed.

Lemma NoDup_foldl_add (cl l : list jsstring) :
  NoDup l -> NoDup (foldl (fun l c => add c l) l cl).
Proof.
  revert l; induction cl as [|t cl IH]; intros l Hl; [done|]. cbn. apply IH.
  unfold add. case_bool_decide as Hin; [done|].
  apply NoDup_app. split; [done|]. split; [|apply NoDup_singleton].
  intros x Hx ->%list_elem_of_singleton. done.
Qed.

Lemma split_space_nonempty (s : jsstring) : Var.split_space s ≠ [].
Proof.
  induction s as [|c s IH]; [done|]. cbn.
  destruct (c =? 32); [done|]. by destruct (Var.split_space s).
Qed.

Lemma Var_target (v : ComponentVar) (s : State) :
  Var.target v s = Ok (target v s) s.
Proof. done. Qed.

Lemma hasClass_target (v : ComponentVar) (cls : option jsstring)
    (n : Node) (s : State) :
  target v s = Some n ->
  Var.hasClass v cls s
  = Ok (bool_decide (Forall (fun c => c ∈ classList n) (Var.class_names cls))) s.
Proof. intros Ht. apply hasClass_resolved. by rewrite Var_target, Ht. Qed.

(** What a helper that returned did to the class list of the target. *)
Lemma helper_Normal (op : jsstring -> list jsstring -> list jsstring)
    (v : ComponentVar) (cl : list jsstring) (s s' : State) :
  loop op (target v s) cl s = Normal s' ->
  cl ≠ [] ->
  exists n,
    target v s = Some n
    /\ Forall (fun c => validate c = None) cl
    /\ s' = update (ref n) (fun l => foldl (fun l c => op c l) l cl) s
    /\ target v s'
       = Some (set_classList (foldl (fun l c => op c l) (classList n) cl) n).
Proof.
  intros Hrun Hcl.
  destruct (loop_target _ _ _ _ _ Hrun Hcl) as [n Hn].
  rewrite Hn in Hrun. apply loop_Normal in Hrun as [Hall ->].
  exists n. split; [done|]. split; [done|]. split; [done|].
  by apply target_updated.
Qed.

Lemma setClass_hasClass (v : ComponentVar) (str : jsstring) (s s' : State) :
  setClass v (Text str) s = Normal s' ->
  Var.hasClass v (Some str) s' = Ok true s'.
Proof.
  intros Hrun. unfold setClass in Hrun.
  apply helper_Normal in Hrun as (n & Hn & Hall & Hs' & Hn');
    [|apply split_space_nonempty].
  rewrite (hasClass_target _ _ _ _ Hn').
  rewrite bool_decide_eq_true_2; [done|]. apply Forall_forall. intros c Hc.
  cbn. apply elem_of_foldl_add. by right.
Qed.

(** X15: when [setClass] (or [addClass]) returns, the target holds the
    classes it had and the classes named, and no class twice if it held
    none twice; [hasClass] with the same string then answers true, and
    running [setClass] with the same names again changes nothing. *)
Theorem setClass_adds (v : ComponentVar) (cn : classname) (s s' : State) :
  setClass v cn s = Normal s' ->
  clst cn ≠ [] ->
  exists n n',
    target v s = Some n /\ target v s' = Some n'
    /\ (forall c, c ∈ classList n' <-> c ∈ classList n \/ c ∈ clst cn)
    /\ (NoDup (classList n) -> NoDup (classList n'))
    /\ (forall str, cn = Text str -> Var.hasClass v (Some str) s' = Ok true s')
    /\ setClass v cn s' = Normal s'.
Proof.
  intros Hrun Hcl. unfold setClass in *.
  apply helper_Normal in Hrun as (n & Hn & Hall & Hs' & Hn'); [|done].
  exists n. eexists. split; [done|]. split; [exact Hn'|]. cbn [classList set_classList].
  split; [intros c; apply elem_of_foldl_add|].
  split; [apply NoDup_foldl_add|]. split.
  - intros str ->. rewrite (hasClass_target _ _ _ _ Hn').
    rewrite bool_decide_eq_true_2; [done|]. apply Forall_forall. intros c Hc.
    cbn. apply elem_of_foldl_add. by right.
  - rewrite Hn'. rewrite loop_valid by done. f_equal. apply update_same.
    intros m Hm Hr. apply foldl_add_present. intros c Hc.
    rewrite Hs' in Hm. cbn in Hm. apply list_elem_of_fmap in Hm as (m0 & -> & Hm0).
    destruct (ref m0 =? ref n)%nat eqn:Hm0r.
    + cbn. apply elem_of_foldl_add. by right.
    + apply Nat.eqb_neq in Hm0r. done.
Qed.

(** X16: when [removeClass] returns, the target holds the classes it had
    except the classes named; [hasClass] with the same string then answers
    false. *)
Theorem removeClass_removes (v : ComponentVar) (cn : classname) (s s' : State) :
  removeClass v cn s = Normal s' ->
  clst cn ≠ [] ->
  exists n n',
    target v s = Some n /\ target v s' = Some n'
    /\ (forall c, c ∈ classList n' <-> c ∈ classList n /\ c ∉ clst cn)
    /\ (forall str, cn = Text str -> Var.hasClass v (Some str) s' = Ok false s').
Proof.
  intros Hrun Hcl. unfold removeClass in *.
  apply helper_Normal in Hrun as (n & Hn & Hall & Hs' & Hn'); [|done].
  exists n. eexists. split; [done|]. split; [exact Hn'|]. cbn [classList set_classList].
  split; [intros c; apply elem_of_foldl_remove|].
  intros str ->. rewrite (hasClass_target _ _ _ _ Hn').
  rewrite bool_decide_eq_false_2; [done|]. intros Hforall.
  cbn in Hcl, Hforall. destruct (Var.split_space str) as [|c cl]; [done|].
  apply Forall_cons in Hforall as [Hc _].
  apply elem_of_foldl_remove in Hc as [_ Hc]. apply Hc, list_elem_of_here.
Qed.

(** X17: when [toggleClass] returns and no class was named twice, the
    target holds the classes it had and that were not named, and the
    classes named that it did not have. *)
Theorem toggleClass_flips (v : ComponentVar) (cn : classname) (s s' : State) :
  toggleClass v cn s = Normal s' ->
  clst cn ≠ [] ->
  NoDup (clst cn) ->
  exists n n',
    target v s = Some n /\ target v s' = Some n'
    /\ forall c, c ∈ classList n'
         <-> (c ∈ classList n /\ c ∉ clst cn) \/ ((c ∉ classList n) /\ c ∈ clst cn).
Proof.
  intros Hrun Hcl Hnd. unfold toggleClass in *.
  apply helper_Normal in Hrun as (n & Hn & Hall & Hs' & Hn'); [|done].
  exists n. eexists. split; [done|]. split; [exact Hn'|]. cbn [classList set_classList].
  intros c. by apply elem_of_foldl_toggle.
Qed.

Lemma validate_None (c : jsstring) :
  validate c = None ->
  c ≠ [] /\ Forall (fun x => is_ascii_whitespace x = false) c.
Proof.
  unfold validate. destruct c as [|x c]; [done|]. cbn [nonempty negb].
  destruct (existsb _ _) eqn:Hex; [done|]. intros _. split; [done|].
  apply Forall_forall. intros y Hy.
  destruct (is_ascii_whitespace y) eqn:Hy'; [|done].
  assert (existsb is_ascii_whitespace (x :: c) = true); [|congruence].
  apply existsb_exists. exists y. split; [by apply list_elem_of_In | done].
Qed.

(** X18: [setClass], [removeClass] and [toggleClass] return only when every
    name is a valid token, not empty and free of white space, and, if any
    name was given, the target exists.  So none of them returns for the
    empty string, or for a string that starts or ends with a space or has
    two spaces in a row. *)
Theorem class_helpers_need_valid_tokens
    (v : ComponentVar) (cn : classname) (s s' : State) :
  setClass v cn s = Normal s'
  \/ removeClass v cn s = Normal s'
  \/ toggleClass v cn s = Normal s' ->
  Forall (fun c => c ≠ [] /\ Forall (fun x => is_ascii_whitespace x = false) c)
    (clst cn)
  /\ (clst cn ≠ [] -> is_Some (target v s))
  /\ (forall str, cn = Text str -> ([] ∉ Var.split_space str) /\ str ≠ []).
Proof.
  intros Hrun.
  assert (Hloop : exists op, loop op (target v s) (clst cn) s = Normal s').
  { destruct Hrun as [H|[H|H]]; eauto. }
  destruct Hloop as [op Hloop].
  assert (Hvalid : Forall (fun c => c ≠ []
                     /\ Forall (fun x => is_ascii_whitespace x = false) c) (clst cn)).
  { destruct (clst cn) as [|c cl] eqn:Hcl; [done|].
    destruct (loop_target _ _ _ _ _ Hloop) as [n Hn]; [done|].
    rewrite Hn in Hloop. apply loop_Normal in Hloop as [Hall _].
    eapply Forall_impl; [exact Hall|]. intros x. apply validate_None. }
  split; [done|]. split; [by eapply loop_target|].
  intros str ->. cbn in Hvalid. rewrite Forall_forall in Hvalid.
  assert (Hne : [] ∉ Var.split_space str).
  { intros Hin. by destruct (Hvalid [] Hin). }
  split; [done|]. intros ->. apply Hne. cbn. apply list_elem_of_here.
Qed.

(** X19: no class helper touches anything but class lists.  Whether it
    returns or raises, [setClass], [removeClass], [toggleClass],
    [clearClass] and [choose] leave the block as it is, and every node of
    the document keeps its identity, its place, its id and its data
    attributes. *)
Theorem class_helpers_change_classes_only
    (v : ComponentVar) (cn : classname) (b : bool) (s : State) :
  same_but_classes s (final (setClass v cn s))
  /\ same_but_classes s (final (removeClass v cn s))
  /\ same_but_classes s (final (toggleClass v cn s))
  /\ same_but_classes s (final (clearClass v s))
  /\ same_but_classes s (final (choose v b s)).
Proof.
  split; [apply loop_same_but_classes|].
  split; [apply loop_same_but_classes|].
  split; [apply loop_same_but_classes|].
  split.
  { unfold clearClass. destruct (target v s); [|done].
    apply update_same_but_classes. }
  unfold choose. destruct (boolClass v) as [bc|]; [|done].
  set (rem := if b then bc_false bc else bc_true bc).
  set (add := if b then bc_true bc else bc_false bc).
  assert (H1 : same_but_classes s
                 (final (if has_length rem then removeClass v (as_classname rem) s
                         else Normal s))).
  { destruct (has_length rem); [apply loop_same_but_classes | done]. }
  destruct (if has_length rem then _ else _) as [s1|e s1]; [|done].
  eapply same_but_classes_trans; [exact H1|].
  destruct (has_length add); [apply loop_same_but_classes | done].
Qed.

(** X20: [choose] and [which] agree for a handle whose true class is
    configured, not empty, and names a class that the false class does not
    name, and whose false class is not the empty string: when [choose(b)]
    returns, [which] answers [b]. *)
Theorem choose_then_which
    (v : ComponentVar) (bc : BoolClass) (t : jsstring) (b : bool) (s s' : State) :
  boolClass v = Some bc ->
  bc_true bc = Some t ->
  t ≠ [] ->
  bc_false bc ≠ Some [] ->
  (exists c, c ∈ Var.split_space t /\ c ∉ Var.class_names (bc_false bc)) ->
  choose v b s = Normal s' ->
  Var.which v s' = Ok (Some b) s'.
Proof.
  intros Hbc Ht Hne Hf (c0 & Hc0 & Hc0f) Hrun.
  unfold choose in Hrun. rewrite Hbc in Hrun. unfold Var.which. rewrite Hbc.
  assert (Hlen : has_length (Some t) = true) by by destruct t.
  rewrite Ht in *. destruct b.
  - (* choose(true): the true class is added last *)
    destruct (if has_length (bc_false bc) then _ else _) as [s1|e s1]; [|done].
    rewrite Hlen in Hrun. cbn [as_classname] in Hrun.
    apply setClass_hasClass in Hrun. unfold bind. by rewrite Hrun.
  - (* choose(false): the true class is removed, the false class added *)
    rewrite Hlen in Hrun. cbn [as_classname] in Hrun.
    destruct (removeClass v (Text t) s) as [s1|e s1] eqn:Hrem; [|done].
    unfold removeClass in Hrem.
    apply helper_Normal in Hrem as (n & Hn & _ & Hs1 & Hn1);
      [|apply split_space_nonempty].
    cbn [clst] in Hn1.
    set (l1 := foldl (fun l c => remove c l) (classList n) (Var.split_space t)) in *.
    assert (Hc0l1 : c0 ∉ l1).
    { intros Hin. apply elem_of_foldl_remove in Hin as [_ Hin]. done. }
    destruct (bc_false bc) as [f|] eqn:Hfalse.
    + destruct f as [|x f]; [done|]. cbn [has_length as_classname] in Hrun.
      unfold addClass, setClass in Hrun.
      apply helper_Normal in Hrun as (n1 & Hn1' & _ & Hs' & Hn');
        [|apply split_space_nonempty].
      rewrite Hn1 in Hn1'. injection Hn1' as <-.
      cbn [clst classList set_classList] in Hn'.
      unfold bind.
      rewrite (hasClass_target _ _ _ _ Hn').
      rewrite bool_decide_eq_false_2.
      2:{ intros Hall. rewrite Forall_forall in Hall. specialize (Hall c0 Hc0).
          cbn in Hall. apply elem_of_foldl_add in Hall as [?|?]; [done|].
          by apply Hc0f. }
      rewrite (hasClass_target _ _ _ _ Hn').
      rewrite bool_decide_eq_true_2; [done|].
      apply Forall_forall. intros c Hc. cbn. apply elem_of_foldl_add. by right.
    + cbn [has_length] in Hrun. injection Hrun as <-.
      unfold bind.
      rewrite (hasClass_target _ _ _ _ Hn1).
      rewrite bool_decide_eq_false_2.
      2:{ intros Hall. rewrite Forall_forall in Hall. by specialize (Hall c0 Hc0). }
      rewrite (hasClass_target _ _ _ _ Hn1). done.
Qed.

(** X21: when [clearClass] returns, the target has no class: [hasClass]
    answers false for every string, and [which] answers true exactly when
    no true class is configured or some false class is. *)
Theorem clearClass_then (v : ComponentVar) (s s' : State) :
  clearClass v s = Normal s' ->
  (exists n, target v s = Some n /\ target v s' = Some (set_classList [] n))
  /\ (forall str, Var.hasClass v (Some str) s' = Ok false s')
  /\ (forall bc, boolClass v = Some bc ->
        Var.which v s'
        = Ok (Some (bool_decide (bc_true bc = None \/ is_Some (bc_false bc)))) s').
Proof.
  unfold clearClass. destruct (target v s) as [n|] eqn:Hn; [|done].
  intros [= <-].
  pose proof (target_updated v n (fun _ => []) s Hn) as Hn'.
  assert (Hhas : forall str,
    Var.hasClass v (Some str) (update (ref n) (fun _ => []) s)
    = Ok false (update (ref n) (fun _ => []) s)).
  { intros str. rewrite (hasClass_target _ _ _ _ Hn').
    rewrite bool_decide_eq_false_2; [done|]. cbn.
    pose proof (split_space_nonempty str) as Hsp.
    destruct (Var.split_space str) as [|c cl]; [done|].
    intros [Hc _]%Forall_cons. by apply elem_of_nil in Hc. }
  split; [by exists n|]. split; [done|].
  intros bc Hbc. unfold Var.which. rewrite Hbc. unfold bind.
  destruct (bc_true bc) as [t|].
  - rewrite Hhas. destruct (bc_false bc) as [f|].
    + rewrite bool_decide_eq_true_2 by (right; by eexists). by rewrite Hhas.
    + rewrite bool_decide_eq_false_2 by (by intros [?|[? ?]]).
      by rewrite (hasClass_target _ _ _ _ Hn').
  - rewrite bool_decide_eq_true_2 by by left.
    by rewrite (hasClass_target _ _ _ _ Hn').
Qed.

End ClassCoverage.

(** ** Sample runs of the class helpers and of the numbering *)

Lemma setClass_adds_witness :
  exists n n',
    Classes.target Sample.only_true Sample.flags_page = Some n
    /\ Classes.target Sample.only_true Sample.flags_on = Some n'
    /\ (forall c, c ∈ classList n'
          <-> c ∈ classList n \/ c ∈ Classes.clst (Classes.Text (js "on")))
    /\ (NoDup (classList n) -> NoDup (classList n'))
    /\ (forall str, Classes.Text (js "on") = Classes.Text str ->
          Var.hasClass Sample.only_true (Some str) Sample.flags_on
          = Ok true Sample.flags_on)
    /\ Classes.setClass Sample.only_true (Classes.Text (js "on")) Sample.flags_on
       = Classes.Normal Sample.flags_on.
Proof.
  apply (setClass_adds Sample.only_true (Classes.Text (js "on"))
           Sample.flags_page Sample.flags_on).
  - vm_compute. reflexivity.
  - vm_compute. discriminate.
Defined.

Lemma removeClass_removes_witness :
  exists n n',
    Classes.target Sample.only_true Sample.flags_on = Some n
    /\ Classes.target Sample.only_true Sample.flags_page = Some n'
    /\ (forall c, c ∈ classList n'
          <-> c ∈ classList n /\ c ∉ Classes.clst (Classes.Text (js "on")))
    /\ (forall str, Classes.Text (js "on") = Classes.Text str ->
          Var.hasClass Sample.only_true (Some str) Sample.flags_page
          = Ok false Sample.flags_page).
Proof.
  apply (removeClass_removes Sample.only_true (Classes.Text (js "on"))
           Sample.flags_on Sample.flags_page).
  - vm_compute. reflexivity.
  - vm_compute. discriminate.
Defined.

Lemma toggleClass_flips_witness :
  exists n n',
    Classes.target Sample.only_true Sample.flags_page = Some n
    /\ Classes.target Sample.only_true Sample.flags_on = Some n'
    /\ forall c, c ∈ classList n'
         <-> (c ∈ classList n /\ c ∉ Classes.clst (Classes.Text (js "on")))
             \/ ((c ∉ classList n) /\ c ∈ Classes.clst (Classes.Text (js "on"))).
Proof.
  apply (toggleClass_flips Sample.only_true (Classes.Text (js "on"))
           Sample.flags_page Sample.flags_on).
  - vm_compute. reflexivity.
  - vm_compute. discriminate.
  - vm_compute. apply NoDup_singleton.
Defined.

Lemma class_helpers_need_valid_tokens_witness :
  Forall (fun c => c ≠ []
            /\ Forall (fun x => Classes.is_ascii_whitespace x = false) c)
    (Classes.clst (Classes.Text (js "on")))
  /\ (Classes.clst (Classes.Text (js "on")) ≠ []
      -> is_Some (Classes.target Sample.only_true Sample.flags_page))
  /\ (forall str, Classes.Text (js "on") = Classes.Text str ->
        ([] ∉ Var.split_space str) /\ str ≠ []).
Proof.
  apply (class_helpers_need_valid_tokens Sample.only_true (Classes.Text (js "on"))
           Sample.flags_page Sample.flags_on).
  left. vm_compute. reflexivity.
Defined.

Lemma choose_then_which_witness :
  Var.which Sample.only_true Sample.flags_on = Ok (Some true) Sample.flags_on.
Proof.
  apply (choose_then_which Sample.only_true
           {| bc_true := Some (js "on"); bc_false := None |} (js "on") true
           Sample.flags_page Sample.flags_on).
  - vm_compute. reflexivity.
  - reflexivity.
  - vm_compute. discriminate.
  - discriminate.
  - exists (js "on"). split.
    + vm_compute. apply list_elem_of_here.
    + cbn. apply not_elem_of_nil.
  - vm_compute. reflexivity.
Defined.

Lemma clearClass_then_witness :
  (exists n,
     Classes.target Sample.only_true Sample.flags_on = Some n
     /\ Classes.target Sample.only_true Sample.flags_page
        = Some (Classes.set_classList [] n))
  /\ (forall str,
        Var.hasClass Sample.only_true (Some str) Sample.flags_page
        = Ok false Sample.flags_page)
  /\ (forall bc, boolClass Sample.only_true = Some bc ->
        Var.which Sample.only_true Sample.flags_page
        = Ok (Some (bool_decide (bc_true bc = None \/ is_Some (bc_false bc))))
            Sample.flags_page).
Proof.
  apply (clearClass_then Sample.only_true Sample.flags_on Sample.flags_page).
  vm_compute. reflexivity.
Defined.

Lemma appendTo_host_total_witness :
  Block.appendTo Host.querySelectorAll 3 (Some Sample.tbl) (Some [])
    (Sample.start Sample.row) ≠ OutOfFuel.
Proof.
  apply (appendTo_host_total 3 (Some Sample.tbl) (Some []) (Sample.start Sample.row)).
  vm_compute. lia.
Defined.

